(** * SpiroSvg: the curve generation pipeline of [spirograph/generator.py]

    A shallow embedding of [generate_points], [scale_points],
    [points_to_path] and [generate_path], together with the part of
    [SpiroConfig] they read.

    Python's [float] is IEEE 754 binary64.  It is modelled by the
    axiom-free specification of binary floating-point arithmetic of the
    standard library ([SpecFloat], instantiated at [prec = 53] and
    [emax = 1024]), so every definition below evaluates, bit for bit, the
    way the interpreter does.  Python's [int] is [Z].  An exception is a
    value of [exn]; a computation that may raise returns [result A]. *)

From Stdlib Require Import ZArith List String Ascii Bool Lia.
From Stdlib Require Import SpecFloat DecimalString DecimalN.
Import ListNotations.

Local Open Scope Z_scope.

(** ** Exceptions *)

Inductive exn : Type :=
| ValueError (msg : string)
| ZeroDivisionError
| OverflowError.

Definition result (A : Type) : Type := (exn + A)%type.

Definition ret {A : Type} (a : A) : result A := inr a.
Definition raise {A : Type} (e : exn) : result A := inl e.

Definition bind {A B : Type} (c : result A) (k : A -> result B) : result B :=
  match c with
  | inl e => inl e
  | inr a => k a
  end.

Notation "x <- c ;; k" := (bind c (fun x => k))
  (at level 61, c at next level, right associativity).

(** ** Binary64 arithmetic *)

Module Float.

Definition prec : Z := 53.
Definition emax : Z := 1024.

Definition float : Type := spec_float.

Definition mul : float -> float -> float := SFmul prec emax.
Definition add : float -> float -> float := SFadd prec emax.
Definition sub : float -> float -> float := SFsub prec emax.
Definition div : float -> float -> float := SFdiv prec emax.
Definition abs : float -> float := SFabs.
Definition eqb : float -> float -> bool := SFeqb.
Definition ltb : float -> float -> bool := SFltb.
Definition leb : float -> float -> bool := SFleb.
Definition valid : float -> bool := valid_binary prec emax.

(** [m * 2 ^ e], for a positive literal. *)
Definition lit (m : positive) (e : Z) : float := S754_finite false m e.

Definition zero : float := S754_zero false.
Definition one : float := lit 4503599627370496 (-52).
Definition two : float := lit 4503599627370496 (-51).

Definition is_nan (x : float) : bool :=
  match x with S754_nan => true | _ => false end.

Definition is_inf (x : float) : bool :=
  match x with S754_infinity _ => true | _ => false end.

(** Neither an infinity nor a NaN: C's [isfinite]. *)
Definition is_finite (x : float) : bool :=
  match x with
  | S754_zero _ | S754_finite _ _ _ => true
  | _ => false
  end.

(** The binary64 nearest to an integer, ties to even; an infinity when
    the integer is out of range. *)
Definition of_Z (n : Z) : float := binary_normalize prec emax n 0 false.

End Float.

Abbreviation float := Float.float.

(** ** The interpreter's primitives used by the generator *)

Module Py.

(** [a / b] on floats. *)
Definition float_truediv (a b : float) : result float :=
  if Float.eqb b Float.zero then raise ZeroDivisionError
  else ret (Float.div a b).

(** An [int] operand of a float operation is converted first
    ([PyLong_AsDouble]); an [int] too large for a float raises. *)
Definition int_to_float (n : Z) : result float :=
  let x := Float.of_Z n in
  if Float.is_inf x then raise OverflowError else ret x.

(** [a / b] on ints: the correctly rounded quotient.  The operands are
    taken as the unnormalised floats [|a| * 2 ^ 0] and [|b| * 2 ^ 0];
    the division of [SpecFloat] rounds the exact quotient of any two
    mantissas. *)
Definition int_truediv (a b : Z) : result float :=
  match a, b with
  | _, Z0 => raise ZeroDivisionError
  | Z0, _ => ret (S754_zero (b <? 0))
  | _, _ =>
      let x :=
        Float.div (S754_finite (a <? 0) (Z.to_pos (Z.abs a)) 0)
                  (S754_finite (b <? 0) (Z.to_pos (Z.abs b)) 0) in
      if Float.is_inf x then raise OverflowError else ret x
  end.

(** [int(x)]: truncation towards zero. *)
Definition int_of_float (x : float) : result Z :=
  match x with
  | S754_nan => raise (ValueError "cannot convert float NaN to integer")
  | S754_infinity _ => raise OverflowError
  | S754_zero _ => ret 0
  | S754_finite s m e => ret (cond_Zopp s (Z.shiftl (Zpos m) e))
  end.

(** [max(a, b)]: the first argument stays unless the second is
    greater. *)
Definition max_float (a b : float) : float :=
  if Float.ltb a b then b else a.

Definition max_int (a b : Z) : Z :=
  if a <? b then b else a.

(** [range(n)]. *)
Definition range (n : Z) : list Z := map Z.of_nat (seq 0 (Z.to_nat n)).

(** [math.pi] and the default [rel_tol = 1e-09] of [math.isclose]. *)
Definition pi : float := Float.lit 7074237752028440 (-51).
Definition rel_tol : float := Float.lit 4835703278458517 (-82).
Definition abs_tol : float := Float.zero.

(** [math.isclose(a, b)] with the default tolerances. *)
Definition isclose (a b : float) : bool :=
  if Float.eqb a b then true
  else if Float.is_inf a || Float.is_inf b then false
  else
    let diff := Float.abs (Float.sub b a) in
    Float.leb diff (Float.abs (Float.mul rel_tol b))
    || Float.leb diff (Float.abs (Float.mul rel_tol a))
    || Float.leb diff abs_tol.

(** The wrapper [math_1] that [math.cos] and [math.sin] put around the
    C library's function: a NaN result for a non-NaN argument, or an
    infinite result for a finite one, is a domain error. *)
Definition math_1 (func : float -> float) (x : float) : result float :=
  let r := func x in
  if Float.is_nan r && negb (Float.is_nan x)
  then raise (ValueError "math domain error")
  else if Float.is_inf r && Float.is_finite x
  then raise (ValueError "math domain error")
  else ret r.

End Py.

(** ** [spirograph/config.py] *)

Inductive SpiroType : Type :=
| HYPOTROCHOID
| EPITROCHOID.

Record SpiroConfig : Type := {
  outer_radius : float;
  inner_radius : float;
  pen_offset : float;
  theta_step : float;
  cycles : float;
  stroke_width : float;
  stroke_color : string;
  canvas_size : Z;
  spiro_type : SpiroType
}.

(** [SpiroConfig.extent].  The epitrochoid's lower bound is the [int]
    [0]; its only use is as the right operand of a float subtraction,
    where it is converted to [0.0]. *)
Definition extent (self : SpiroConfig) : float * float :=
  match spiro_type self with
  | HYPOTROCHOID =>
      (Float.sub (Float.sub (outer_radius self) (inner_radius self))
                 (pen_offset self),
       Float.add (outer_radius self) (pen_offset self))
  | EPITROCHOID =>
      (Float.zero,
       Float.add (Float.add (outer_radius self) (inner_radius self))
                 (pen_offset self))
  end.

(** ** [spirograph/generator.py] *)

Definition Point : Type := (float * float)%type.

Section Generator.

(** The C library's [cos] and [sin], which [math.cos] and [math.sin]
    wrap.  They are not part of the repository and are not correctly
    rounded, so the generator is parameterised by them. *)
Variables libm_cos libm_sin : float -> float.

Definition math_cos : float -> result float := Py.math_1 libm_cos.
Definition math_sin : float -> result float := Py.math_1 libm_sin.

Definition _hypotrochoid_point (theta : float) (config : SpiroConfig)
  : result Point :=
  let r := inner_radius config in
  let R := outer_radius config in
  let d := pen_offset config in
  let k := Float.sub R r in
  cos_theta <- math_cos theta ;;
  sin_theta <- math_sin theta ;;
  angle_multiplier <- Py.float_truediv k r ;;
  c <- math_cos (Float.mul angle_multiplier theta) ;;
  s <- math_sin (Float.mul angle_multiplier theta) ;;
  ret (Float.add (Float.mul k cos_theta) (Float.mul d c),
       Float.sub (Float.mul k sin_theta) (Float.mul d s)).

Definition _epitrochoid_point (theta : float) (config : SpiroConfig)
  : result Point :=
  let r := inner_radius config in
  let R := outer_radius config in
  let d := pen_offset config in
  let k := Float.add R r in
  cos_theta <- math_cos theta ;;
  sin_theta <- math_sin theta ;;
  angle_multiplier <- Py.float_truediv k r ;;
  c <- math_cos (Float.mul angle_multiplier theta) ;;
  s <- math_sin (Float.mul angle_multiplier theta) ;;
  ret (Float.sub (Float.mul k cos_theta) (Float.mul d c),
       Float.sub (Float.mul k sin_theta) (Float.mul d s)).

(** The body of the [for index in range(steps + 1)] loop, iterated over
    the indices left, with the list [points] built so far. *)
Fixpoint generate_points_loop (config : SpiroConfig) (indices : list Z)
    (points : list Point) : result (list Point) :=
  match indices with
  | [] => ret points
  | index :: rest =>
      i <- Py.int_to_float index ;;
      let theta := Float.mul i (theta_step config) in
      point <- match spiro_type config with
               | HYPOTROCHOID => _hypotrochoid_point theta config
               | EPITROCHOID => _epitrochoid_point theta config
               end ;;
      generate_points_loop config rest (points ++ [point])
  end.

Definition total_angle (config : SpiroConfig) : float :=
  Float.mul (Float.mul Float.two Py.pi) (cycles config).

(** [steps = max(1, int(total_angle / config.theta_step))]. *)
Definition steps (config : SpiroConfig) : result Z :=
  q <- Py.float_truediv (total_angle config) (theta_step config) ;;
  n <- Py.int_of_float q ;;
  ret (Py.max_int 1 n).

Definition generate_points (config : SpiroConfig) : result (list Point) :=
  steps <- steps config ;;
  generate_points_loop config (Py.range (steps + 1)) [].

End Generator.

(** *** [scale_points] *)

(** The [for x, y in points] loop, with the list [scaled] built so
    far. *)
Fixpoint scale_points_loop (half_canvas scale : float) (points : list Point)
    (scaled : list Point) : list Point :=
  match points with
  | [] => scaled
  | (x, y) :: rest =>
      scale_points_loop half_canvas scale rest
        (scaled ++ [(Float.add half_canvas (Float.mul x scale),
                     Float.add half_canvas (Float.mul y scale))])
  end.

Definition scale_points (points : list Point) (config : SpiroConfig)
  : result (list Point) :=
  match points with
  | [] => ret []
  | _ =>
      let '(min_extent, max_extent) := extent config in
      let span := Float.sub max_extent min_extent in
      let span :=
        if Py.isclose span Float.zero
        then Py.max_float (outer_radius config) Float.one
        else span in
      half_canvas <- Py.int_truediv (canvas_size config) 2 ;;
      half_span <- Py.float_truediv span Float.two ;;
      scale <- Py.float_truediv half_canvas
                 (Py.max_float half_span Float.one) ;;
      ret (scale_points_loop half_canvas scale points [])
  end.

(** *** [points_to_path] *)

(** [num / den] rounded to the nearest integer, ties to even
    ([0 <= num], [0 < den]). *)
Definition round_half_even (num den : Z) : Z :=
  let q := num / den in
  match 2 * (num mod den) ?= den with
  | Lt => q
  | Gt => q + 1
  | Eq => if Z.even q then q else q + 1
  end.

Definition digit (n : Z) : ascii := ascii_of_nat (48 + Z.to_nat n).

Definition decimal (n : Z) : string :=
  NilZero.string_of_uint (N.to_uint (Z.to_N n)).

(** The format specification [.3f]: the exact value of the float,
    correctly rounded to three decimals (ties to even), in fixed-point
    notation. *)
Definition format_3f (x : float) : string :=
  match x with
  | S754_nan => "nan"
  | S754_infinity s => if s then "-inf" else "inf"
  | S754_zero s => if s then "-0.000" else "0.000"
  | S754_finite s m e =>
      let n :=
        if 0 <=? e then Zpos m * 2 ^ e * 1000
        else round_half_even (Zpos m * 1000) (2 ^ (- e)) in
      ((if s then "-" else "")
       ++ decimal (n / 1000)
       ++ String "."
            (String (digit (n / 100 mod 10))
               (String (digit (n / 10 mod 10))
                  (String (digit (n mod 10)) EmptyString))))%string
  end.

Definition points_to_path (points : list Point) : result string :=
  match points with
  | [] =>
      raise (ValueError "Cannot build a path from an empty sequence of points")
  | first :: iterator =>
      let segments :=
        [("M " ++ format_3f (fst first) ++ " " ++ format_3f (snd first))%string]
      in
      let segments :=
        segments
        ++ map (fun p : Point =>
                  ("L " ++ format_3f (fst p) ++ " " ++ format_3f (snd p))%string)
               iterator in
      ret (String.concat " " segments)
  end.

(** *** [generate_path] *)

Section Pipeline.

Variables libm_cos libm_sin : float -> float.

Definition generate_path (config : SpiroConfig) : result string :=
  points <- generate_points libm_cos libm_sin config ;;
  scaled_points <- scale_points points config ;;
  points_to_path scaled_points.

End Pipeline.

(** ** [spirograph/cli.py]: the knobs and their validation

    The values the command line handles are floats, ints and strings.  A
    Python [str] is read as the [string] of the bytes of its UTF-8
    encoding, each code point in its encoded form: [len] counts the
    bytes that begin a code point, and the white space that [strip]
    removes is recognised by its encoding, whatever its length.

    The functions of the interpreter that are not modelled are
    parameters of the section: the shortest [repr] of a float, the
    [repr] of a string, the parsing of a string by [float()] and
    [int()], and the case mapping of [str.lower] on text that is not
    plain ASCII (on ASCII text [str.lower] is the map of [A]..[Z] to
    [a]..[z], as in the interpreter's own fast path). *)

Module Cli.

Inductive number : Type :=
| NFloat (x : float)
| NInt (n : Z).

Inductive object : Type :=
| Number (v : number)
| Str (s : string).

(** The classes a knob may have as its [value_type]. *)
Inductive class : Type :=
| float_class
| int_class
| str_class.

Record Knob : Type := {
  name : string;
  prompt : string;
  value_type : class;
  default : object;
  minimum : option number;
  maximum : option number;
  choices : option (list string)
}.

(** [SpiroType.<member>.value]. *)
Definition SpiroType_value (member : SpiroType) : string :=
  match member with
  | HYPOTROCHOID => "hypotrochoid"
  | EPITROCHOID => "epitrochoid"
  end.

Definition outer_radius_knob : Knob := {|
  name := "outer_radius";
  prompt := "Outer radius of the fixed circle";
  value_type := float_class;
  default := Number (NFloat (Float.of_Z 180));
  minimum := Some (NFloat (Float.of_Z 10));
  maximum := Some (NFloat (Float.of_Z 400));
  choices := None
|}.

Definition inner_radius_knob : Knob := {|
  name := "inner_radius";
  prompt := "Inner radius of the rolling circle";
  value_type := float_class;
  default := Number (NFloat (Float.of_Z 75));
  minimum := Some (NFloat (Float.of_Z 5));
  maximum := Some (NFloat (Float.of_Z 250));
  choices := None
|}.

Definition pen_offset_knob : Knob := {|
  name := "pen_offset";
  prompt := "Distance of the pen from the rolling circle center";
  value_type := float_class;
  default := Number (NFloat (Float.of_Z 40));
  minimum := Some (NFloat (Float.of_Z 1));
  maximum := Some (NFloat (Float.of_Z 250));
  choices := None
|}.

(** [0.02], [0.001] and [0.2] are the binary64 numbers nearest to the
    decimal literals. *)
Definition theta_step_knob : Knob := {|
  name := "theta_step";
  prompt := "Angle step between points (smaller = smoother)";
  value_type := float_class;
  default := Number (NFloat (Float.lit 5764607523034235 (-58)));
  minimum := Some (NFloat (Float.lit 4611686018427388 (-62)));
  maximum := Some (NFloat (Float.lit 7205759403792794 (-55)));
  choices := None
|}.

Definition cycles_knob : Knob := {|
  name := "cycles";
  prompt := "Number of rotations to complete";
  value_type := float_class;
  default := Number (NFloat (Float.of_Z 20));
  minimum := Some (NFloat (Float.of_Z 1));
  maximum := Some (NFloat (Float.of_Z 60));
  choices := None
|}.

Definition stroke_width_knob : Knob := {|
  name := "stroke_width";
  prompt := "Stroke width of the curve";
  value_type := float_class;
  default := Number (NFloat (Float.of_Z 2));
  minimum := Some (NFloat (Float.lit 7205759403792794 (-56)));
  maximum := Some (NFloat (Float.of_Z 10));
  choices := None
|}.

Definition canvas_size_knob : Knob := {|
  name := "canvas_size";
  prompt := "Canvas size in pixels";
  value_type := int_class;
  default := Number (NInt 900);
  minimum := Some (NInt 200);
  maximum := Some (NInt 3000);
  choices := None
|}.

Definition stroke_color_knob : Knob := {|
  name := "stroke_color";
  prompt := "Stroke color (hex)";
  value_type := str_class;
  default := Str "#1f77b4";
  minimum := None;
  maximum := None;
  choices := None
|}.

Definition spiro_type_knob : Knob := {|
  name := "spiro_type";
  prompt := "Spirograph type";
  value_type := str_class;
  default := Str (SpiroType_value HYPOTROCHOID);
  minimum := None;
  maximum := None;
  choices := Some (map SpiroType_value [HYPOTROCHOID; EPITROCHOID])
|}.

(** The dictionary [KNOBS], in the order of its insertions. *)
Definition KNOBS : list (string * Knob) := [
  ("outer_radius"%string, outer_radius_knob);
  ("inner_radius"%string, inner_radius_knob);
  ("pen_offset"%string, pen_offset_knob);
  ("theta_step"%string, theta_step_knob);
  ("cycles"%string, cycles_knob);
  ("stroke_width"%string, stroke_width_knob);
  ("canvas_size"%string, canvas_size_knob);
  ("stroke_color"%string, stroke_color_knob);
  ("spiro_type"%string, spiro_type_knob)
].

(** *** Comparisons of numbers

    An [int] and a [float] are compared by their exact values. *)
Definition compare_int_float (n : Z) (x : float) : option comparison :=
  match x with
  | S754_nan => None
  | S754_infinity s => Some (if s then Gt else Lt)
  | S754_zero _ => Some (n ?= 0)
  | S754_finite s m e =>
      Some (if 0 <=? e then n ?= cond_Zopp s (Zpos m) * 2 ^ e
            else n * 2 ^ (- e) ?= cond_Zopp s (Zpos m))
  end.

(** [a < b]. *)
Definition lt (a b : number) : bool :=
  match a, b with
  | NFloat x, NFloat y => Float.ltb x y
  | NInt m, NInt n => m <? n
  | NInt n, NFloat x =>
      match compare_int_float n x with Some Lt => true | _ => false end
  | NFloat x, NInt n =>
      match compare_int_float n x with Some Gt => true | _ => false end
  end.

(** [a > b]. *)
Definition gt (a b : number) : bool := lt b a.

(** *** String methods *)

(** A byte that is a code point by itself; [s.isascii()]. *)
Definition is_ascii_char (c : ascii) : bool := (N_of_ascii c <? 128)%N.

Fixpoint is_ascii (s : string) : bool :=
  match s with
  | EmptyString => true
  | String c rest => is_ascii_char c && is_ascii rest
  end.

(** A byte that begins the encoding of a code point: any byte but the
    continuation bytes [128]..[191]. *)
Definition begins_code_point (c : ascii) : bool :=
  let n := N_of_ascii c in
  ((n <? 128) || (192 <=? n))%N.

(** [len(s)]: the number of code points. *)
Fixpoint len (s : string) : nat :=
  match s with
  | EmptyString => O
  | String c rest => if begins_code_point c then S (len rest) else len rest
  end.

(** The white space of [str.strip], by the length of its encoding: in
    one byte U+0009..U+000D and U+001C..U+0020; in two bytes U+0085 and
    U+00A0; in three bytes U+1680, U+2000..U+200A, U+2028, U+2029,
    U+202F, U+205F and U+3000. *)
Definition isspace (c : ascii) : bool :=
  let n := N_of_ascii c in
  ((9 <=? n) && (n <=? 13) || (28 <=? n) && (n <=? 32))%N.

Definition isspace_2 (c1 c2 : ascii) : bool :=
  let n1 := N_of_ascii c1 in
  let n2 := N_of_ascii c2 in
  ((n1 =? 194) && ((n2 =? 133) || (n2 =? 160)))%N.

Definition isspace_3 (c1 c2 c3 : ascii) : bool :=
  let n1 := N_of_ascii c1 in
  let n2 := N_of_ascii c2 in
  let n3 := N_of_ascii c3 in
  ((n1 =? 225) && ((n2 =? 154) && (n3 =? 128))
   || (n1 =? 226)
      && ((n2 =? 128)
          && ((128 <=? n3) && (n3 <=? 138)
              || (n3 =? 168) || (n3 =? 169) || (n3 =? 175))
          || (n2 =? 129) && (n3 =? 159))
   || (n1 =? 227) && ((n2 =? 128) && (n3 =? 128)))%N.

(** [s.lstrip()]. *)
Fixpoint lstrip (s : string) : string :=
  match s with
  | EmptyString => EmptyString
  | String c1 rest1 =>
      if isspace c1 then lstrip rest1
      else
        match rest1 with
        | EmptyString => s
        | String c2 rest2 =>
            if isspace_2 c1 c2 then lstrip rest2
            else
              match rest2 with
              | EmptyString => s
              | String c3 rest3 =>
                  if isspace_3 c1 c2 c3 then lstrip rest3 else s
              end
        end
  end.

(** The text is one white-space code point. *)
Definition is_space (s : string) : bool :=
  match s with
  | String c1 EmptyString => isspace c1
  | String c1 (String c2 EmptyString) => isspace_2 c1 c2
  | String c1 (String c2 (String c3 EmptyString)) => isspace_3 c1 c2 c3
  | _ => false
  end.

(** [s.rstrip()]: from the right, what is kept of the rest of the text
    is empty as long as only white space was met. *)
Fixpoint rstrip (s : string) : string :=
  match s with
  | EmptyString => EmptyString
  | String c rest =>
      let kept := String c (rstrip rest) in
      if is_space kept then EmptyString else kept
  end.

(** [s.strip()]. *)
Definition strip (s : string) : string := rstrip (lstrip s).

(** [s.lower()] on ASCII text. *)
Definition lower_char (c : ascii) : ascii :=
  let n := N_of_ascii c in
  if ((65 <=? n) && (n <=? 90))%N then ascii_of_N (n + 32) else c.

Fixpoint ascii_lower (s : string) : string :=
  match s with
  | EmptyString => EmptyString
  | String c rest => String (lower_char c) (ascii_lower rest)
  end.

(** [s.startswith(prefix)]. *)
Definition startswith (s prefix : string) : bool := String.prefix prefix s.

(** [str(n)] for an [int]. *)
Definition str_int (n : Z) : string :=
  if n <? 0 then ("-" ++ decimal (- n))%string else decimal n.

(** The format specification [06x]: lower-case hexadecimal, padded with
    zeros, after the sign, to a width of six. *)
Definition hex_digit (d : Z) : ascii :=
  if d <? 10 then ascii_of_nat (48 + Z.to_nat d)
  else ascii_of_nat (87 + Z.to_nat d).

(** The digits of [n > 0] in front of [digits], at most [fuel] of
    them. *)
Fixpoint hex_loop (fuel : nat) (n : Z) (digits : string) : string :=
  match fuel with
  | O => digits
  | S fuel' =>
      let digits := String (hex_digit (n mod 16)) digits in
      if n / 16 =? 0 then digits else hex_loop fuel' (n / 16) digits
  end.

Definition hex (n : Z) : string :=
  hex_loop (S (Z.to_nat (Z.log2 n))) n EmptyString.

Fixpoint zeros (width : nat) : string :=
  match width with
  | O => EmptyString
  | S width' => String "0" (zeros width')
  end.

Definition format_06x (n : Z) : string :=
  if n <? 0
  then ("-" ++ zeros (5 - String.length (hex (- n))) ++ hex (- n))%string
  else (zeros (6 - String.length (hex n)) ++ hex n)%string.

(** [int(v)] for a number. *)
Definition int_number (v : number) : result Z :=
  match v with
  | NFloat x => Py.int_of_float x
  | NInt n => ret n
  end.

(** *** Dictionaries with string keys, in insertion order *)

Inductive error : Type :=
| Raised (e : exn)
| KeyError (key : string)
| AssertionError.

Definition dict : Type := list (string * object).

(** [d[key] = value]. *)
Fixpoint setitem (d : dict) (key : string) (value : object) : dict :=
  match d with
  | [] => [(key, value)]
  | (k, v) :: rest =>
      if String.eqb k key then (k, value) :: rest
      else (k, v) :: setitem rest key value
  end.

(** [d[key]]. *)
Fixpoint getitem (d : dict) (key : string) : error + object :=
  match d with
  | [] => inl (KeyError key)
  | (k, v) :: rest => if String.eqb k key then inr v else getitem rest key
  end.

Definition lift {A : Type} (c : result A) : error + A :=
  match c with
  | inl e => inl (Raised e)
  | inr a => inr a
  end.

Definition bind_error {A B : Type} (c : error + A) (k : A -> error + B)
  : error + B :=
  match c with
  | inl e => inl e
  | inr a => k a
  end.

Notation "x <~ c ;; k" := (bind_error c (fun x => k))
  (at level 61, c at next level, right associativity).

Section Interpreter.

(** [repr] of a float and of a string; [float(s)] and [int(s)] for a
    string [s]. *)
Variable float_repr : float -> string.
Variable str_repr : string -> string.
Variable float_of_str : string -> result float.
Variable int_of_str : string -> result Z.

(** [s.lower()] for a text [s] that is not plain ASCII. *)
Variable unicode_lower : string -> string.

(** [s.lower()]. *)
Definition lower (s : string) : string :=
  if is_ascii s then ascii_lower s else unicode_lower s.

(** [str(v)]. *)
Definition str_number (v : number) : string :=
  match v with
  | NFloat x => float_repr x
  | NInt n => str_int n
  end.

Definition str (value : object) : string :=
  match value with
  | Number v => str_number v
  | Str s => s
  end.

(** [float(value)]. *)
Definition float_ (value : object) : result float :=
  match value with
  | Number (NFloat x) => ret x
  | Number (NInt n) => Py.int_to_float n
  | Str s => float_of_str s
  end.

(** [int(value)]. *)
Definition int_ (value : object) : result Z :=
  match value with
  | Number v => int_number v
  | Str s => int_of_str s
  end.

(** [SpiroType(value)]: the member with that value. *)
Definition SpiroType_of_value (value : string) : result SpiroType :=
  if String.eqb value (SpiroType_value HYPOTROCHOID) then ret HYPOTROCHOID
  else if String.eqb value (SpiroType_value EPITROCHOID) then ret EPITROCHOID
  else raise (ValueError (str_repr value ++ " is not a valid SpiroType")).

Definition _validate_range (name : string) (value : number) (knob : Knob)
  : result number :=
  bind (match minimum knob with
        | Some least =>
            if lt value least
            then raise (ValueError (name ++ " must be >= "
                                    ++ str_number least))
            else ret tt
        | None => ret tt
        end) (fun _ : unit =>
  bind (match maximum knob with
        | Some most =>
            if gt value most
            then raise (ValueError (name ++ " must be <= "
                                    ++ str_number most))
            else ret tt
        | None => ret tt
        end) (fun _ : unit =>
  ret value)).

(** [value in choices], for a list of strings. *)
Definition contains (choices : list string) (value : object) : bool :=
  match value with
  | Str s => existsb (String.eqb s) choices
  | Number _ => false
  end.

Definition _normalize_value (name : string) (value : object) (knob : Knob)
  : result object :=
  match value_type knob with
  | float_class =>
      value <- float_ value ;;
      checked <- _validate_range name (NFloat value) knob ;;
      ret (Number checked)
  | int_class =>
      value <- int_ value ;;
      checked <- _validate_range name (NInt value) knob ;;
      ret (Number checked)
  | str_class =>
      match choices knob with
      | Some (choice :: others) =>
          if negb (contains (choice :: others) value)
          then raise (ValueError ("Invalid choice " ++ str value
                                  ++ " for " ++ name))
          else ret value
      | _ =>
          if String.eqb name "stroke_color"
          then
            let text := strip (str value) in
            if negb (startswith text "#")
               || negb ((len text =? 4)%nat || (len text =? 7)%nat)
            then raise (ValueError
                          "Stroke color must be a hex value like #ff00aa")
            else ret (Str (lower text))
          else ret value
      end
  end.

(** The loop [for name, knob in KNOBS.items()] of
    [_collect_knob_values], with the dictionary [values] built so far.
    [raw_value knob] is the value the branch taken obtains for the
    knob: the draw of [_random_value] in random mode, else the command
    line's value or the answer to the prompt. *)
Fixpoint collect_loop (raw_value : Knob -> object)
    (items : list (string * Knob)) (values : dict) : result dict :=
  match items with
  | [] => ret values
  | (name, knob) :: rest =>
      value <- _normalize_value name (raw_value knob) knob ;;
      collect_loop raw_value rest (setitem values name value)
  end.

Definition _collect_knob_values (raw_value : Knob -> object) : result dict :=
  collect_loop raw_value KNOBS [].

Definition _build_config (values : dict) : error + SpiroConfig :=
  v <~ getitem values "outer_radius" ;; outer_radius <~ lift (float_ v) ;;
  v <~ getitem values "inner_radius" ;; inner_radius <~ lift (float_ v) ;;
  v <~ getitem values "pen_offset" ;; pen_offset <~ lift (float_ v) ;;
  v <~ getitem values "theta_step" ;; theta_step <~ lift (float_ v) ;;
  v <~ getitem values "cycles" ;; cycles <~ lift (float_ v) ;;
  v <~ getitem values "stroke_width" ;; stroke_width <~ lift (float_ v) ;;
  v <~ getitem values "stroke_color" ;;
  let stroke_color := str v in
  v <~ getitem values "canvas_size" ;; canvas_size <~ lift (int_ v) ;;
  v <~ getitem values "spiro_type" ;;
  spiro_type <~ lift (SpiroType_of_value (str v)) ;;
  inr {|
    outer_radius := outer_radius;
    inner_radius := inner_radius;
    pen_offset := pen_offset;
    theta_step := theta_step;
    cycles := cycles;
    stroke_width := stroke_width;
    stroke_color := stroke_color;
    canvas_size := canvas_size;
    spiro_type := spiro_type
  |}.

End Interpreter.

Section Random.

(** The methods of [random.Random] that [_random_value] calls, in the
    state the generator is in at the call, and the built-in [round] at
    four digits. *)
Variable uniform : number -> number -> result float.
Variable randint : Z -> Z -> result Z.
Variable choice : list string -> string.
Variable round_4 : float -> float.

Definition _random_value (knob : Knob) : error + object :=
  match value_type knob with
  | float_class =>
      match minimum knob, maximum knob with
      | Some least, Some most =>
          x <~ lift (uniform least most) ;;
          inr (Number (NFloat (round_4 x)))
      | _, _ => inl AssertionError
      end
  | int_class =>
      match minimum knob, maximum knob with
      | Some least, Some most =>
          a <~ lift (int_number least) ;;
          b <~ lift (int_number most) ;;
          n <~ lift (randint a b) ;;
          inr (Number (NInt n))
      | _, _ => inl AssertionError
      end
  | str_class =>
      match choices knob with
      | Some (choice1 :: others) => inr (Str (choice (choice1 :: others)))
      | _ =>
          if String.eqb (name knob) "stroke_color"
          then
            n <~ lift (randint 0 16777215) ;;
            inr (Str ("#" ++ format_06x n))
          else inr (default knob)
      end
  end.

End Random.

End Cli.

(** * Specification vocabulary *)

(** ** Magnitude of a float

    The exponent range and the exponent function of binary64, and bounds
    on the magnitude of a float by powers of two, stated on the mantissa
    and the exponent. *)

Definition emin : Z := -1074.

Definition fexp (e : Z) : Z := Z.max (e - 53) emin.

(** [le2 c x]: [x] is finite and [|x| <= 2 ^ c]. *)
Definition le2 (c : Z) (x : float) : Prop :=
  match x with
  | S754_zero _ => True
  | S754_finite _ m e => e <= c /\ Zpos m <= 2 ^ (c - e)
  | _ => False
  end.

(** [ge2 c x]: [x] is finite and [2 ^ c <= |x|] (a power of two with a
    negative exponent is [0] in [Z]). *)
Definition ge2 (c : Z) (x : float) : Prop :=
  match x with
  | S754_finite _ m e => 2 ^ (c - e) <= Zpos m
  | _ => False
  end.

(** [2 ^ k] as a binary64 number ([-1022 <= k <= 1023]). *)
Definition pow2f (k : Z) : float := Float.lit 4503599627370496 (k - 52).

(** No bit was lost in a right shift. *)
Definition exact (mrs : shr_record) : Prop :=
  shr_r mrs = false /\ shr_s mrs = false.

Definition inexact (l : location) : Z :=
  match l with loc_Exact => 0 | _ => 1 end.

(** ** Valid configurations

    A field is in range when it is a well-formed binary64 number between
    [2 ^ -200] and [2 ^ 200]: a positive real, far from the overflow and
    underflow thresholds.  A configuration is valid when its five
    geometric fields are in range and its canvas size is a positive
    integer up to [2 ^ 200].  The ranges that [cli.py] enforces on the
    knobs lie well inside. *)

Definition between (lo hi x : float) : bool :=
  Float.valid x && Float.leb lo x && Float.leb x hi.

Definition in_range (x : float) : bool :=
  between (pow2f (-200)) (pow2f 200) x.

Definition valid_config (config : SpiroConfig) : bool :=
  in_range (outer_radius config)
  && in_range (inner_radius config)
  && in_range (pen_offset config)
  && in_range (theta_step config)
  && in_range (cycles config)
  && (1 <=? canvas_size config)
  && (canvas_size config <=? 2 ^ 200).

(** The ranges of the knobs in [cli.py] ([KNOBS]): the configurations
    the command line lets through, NaN aside (a NaN passes the two
    comparisons of [_validate_range]). *)
Definition knob_ranges (config : SpiroConfig) : bool :=
  between (Float.of_Z 10) (Float.of_Z 400) (outer_radius config)
  && between (Float.of_Z 5) (Float.of_Z 250) (inner_radius config)
  && between (Float.of_Z 1) (Float.of_Z 250) (pen_offset config)
  && between (Float.lit 4611686018427388 (-62))
             (Float.lit 7205759403792794 (-55)) (theta_step config)
  && between (Float.of_Z 1) (Float.of_Z 60) (cycles config)
  && (200 <=? canvas_size config)
  && (canvas_size config <=? 3000).

(** The largest integer not above the value of a finite float. *)
Definition floor (x : float) : option Z :=
  match x with
  | S754_zero _ => Some 0
  | S754_finite s m e =>
      Some (if 0 <=? e then cond_Zopp s (Zpos m) * 2 ^ e
            else cond_Zopp s (Zpos m) / 2 ^ (- e))
  | _ => None
  end.

(** ** The parametric equations, as the specification words them *)

Section Spec.

Variables cos sin : float -> float.

Definition spec_hypotrochoid (config : SpiroConfig) (theta : float) : Point :=
  let k := Float.sub (outer_radius config) (inner_radius config) in
  let ratio := Float.div k (inner_radius config) in
  (Float.add (Float.mul k (cos theta))
             (Float.mul (pen_offset config) (cos (Float.mul ratio theta))),
   Float.sub (Float.mul k (sin theta))
             (Float.mul (pen_offset config) (sin (Float.mul ratio theta)))).

Definition spec_epitrochoid (config : SpiroConfig) (theta : float) : Point :=
  let k := Float.add (outer_radius config) (inner_radius config) in
  let ratio := Float.div k (inner_radius config) in
  (Float.sub (Float.mul k (cos theta))
             (Float.mul (pen_offset config) (cos (Float.mul ratio theta))),
   Float.sub (Float.mul k (sin theta))
             (Float.mul (pen_offset config) (sin (Float.mul ratio theta)))).

(** The angle and the point of sample [i]. *)
Definition sample_angle (config : SpiroConfig) (i : Z) : float :=
  Float.mul (Float.of_Z i) (theta_step config).

Definition sample_point (config : SpiroConfig) (i : Z) : Point :=
  match spiro_type config with
  | HYPOTROCHOID => spec_hypotrochoid config (sample_angle config i)
  | EPITROCHOID => spec_epitrochoid config (sample_angle config i)
  end.
End Spec.

(** ** The scale transform, as the specification words it *)

(** [span], after the degenerate-span guard. *)
Definition spec_span (config : SpiroConfig) : float :=
  let span := Float.sub (snd (extent config)) (fst (extent config)) in
  if Py.isclose span Float.zero
  then Py.max_float (outer_radius config) Float.one
  else span.

(** [scale = half_canvas / max(span / 2, 1.0)]. *)
Definition spec_scale (config : SpiroConfig) (half_canvas : float) : float :=
  Float.div half_canvas
    (Py.max_float (Float.div (spec_span config) Float.two) Float.one).

(** [x' = half_canvas + x * scale], [y' = half_canvas + y * scale]. *)
Definition transform (half_canvas scale : float) (p : Point) : Point :=
  (Float.add half_canvas (Float.mul (fst p) scale),
   Float.add half_canvas (Float.mul (snd p) scale)).

(** The arithmetic mean of the two extent values. *)
Definition mean_extent (config : SpiroConfig) : float :=
  Float.div (Float.add (fst (extent config)) (snd (extent config))) Float.two.

(** Both coordinates are well-formed floats of magnitude at most
    [2 ^ c]. *)
Definition point_le2 (c : Z) (p : Point) : Prop :=
  (Float.valid (fst p) = true /\ le2 c (fst p))
  /\ (Float.valid (snd p) = true /\ le2 c (snd p)).

(** ** The path commands, as the specification words them *)

Definition move_to (p : Point) : string :=
  ("M " ++ format_3f (fst p) ++ " " ++ format_3f (snd p))%string.

Definition line_to (p : Point) : string :=
  ("L " ++ format_3f (fst p) ++ " " ++ format_3f (snd p))%string.

Definition is_digit (c : ascii) : bool :=
  ((48 <=? nat_of_ascii c) && (nat_of_ascii c <=? 57))%nat.

Fixpoint all_digits (s : string) : bool :=
  match s with
  | EmptyString => true
  | String c s' => is_digit c && all_digits s'
  end.

(** An optional minus sign, at least one digit, a point, and exactly
    three digits. *)
Definition three_decimals (s : string) : Prop :=
  exists sign int_part frac_part,
    s = (sign ++ int_part ++ "." ++ frac_part)%string
    /\ (sign = EmptyString \/ sign = "-"%string)
    /\ int_part <> EmptyString /\ all_digits int_part = true
    /\ String.length frac_part = 3%nat /\ all_digits frac_part = true.

(** ** Reading a numeral back

    The inverse of the formatting, written on its own: the text of a
    fixed-point numeral is split at its sign and at its point, and its
    digits are read by the standard library's reader of decimal
    numerals. *)

(** The text before the first point and the text after it. *)
Fixpoint split_at_point (s : string) : option (string * string) :=
  match s with
  | EmptyString => None
  | String c rest =>
      if Ascii.eqb c "." then Some (EmptyString, rest)
      else match split_at_point rest with
           | Some (before, after) => Some (String c before, after)
           | None => None
           end
  end.

(** The number that a non-empty string of decimal digits writes. *)
Definition read_digits (s : string) : option Z :=
  match NilZero.uint_of_string s with
  | Some d => Some (Z.of_N (N.of_uint d))
  | None => None
  end.

(** A numeral with three decimals, read as its sign ([true] for a
    minus sign) and its magnitude in thousandths. *)
Definition read_thousandths (s : string) : option (bool * Z) :=
  let '(negative, body) :=
    match s with
    | String c rest => if Ascii.eqb c "-" then (true, rest) else (false, s)
    | EmptyString => (false, s)
    end in
  match split_at_point body with
  | Some (int_part, frac_part) =>
      if (String.length frac_part =? 3)%nat
      then match read_digits int_part, read_digits frac_part with
           | Some i, Some f => Some (negative, i * 1000 + f)
           | _, _ => None
           end
      else None
  | None => None
  end.

(** [n] thousandths is the magnitude [m * 2 ^ e] rounded to three
    decimals: no multiple of a thousandth is nearer to it, and when it
    lies half-way between two of them [n] is the even one.  With
    [num / den] the exact value of [m * 2 ^ e * 1000]. *)
Definition rounds_to_thousandths (m : positive) (e : Z) (n : Z) : Prop :=
  let num := Zpos m * 1000 * 2 ^ Z.max 0 e in
  let den := 2 ^ Z.max 0 (- e) in
  0 <= n
  /\ 2 * Z.abs (num - den * n) <= den
  /\ (2 * Z.abs (num - den * n) = den -> Z.even n = true).

(** Two configurations that differ at most in their cosmetic fields. *)
Definition same_geometry (c1 c2 : SpiroConfig) : Prop :=
  outer_radius c1 = outer_radius c2
  /\ inner_radius c1 = inner_radius c2
  /\ pen_offset c1 = pen_offset c2
  /\ theta_step c1 = theta_step c2
  /\ cycles c1 = cycles c2
  /\ canvas_size c1 = canvas_size c2
  /\ spiro_type c1 = spiro_type c2.

(** ** Sample data *)

(** The defaults of the knobs in [cli.py]. *)
Definition default_config : SpiroConfig := {|
  outer_radius := Float.of_Z 180;
  inner_radius := Float.of_Z 75;
  pen_offset := Float.of_Z 40;
  theta_step := Float.lit 5764607523034235 (-58);
  cycles := Float.of_Z 20;
  stroke_width := Float.of_Z 2;
  stroke_color := "#1f77b4";
  canvas_size := 900;
  spiro_type := HYPOTROCHOID
|}.

(** The default configuration drawn with another stroke. *)
Definition restyled_config : SpiroConfig := {|
  outer_radius := outer_radius default_config;
  inner_radius := inner_radius default_config;
  pen_offset := pen_offset default_config;
  theta_step := theta_step default_config;
  cycles := cycles default_config;
  stroke_width := Float.of_Z 5;
  stroke_color := "#ff00aa";
  canvas_size := canvas_size default_config;
  spiro_type := spiro_type default_config
|}.

(** One cycle sampled every [pi]. *)
Definition half_turn_config : SpiroConfig := {|
  outer_radius := outer_radius default_config;
  inner_radius := inner_radius default_config;
  pen_offset := pen_offset default_config;
  theta_step := Py.pi;
  cycles := Float.one;
  stroke_width := stroke_width default_config;
  stroke_color := stroke_color default_config;
  canvas_size := canvas_size default_config;
  spiro_type := spiro_type default_config
|}.

(** Stand-ins for the C library's functions, to instantiate the
    generator where a statement is evaluated: the constant functions
    [1.0] and [0.0], which agree with [cos] and [sin] at [0.0]. *)
Definition const_cos (x : float) : float := Float.one.
Definition const_sin (x : float) : float := Float.zero.

(** A hypotrochoid whose outer radius absorbs the two other lengths in
    both extent values, so that the span is computed as [0.0]. *)
Definition degenerate_config : SpiroConfig := {|
  outer_radius := pow2f 60;
  inner_radius := Float.one;
  pen_offset := Float.one;
  theta_step := Float.lit 5764607523034235 (-58);
  cycles := Float.of_Z 20;
  stroke_width := Float.of_Z 2;
  stroke_color := "#1f77b4";
  canvas_size := 900;
  spiro_type := HYPOTROCHOID
|}.



(** * Vocabulary for the further properties *)

(** The exceptions the sampler can raise: those of the float division,
    of the conversions between [int] and [float], and of [math.cos] and
    [math.sin]. *)
Definition sampler_error (e : exn) : Prop :=
  e = ZeroDivisionError
  \/ e = OverflowError
  \/ e = ValueError "math domain error"
  \/ e = ValueError "cannot convert float NaN to integer".

(** The default configuration with one field replaced. *)
Definition with_canvas_size (n : Z) : SpiroConfig := {|
  outer_radius := outer_radius default_config;
  inner_radius := inner_radius default_config;
  pen_offset := pen_offset default_config;
  theta_step := theta_step default_config;
  cycles := cycles default_config;
  stroke_width := stroke_width default_config;
  stroke_color := stroke_color default_config;
  canvas_size := n;
  spiro_type := spiro_type default_config
|}.

Definition with_theta_step (x : float) : SpiroConfig := {|
  outer_radius := outer_radius default_config;
  inner_radius := inner_radius default_config;
  pen_offset := pen_offset default_config;
  theta_step := x;
  cycles := cycles default_config;
  stroke_width := stroke_width default_config;
  stroke_color := stroke_color default_config;
  canvas_size := canvas_size default_config;
  spiro_type := spiro_type default_config
|}.

Definition with_inner_radius (x : float) : SpiroConfig := {|
  outer_radius := outer_radius default_config;
  inner_radius := x;
  pen_offset := pen_offset default_config;
  theta_step := theta_step default_config;
  cycles := cycles default_config;
  stroke_width := stroke_width default_config;
  stroke_color := stroke_color default_config;
  canvas_size := canvas_size default_config;
  spiro_type := spiro_type default_config
|}.

Definition with_spiro_type (t : SpiroType) : SpiroConfig := {|
  outer_radius := outer_radius default_config;
  inner_radius := inner_radius default_config;
  pen_offset := pen_offset default_config;
  theta_step := theta_step default_config;
  cycles := cycles default_config;
  stroke_width := stroke_width default_config;
  stroke_color := stroke_color default_config;
  canvas_size := canvas_size default_config;
  spiro_type := t
|}.

(** A configuration with its angle step replaced. *)
Definition with_step (config : SpiroConfig) (x : float) : SpiroConfig := {|
  outer_radius := outer_radius config;
  inner_radius := inner_radius config;
  pen_offset := pen_offset config;
  theta_step := x;
  cycles := cycles config;
  stroke_width := stroke_width config;
  stroke_color := stroke_color config;
  canvas_size := canvas_size config;
  spiro_type := spiro_type config
|}.

(** ** The command line *)

(** What [_validate_range] lets through for a float: a NaN, or a value
    between the two bounds. *)
Definition nan_or_between (lo hi x : float) : bool :=
  Float.is_nan x || (Float.leb lo x && Float.leb x hi).

(** The configurations whose numeric fields pass the range checks of
    [KNOBS]. *)
Definition cli_ranges (config : SpiroConfig) : bool :=
  nan_or_between (Float.of_Z 10) (Float.of_Z 400) (outer_radius config)
  && nan_or_between (Float.of_Z 5) (Float.of_Z 250) (inner_radius config)
  && nan_or_between (Float.of_Z 1) (Float.of_Z 250) (pen_offset config)
  && nan_or_between (Float.lit 4611686018427388 (-62))
                    (Float.lit 7205759403792794 (-55)) (theta_step config)
  && nan_or_between (Float.of_Z 1) (Float.of_Z 60) (cycles config)
  && nan_or_between (Float.lit 7205759403792794 (-56)) (Float.of_Z 10)
                    (stroke_width config)
  && (200 <=? canvas_size config)
  && (canvas_size config <=? 3000).

(** A well-formed binary64 number other than NaN. *)
Definition is_number (x : float) : bool :=
  Float.valid x && negb (Float.is_nan x).

(** The five geometric fields are numbers. *)
Definition geometry_is_number (config : SpiroConfig) : bool :=
  is_number (outer_radius config)
  && is_number (inner_radius config)
  && is_number (pen_offset config)
  && is_number (theta_step config)
  && is_number (cycles config).

(** [lstrip], [rstrip] and [strip] as they act on ASCII text, where
    all white space is one byte long. *)
Fixpoint ascii_lstrip (s : string) : string :=
  match s with
  | EmptyString => EmptyString
  | String c rest => if Cli.isspace c then ascii_lstrip rest else s
  end.

Fixpoint ascii_rstrip (s : string) : string :=
  match s with
  | EmptyString => EmptyString
  | String c rest =>
      match ascii_rstrip rest with
      | EmptyString =>
          if Cli.isspace c then EmptyString else String c EmptyString
      | kept => String c kept
      end
  end.

Definition ascii_strip (s : string) : string := ascii_rstrip (ascii_lstrip s).

(** A stroke colour in normal form, for a given [lower]: a [#] and
    three or six more code points, that [lower] and [strip] leave as it
    is. *)
Definition normal_color (lower : string -> string) (text : string) : Prop :=
  Cli.startswith text "#" = true
  /\ (Cli.len text = 4%nat \/ Cli.len text = 7%nat)
  /\ lower text = text
  /\ Cli.strip text = text.

(** What is left of a string stripped on the left does not begin with
    a space. *)
Definition no_leading_space (s : string) : Prop :=
  match s with
  | EmptyString => True
  | String c _ => Cli.isspace c = false
  end.

(** Stand-ins for the interpreter's functions that the command line's
    model takes as parameters, to instantiate it where a statement is
    evaluated: a [repr] that prints nothing, and parsers that refuse
    every string. *)
Definition no_repr {A : Type} (x : A) : string := EmptyString.

Definition no_float (s : string) : result float :=
  raise (ValueError "could not convert string to float").

Definition no_int (s : string) : result Z :=
  raise (ValueError "invalid literal for int() with base 10").

(** A stand-in for the case mapping of text that is not ASCII: the
    text unchanged. *)
Definition same_text (s : string) : string := s.

(** Every knob at its default but [theta_step], which is NaN. *)
Definition nan_step (knob : Cli.Knob) : Cli.object :=
  if String.eqb (Cli.name knob) "theta_step"
  then Cli.Number (Cli.NFloat S754_nan)
  else Cli.default knob.

(** A lower-case hexadecimal digit; a string of such digits. *)
Definition is_hex (c : ascii) : bool :=
  let n := N_of_ascii c in
  ((48 <=? n) && (n <=? 57) || (97 <=? n) && (n <=? 102))%N.

Fixpoint all_hex (s : string) : bool :=
  match s with
  | EmptyString => true
  | String c rest => is_hex c && all_hex rest
  end.

(** Stand-ins for the methods of the random generator and for [round],
    to instantiate [_random_value] where a statement is evaluated: the
    draws that return the lower bound, or the first choice, and a
    [round] that changes nothing. *)
Definition lowest_int (a b : Z) : result Z := ret a.

Definition lowest_float (least most : Cli.number) : result float :=
  match least with
  | Cli.NFloat x => ret x
  | Cli.NInt n => Py.int_to_float n
  end.

Definition first_choice (choices : list string) : string :=
  hd EmptyString choices.

Definition unrounded (x : float) : float := x.

(** * Facts about binary64 arithmetic *)

Lemma fexp_eq e : SpecFloat.fexp Float.prec Float.emax e = fexp e.
Proof. reflexivity. Qed.

Lemma fexp_mono a b : a <= b -> fexp a <= fexp b.
Proof. unfold fexp. lia. Qed.

(** ** Number of binary digits *)

Lemma digits2_size p : digits2_pos p = Pos.size p.
Proof. induction p; simpl; congruence. Qed.

Lemma Zdigits2_log2 m : 0 < m -> Zdigits2 m = Z.log2 m + 1.
Proof.
  destruct m as [|p|p]; try lia. intros _. simpl.
  rewrite digits2_size. destruct p; simpl; lia.
Qed.

Lemma Zdigits2_bounds m :
  0 < m -> 0 < Zdigits2 m /\ 2 ^ (Zdigits2 m - 1) <= m < 2 ^ Zdigits2 m.
Proof.
  intros Hm. rewrite (Zdigits2_log2 m Hm).
  pose proof (Z.log2_nonneg m). pose proof (Z.log2_spec m Hm).
  replace (Z.log2 m + 1 - 1) with (Z.log2 m) by lia.
  replace (Z.log2 m + 1) with (Z.succ (Z.log2 m)) by lia. lia.
Qed.

Lemma Zdigits2_nonneg m : 0 <= m -> 0 <= Zdigits2 m.
Proof.
  intros Hm. destruct (Z.eq_dec m 0) as [->|]; [simpl; lia|].
  pose proof (Zdigits2_bounds m). lia.
Qed.

Lemma Zdigits2_le_pow m k : 0 < m -> 0 <= k -> m <= 2 ^ k -> Zdigits2 m <= k + 1.
Proof.
  intros Hm Hk Hle. rewrite (Zdigits2_log2 m Hm).
  pose proof (Z.log2_le_mono m (2 ^ k) Hle). rewrite Z.log2_pow2 in * by lia. lia.
Qed.

Lemma Zdigits2_lt_pow m k : 0 < m -> 0 <= k -> m < 2 ^ k -> Zdigits2 m <= k.
Proof.
  intros Hm Hk Hlt. rewrite (Zdigits2_log2 m Hm).
  pose proof (Z.log2_lt_pow2 m k Hm). lia.
Qed.

Lemma Zdigits2_ge_pow m k : 0 <= k -> 2 ^ k <= m -> k + 1 <= Zdigits2 m.
Proof.
  intros Hk Hle. assert (0 < m) by (pose proof (Z.pow_pos_nonneg 2 k); lia).
  rewrite (Zdigits2_log2 m) by lia.
  pose proof (Z.log2_le_pow2 m k). lia.
Qed.

Lemma Zdigits2_shiftr m n :
  0 < m -> 0 <= n -> 0 < m / 2 ^ n -> Zdigits2 (m / 2 ^ n) = Zdigits2 m - n.
Proof.
  intros Hm Hn Hq. rewrite !Zdigits2_log2 by lia.
  rewrite <- Z.shiftr_div_pow2 by lia. rewrite Z.log2_shiftr by lia.
  assert (n <= Z.log2 m); [|lia].
  destruct (Z.le_gt_cases n (Z.log2 m)); trivial.
  exfalso. assert (m < 2 ^ n).
  { apply Z.log2_lt_pow2; lia. }
  rewrite Z.div_small in Hq; lia.
Qed.

Lemma Zdigits2_mono a b : 0 <= a <= b -> Zdigits2 a <= Zdigits2 b.
Proof.
  intros [Ha Hab]. destruct (Z.eq_dec a 0) as [->|].
  - simpl. apply Zdigits2_nonneg. lia.
  - rewrite !Zdigits2_log2 by lia. pose proof (Z.log2_le_mono a b Hab). lia.
Qed.

(** ** Shifting a mantissa to the right *)

(** The iterator of [SpecFloat] is the one of [positive]. *)
Lemma iter_pos_iter {A : Type} (f : A -> A) p x :
  iter_pos f p x = Pos.iter f x p.
Proof.
  revert x. induction p as [p IH|p IH|]; intros x; simpl; trivial.
  - rewrite !IH, !Pos.iter_swap. reflexivity.
  - rewrite !IH. reflexivity.
Qed.

Lemma shr_1_m mrs : 0 <= shr_m mrs -> shr_m (shr_1 mrs) = shr_m mrs / 2.
Proof.
  destruct mrs as [m r s]. cbn [shr_m]. intros Hm.
  destruct m as [|[p|p|]|p]; try lia; unfold shr_1; cbn [shr_m]; try reflexivity.
  - apply (Z.div_unique_pos _ 2 _ 1); lia.
  - apply (Z.div_unique_pos _ 2 _ 0); lia.
Qed.

Lemma shr_1_exact mrs :
  0 <= shr_m mrs -> exact mrs -> shr_m mrs mod 2 = 0 -> exact (shr_1 mrs).
Proof.
  destruct mrs as [m r s]. unfold exact. cbn [shr_m shr_r shr_s].
  intros Hm [-> ->] Hev.
  destruct m as [|[p|p|]|p]; try lia; unfold shr_1; cbn [shr_r shr_s orb]; auto.
  - exfalso. assert (Z.pos p~1 mod 2 = 1); [|lia].
    symmetry. apply (Z.mod_unique_pos _ 2 (Z.pos p) 1); lia.
  - exfalso. revert Hev. cbv. discriminate.
Qed.

Lemma iter_shr_1_m p mrs :
  0 <= shr_m mrs ->
  shr_m (iter_pos shr_1 p mrs) = shr_m mrs / 2 ^ Zpos p.
Proof.
  intros Hm. rewrite iter_pos_iter.
  induction p as [|p IH] using Pos.peano_ind.
  - simpl. apply shr_1_m, Hm.
  - rewrite Pos.iter_succ, shr_1_m.
    + rewrite IH, Pos2Z.inj_succ, Z.pow_succ_r by lia.
      rewrite Z.div_div by lia. f_equal. lia.
    + rewrite IH. apply Z.div_pos; lia.
Qed.

Lemma iter_shr_1_exact p mrs :
  0 <= shr_m mrs -> exact mrs -> shr_m mrs mod 2 ^ Zpos p = 0 ->
  exact (iter_pos shr_1 p mrs).
Proof.
  intros Hm Hex. rewrite iter_pos_iter.
  induction p as [|p IH] using Pos.peano_ind; intros Hmod.
  - simpl. apply shr_1_exact; trivial.
  - rewrite Pos.iter_succ.
    rewrite Pos2Z.inj_succ, Z.pow_succ_r in Hmod by lia.
    assert (H2 : 0 < 2 ^ Zpos p) by (apply Z.pow_pos_nonneg; lia).
    rewrite Z.mul_comm, Z.rem_mul_r in Hmod by lia.
    pose proof (Z.mod_pos_bound (shr_m mrs) (2 ^ Zpos p) H2).
    pose proof (Z.mod_pos_bound (shr_m mrs / 2 ^ Zpos p) 2).
    assert (shr_m mrs mod 2 ^ Zpos p = 0) by nia.
    assert ((shr_m mrs / 2 ^ Zpos p) mod 2 = 0) by nia.
    apply shr_1_exact.
    + rewrite <- iter_pos_iter, iter_shr_1_m by trivial. apply Z.div_pos; lia.
    + auto.
    + rewrite <- iter_pos_iter, iter_shr_1_m by trivial. trivial.
Qed.

Lemma loc_of_exact mrs : exact mrs -> loc_of_shr_record mrs = loc_Exact.
Proof. destruct mrs as [m r s]. intros [Hr Hs]. simpl in *. subst. reflexivity. Qed.

Lemma shr_record_of_loc_m m l : shr_m (shr_record_of_loc m l) = m.
Proof. destruct l as [|[]]; reflexivity. Qed.

(** [shr_fexp] brings the exponent to [fexp] of the magnitude and drops
    the low bits of the mantissa. *)
Lemma shr_fexp_spec m e l :
  0 <= m -> e <= fexp (Zdigits2 m + e) ->
  exists mrs,
    shr_fexp Float.prec Float.emax m e l = (mrs, fexp (Zdigits2 m + e))
    /\ shr_m mrs = m / 2 ^ (fexp (Zdigits2 m + e) - e)
    /\ (l = loc_Exact -> m mod 2 ^ (fexp (Zdigits2 m + e) - e) = 0 ->
        loc_of_shr_record mrs = loc_Exact).
Proof.
  intros Hm He. unfold shr_fexp, shr. rewrite fexp_eq.
  remember (fexp (Zdigits2 m + e) - e) as n eqn:Hn.
  destruct n as [|p|p]; try lia.
  - exists (shr_record_of_loc m l). split; [f_equal; lia|]. split.
    + rewrite shr_record_of_loc_m, Z.pow_0_r, Z.div_1_r. reflexivity.
    + intros -> _. reflexivity.
  - exists (iter_pos shr_1 p (shr_record_of_loc m l)). split; [f_equal; lia|].
    split.
    + rewrite iter_shr_1_m; rewrite shr_record_of_loc_m; trivial.
    + intros -> Hmod. apply loc_of_exact, iter_shr_1_exact; simpl; trivial.
      split; reflexivity.
Qed.

Lemma round_nearest_even_cases m l :
  round_nearest_even m l = m
  \/ (round_nearest_even m l = m + 1 /\ l <> loc_Exact).
Proof.
  destruct l as [|[]]; simpl; auto.
  - destruct (Z.even m); auto. right. split; [reflexivity|discriminate].
  - right. split; [reflexivity|discriminate].
Qed.

(** ** Powers of two *)

Lemma pow2_pos k : 0 <= k -> 0 < 2 ^ k.
Proof. intros. apply Z.pow_pos_nonneg; lia. Qed.

Lemma pow2_split n k : 0 <= n <= k -> 2 ^ k = 2 ^ n * 2 ^ (k - n).
Proof. intros. rewrite <- Z.pow_add_r by lia. f_equal. lia. Qed.

Lemma pow2_le_mono a b : 0 <= a <= b -> 2 ^ a <= 2 ^ b.
Proof. intros. apply Z.pow_le_mono_r; lia. Qed.

Lemma div_pow2_le a n k :
  0 <= n <= k -> a <= 2 ^ k -> a / 2 ^ n <= 2 ^ (k - n).
Proof.
  intros Hn Ha. apply Z.div_le_upper_bound; [apply pow2_pos; lia|].
  rewrite <- pow2_split; trivial.
Qed.

Lemma div_pow2_lt a n k :
  0 <= n <= k -> a < 2 ^ k -> a / 2 ^ n < 2 ^ (k - n).
Proof.
  intros Hn Ha. apply Z.div_lt_upper_bound; [apply pow2_pos; lia|].
  rewrite <- pow2_split; trivial.
Qed.

Lemma pow2_nonneg_exp m k : 0 < m -> m <= 2 ^ k -> 0 <= k.
Proof.
  intros Hm Hle. destruct (Z.le_gt_cases 0 k); trivial.
  rewrite Z.pow_neg_r in Hle; lia.
Qed.

(** ** Magnitude bounds *)

Lemma le2_mono c c' x : c <= c' -> le2 c x -> le2 c' x.
Proof.
  intros Hc. destruct x as [| | |s m e]; simpl; trivial.
  intros [He Hm]. split; [lia|].
  etransitivity; [exact Hm|]. apply pow2_le_mono. lia.
Qed.

Lemma le2_finite c x : le2 c x -> Float.is_finite x = true.
Proof. destruct x; simpl; tauto. Qed.

(** ** Rounding *)

(** Rounding [m * 2 ^ e], an exact value lying at [l] above it, to
    binary64, when [m] has at least the digits of the format: the result
    is well formed, is not a NaN, and does not exceed a power of two
    that bounds the exact value. *)
Lemma binary_round_aux_spec s m e l :
  0 <= m -> e <= fexp (Zdigits2 m + e) ->
  let r := binary_round_aux Float.prec Float.emax s m e l in
  Float.valid r = true
  /\ Float.is_nan r = false
  /\ forall c, emin <= c <= 1023 -> m + inexact l <= 2 ^ (c - e) -> le2 c r.
Proof.
  intros Hm He. cbv zeta. unfold binary_round_aux.
  destruct (shr_fexp_spec m e l Hm He) as (mrs1 & E1 & M1 & X1).
  rewrite E1.
  set (d := Zdigits2 m) in *. set (e1 := fexp (d + e)) in *.
  set (m1 := shr_m mrs1) in *.
  set (m2 := round_nearest_even m1 (loc_of_shr_record mrs1)).
  assert (Hn1 : 0 <= e1 - e) by lia.
  assert (Hm1 : 0 <= m1).
  { rewrite M1. apply Z.div_pos; [lia|apply pow2_pos; lia]. }
  assert (Hm2 : m1 <= m2 <= m1 + 1).
  { unfold m2. destruct (round_nearest_even_cases m1 (loc_of_shr_record mrs1))
      as [->|[-> _]]; lia. }
  assert (Hd : 0 <= d) by (apply Zdigits2_nonneg; lia).
  assert (Hpre2 : e1 <= fexp (Zdigits2 m2 + e1)).
  { destruct (Z.eq_dec m1 0) as [Hz|Hnz].
    - assert (d + e <= e1).
      { destruct (Z.eq_dec m 0) as [Hm0|Hm0].
        - unfold d. rewrite Hm0. simpl. lia.
        - rewrite M1 in Hz. apply Z.div_small_iff in Hz; [|pose proof (pow2_pos (e1 - e)); lia].
          destruct Hz as [Hz|Hz]; [|pose proof (pow2_pos (e1 - e)); lia].
          assert (d <= e1 - e) by (apply Zdigits2_lt_pow; lia). lia. }
      pose proof (Zdigits2_nonneg m2). unfold e1, fexp in *. lia.
    - assert (Zdigits2 m1 = d - (e1 - e)).
      { assert (0 < m).
        { destruct (Z.eq_dec m 0) as [Hm0|]; [|lia].
          rewrite Hm0, Z.div_0_l in M1; [lia|].
          pose proof (pow2_pos (e1 - e)). lia. }
        rewrite M1. apply Zdigits2_shiftr; lia. }
      assert (Zdigits2 m1 <= Zdigits2 m2) by (apply Zdigits2_mono; lia).
      unfold e1 at 1. apply fexp_mono. lia. }
  destruct (shr_fexp_spec m2 e1 loc_Exact) as (mrs2 & E2 & M2 & _); try lia.
  rewrite E2.
  set (e3 := fexp (Zdigits2 m2 + e1)) in *.
  assert (Hm3 : 0 <= shr_m mrs2).
  { rewrite M2. apply Z.div_pos; [lia|apply pow2_pos; lia]. }
  assert (Hbound : forall c, emin <= c <= 1023 -> m + inexact l <= 2 ^ (c - e) ->
            0 < m2 -> e3 <= c /\ e3 <= 971 /\ shr_m mrs2 <= 2 ^ (c - e3)).
  { intros c Hc Hb Hpos.
    assert (B2 : e1 <= c /\ m2 <= 2 ^ (c - e1)).
    { destruct (Z.eq_dec m 0) as [Hm0|Hm0].
      - assert (e1 = emin).
        { assert (d = 0) by (unfold d; rewrite Hm0; reflexivity).
          unfold e1, fexp in *. lia. }
        split; [lia|].
        assert (m1 = 0) by (rewrite M1, Hm0; apply Z.div_0_l; pose proof (pow2_pos (e1 - e)); lia).
        pose proof (pow2_pos (c - e1)). lia.
      - assert (Hk : 0 <= c - e).
        { apply (pow2_nonneg_exp m); [lia|]. destruct l; simpl in Hb; lia. }
        assert (d <= c - e + 1).
        { apply Zdigits2_le_pow; try lia. destruct l; simpl in Hb; lia. }
        assert (e1 <= c) by (unfold e1, fexp; lia).
        split; trivial.
        replace (c - e1) with ((c - e) - (e1 - e)) by lia.
        unfold m2.
        destruct (round_nearest_even_cases m1 (loc_of_shr_record mrs1))
          as [->|[-> Hloc]].
        + rewrite M1. apply div_pow2_le; [lia|]. destruct l; simpl in Hb; lia.
        + assert (m < 2 ^ (c - e)).
          { destruct l as [|cmp]; [|simpl in Hb; lia].
            destruct (Z.eq_dec (m mod 2 ^ (e1 - e)) 0) as [Hmod|Hmod].
            - exfalso. apply Hloc. apply X1; trivial.
            - simpl in Hb. assert (m <> 2 ^ (c - e)); [|lia].
              intros Heq. apply Hmod. rewrite Heq.
              rewrite (pow2_split (e1 - e) (c - e)) by lia.
              rewrite Z.mul_comm. apply Z.mod_mul.
              pose proof (pow2_pos (e1 - e)). lia. }
          assert (m1 < 2 ^ (c - e - (e1 - e))); [|lia].
          rewrite M1. apply div_pow2_lt; lia. }
    destruct B2 as [B2e B2m].
    assert (Zdigits2 m2 <= c - e1 + 1) by (apply Zdigits2_le_pow; lia).
    assert (e3 <= c /\ e3 <= 971) by (unfold e3, fexp, emin in *; lia).
    split; [tauto|]. split; [tauto|].
    rewrite M2. replace (c - e3) with ((c - e1) - (e3 - e1)) by lia.
    apply div_pow2_le; lia. }
  remember (shr_m mrs2) as m3 eqn:Hm3eq.
  destruct m3 as [|p|p]; try lia.
  - simpl. auto.
  - assert (Hpos2 : 0 < m2).
    { destruct (Z.eq_dec m2 0) as [Hz|]; [|lia].
      rewrite Hz, Z.div_0_l in M2; [lia|].
      pose proof (pow2_pos (e3 - e1)). lia. }
    assert (Hcanon : fexp (Z.pos (digits2_pos p) + e3) = e3).
    { change (Z.pos (digits2_pos p)) with (Zdigits2 (Z.pos p)).
      rewrite M2. rewrite Zdigits2_shiftr; try lia.
      replace (Zdigits2 m2 - (e3 - e1) + e3) with (Zdigits2 m2 + e1) by lia.
      reflexivity. }
    destruct (Z.leb_spec e3 (Float.emax - Float.prec)) as [Hle|Hgt].
    + split; [|split; [reflexivity|]].
      * unfold Float.valid. simpl. unfold bounded, canonical_mantissa.
        rewrite fexp_eq, Hcanon, Z.eqb_refl. simpl. apply Z.leb_le. exact Hle.
      * intros c Hc Hb. simpl. destruct (Hbound c Hc Hb Hpos2) as (? & ? & ?). auto.
    + split; [reflexivity|]. split; [reflexivity|].
      intros c Hc Hb. destruct (Hbound c Hc Hb Hpos2) as (? & ? & ?).
      unfold Float.emax, Float.prec in Hgt. lia.
Qed.

Lemma iter_xO m d : Zpos (Pos.iter xO m d) = Zpos m * 2 ^ Zpos d.
Proof.
  induction d as [|d IH] using Pos.peano_ind.
  - simpl. lia.
  - rewrite Pos.iter_succ, Pos2Z.inj_xO, IH, Pos2Z.inj_succ, Z.pow_succ_r; lia.
Qed.

Lemma shl_align_spec m e e' :
  let '(mz, ez) := shl_align m e e' in
  ez = Z.min e e' /\ Zpos mz = Zpos m * 2 ^ (e - ez).
Proof.
  unfold shl_align. destruct (e' - e) as [|d|d] eqn:Hd.
  - split; [lia|]. rewrite Z.sub_diag. lia.
  - split; [lia|]. rewrite Z.sub_diag. lia.
  - split; [lia|]. rewrite iter_xO. do 2 f_equal. lia.
Qed.

Lemma Zdigits2_mul_pow2 m k :
  0 < m -> 0 <= k -> Zdigits2 (m * 2 ^ k) = Zdigits2 m + k.
Proof.
  intros Hm Hk. pose proof (pow2_pos k Hk).
  rewrite !Zdigits2_log2 by nia. rewrite Z.log2_mul_pow2 by lia. lia.
Qed.

(** The same for a mantissa of any length, aligned first. *)
Lemma binary_round_spec s m e :
  let r := binary_round Float.prec Float.emax s m e in
  Float.valid r = true
  /\ Float.is_nan r = false
  /\ forall c, emin <= c <= 1023 -> Zpos m <= 2 ^ (c - e) -> le2 c r.
Proof.
  cbv zeta. unfold binary_round. rewrite fexp_eq.
  pose proof (shl_align_spec m e (fexp (Z.pos (digits2_pos m) + e))) as Hal.
  destruct (shl_align m e (fexp (Z.pos (digits2_pos m) + e))) as [mz ez].
  destruct Hal as [Hez Hmz].
  change (Z.pos (digits2_pos m)) with (Zdigits2 (Z.pos m)) in *.
  assert (Hdig : Zdigits2 (Z.pos mz) + ez = Zdigits2 (Z.pos m) + e).
  { rewrite Hmz, Zdigits2_mul_pow2; lia. }
  destruct (binary_round_aux_spec s (Z.pos mz) ez loc_Exact) as (Hv & Hn & Hb).
  - lia.
  - rewrite Hdig. lia.
  - split; trivial. split; trivial.
    intros c Hc Hle. apply Hb; trivial. unfold inexact. rewrite Z.add_0_r, Hmz.
    assert (0 <= c - e) by (apply (pow2_nonneg_exp (Z.pos m)); lia).
    replace (c - ez) with ((c - e) + (e - ez)) by lia.
    rewrite Z.pow_add_r by lia.
    apply Z.mul_le_mono_nonneg_r; [|trivial].
    pose proof (pow2_pos (e - ez)). lia.
Qed.

Lemma binary_normalize_spec m e :
  let r := binary_normalize Float.prec Float.emax m e false in
  Float.valid r = true
  /\ Float.is_nan r = false
  /\ forall c, emin <= c <= 1023 -> Z.abs m <= 2 ^ (c - e) -> le2 c r.
Proof.
  cbv zeta. destruct m as [|p|p]; simpl.
  - auto.
  - apply binary_round_spec.
  - apply binary_round_spec.
Qed.

(** ** Well-formed floats *)

Lemma valid_finite s m e :
  Float.valid (S754_finite s m e) = true ->
  fexp (Zdigits2 (Zpos m) + e) = e /\ e <= 971.
Proof.
  unfold Float.valid. simpl. unfold bounded, canonical_mantissa.
  rewrite fexp_eq. intros H. apply andb_prop in H. destruct H as [H1 H2].
  apply Z.eqb_eq in H1. apply Z.leb_le in H2.
  unfold Float.emax, Float.prec in H2. simpl. split; [exact H1|lia].
Qed.

(** ** The four operations *)

(** A product of bounded floats is bounded: it does not overflow. *)
Lemma mul_spec x y a b :
  Float.valid x = true -> Float.valid y = true ->
  le2 a x -> le2 b y -> emin <= a + b <= 1023 ->
  Float.valid (Float.mul x y) = true /\ le2 (a + b) (Float.mul x y).
Proof.
  intros Vx Vy Lx Ly Hc.
  destruct x as [sx| | |sx mx ex], y as [sy| | |sy my ey];
    simpl in Lx, Ly; try contradiction; try (simpl; auto; fail).
  apply valid_finite in Vx, Vy. destruct Vx as [Cx _], Vy as [Cy _].
  destruct Lx as [Ex Mx], Ly as [Ey My].
  unfold Float.mul, SFmul.
  pose proof (Zdigits2_bounds (Z.pos mx) eq_refl) as (Dx & Lx & Ux).
  pose proof (Zdigits2_bounds (Z.pos my) eq_refl) as (Dy & Ly & Uy).
  assert (Hd : Zdigits2 (Z.pos mx) + Zdigits2 (Z.pos my) - 1
               <= Zdigits2 (Z.pos (mx * my))).
  { assert (Zdigits2 (Z.pos mx) - 1 + (Zdigits2 (Z.pos my) - 1) + 1
            <= Zdigits2 (Z.pos (mx * my))); [|lia].
    apply Zdigits2_ge_pow; [lia|].
    rewrite Z.pow_add_r, Pos2Z.inj_mul by lia.
    apply Z.mul_le_mono_nonneg; try lia; apply Z.lt_le_incl, pow2_pos; lia. }
  destruct (binary_round_aux_spec (xorb sx sy) (Z.pos (mx * my)) (ex + ey) loc_Exact)
    as (Hv & _ & Hb).
  - lia.
  - unfold fexp, emin in *. lia.
  - split; trivial. apply Hb; trivial. unfold inexact.
    rewrite Z.add_0_r, Pos2Z.inj_mul.
    replace (a + b - (ex + ey)) with ((a - ex) + (b - ey)) by lia.
    rewrite Z.pow_add_r by lia.
    apply Z.mul_le_mono_nonneg; lia.
Qed.

(** A quotient by a float bounded from below is bounded.  The operands
    need not be normalised. *)
Lemma div_spec x y a b :
  le2 a x -> ge2 b y -> emin <= a - b <= 1023 ->
  Float.valid (Float.div x y) = true /\ le2 (a - b) (Float.div x y).
Proof.
  intros Lx Gy Hc.
  destruct x as [sx| | |sx mx ex], y as [sy| | |sy my ey];
    simpl in Lx, Gy; try contradiction; try (simpl; auto; fail).
  destruct Lx as [Ex Mx].
  unfold Float.div, SFdiv, SFdiv_core_binary. rewrite fexp_eq.
  pose proof (Zdigits2_bounds (Z.pos mx) eq_refl) as (Dx & Lx & Ux).
  pose proof (Zdigits2_bounds (Z.pos my) eq_refl) as (Dy & Ly & Uy).
  set (dx := Zdigits2 (Z.pos mx)) in *. set (dy := Zdigits2 (Z.pos my)) in *.
  set (e' := Z.min (fexp (dx + ex - (dy + ey))) (ex - ey)).
  set (sh := ex - ey - e').
  assert (Hsh : 0 <= sh) by (unfold sh, e'; lia).
  set (m' := match sh with Z.pos _ => Z.shiftl (Z.pos mx) sh | 0 => Z.pos mx
             | Z.neg _ => 0 end).
  assert (Hm' : m' = Z.pos mx * 2 ^ sh).
  { unfold m'. destruct sh as [|p|p]; try lia.
    rewrite Z.shiftl_mul_pow2; lia. }
  clearbody m'.
  pose proof (Z_div_mod m' (Z.pos my) eq_refl) as Hdm.
  destruct (Z.div_eucl m' (Z.pos my)) as [q r]. destruct Hdm as [Hqr Hr].
  pose proof (pow2_pos sh Hsh) as Hps.
  assert (Hq : 0 <= q) by nia.
  assert (Hdyb : b - ey + 1 <= dy).
  { destruct (Z.le_gt_cases 0 (b - ey)).
    - apply Zdigits2_ge_pow; lia.
    - lia. }
  assert (Hdxa : dx <= a - ex + 1) by (apply Zdigits2_le_pow; lia).
  destruct (binary_round_aux_spec (xorb sx sy) q e' (new_location (Z.pos my) r))
    as (Hv & _ & Hb); trivial.
  - (* the quotient has enough digits *)
    destruct (Z.eq_dec q 0) as [Hq0|Hq0].
    + subst q. simpl.
      assert (dx + sh <= dy).
      { assert (Zdigits2 (Z.pos mx * 2 ^ sh) <= dy).
        { apply Zdigits2_lt_pow; nia. }
        rewrite Zdigits2_mul_pow2 in *; lia. }
      unfold e', sh, fexp in *. lia.
    + assert (dx + sh - dy <= Zdigits2 q).
      { destruct (Z.le_gt_cases (dx + sh - dy) 0) as [Hn|Hp].
        - pose proof (Zdigits2_bounds q). lia.
        - assert (dx + sh - dy - 1 + 1 <= Zdigits2 q); [|lia].
          apply Zdigits2_ge_pow; [lia|].
          (* 2^(dx+sh-dy-1) * my < 2^(dx-1+sh) <= m' < (q+1) * my *)
          assert (2 ^ (dx + sh - dy - 1) * 2 ^ dy = 2 ^ (dx - 1) * 2 ^ sh).
          { rewrite <- !Z.pow_add_r by lia. f_equal. lia. }
          pose proof (pow2_pos (dx + sh - dy - 1)).
          assert (2 ^ (dx + sh - dy - 1) * Z.pos my < (q + 1) * Z.pos my) by nia.
          assert (2 ^ (dx + sh - dy - 1) < q + 1); [|lia].
          apply (Z.mul_lt_mono_pos_r (Z.pos my)); lia. }
      assert (e' <= fexp (dx + ex - (dy + ey))) by (unfold e'; lia).
      etransitivity; [eassumption|]. apply fexp_mono. unfold sh in *. lia.
  - split; trivial. apply Hb; trivial.
    assert (He' : e' <= a - b).
    { unfold e', fexp, emin in *. lia. }
    assert (Hin : inexact (new_location (Z.pos my) r) = 0 \/ 0 < r).
    { unfold new_location.
      destruct (Z.even (Z.pos my));
        unfold new_location_even, new_location_odd;
        (destruct (Z.eqb_spec r 0); [left; reflexivity|right; lia]). }
    assert (Hin1 : inexact (new_location (Z.pos my) r) <= 1)
      by (destruct (new_location (Z.pos my) r); simpl; lia).
    replace (a - b - e') with ((a - ex) + sh - (b - ey)) by (unfold sh; lia).
    assert (Hnum : m' <= 2 ^ (a - ex + sh)).
    { rewrite Hm', Z.pow_add_r by lia. apply Z.mul_le_mono_nonneg_r; lia. }
    destruct (Z.le_gt_cases (b - ey) 0) as [Hn|Hp].
    + (* the divisor's bound is trivial *)
      assert (2 ^ (a - ex + sh) <= 2 ^ (a - ex + sh - (b - ey)))
        by (apply pow2_le_mono; lia).
      assert (q <= Z.pos my * q) by nia.
      destruct Hin as [->|Hrp]; lia.
    + assert (Hsplit : 2 ^ (a - ex + sh)
                       = 2 ^ (b - ey) * 2 ^ (a - ex + sh - (b - ey))).
      { apply pow2_split. unfold sh in *. lia. }
      pose proof (pow2_pos (b - ey)).
      pose proof (pow2_pos (a - ex + sh - (b - ey))).
      destruct Hin as [->|Hrp].
      * rewrite Z.add_0_r.
        apply (Z.mul_le_mono_pos_l _ _ (2 ^ (b - ey))); [lia|]. nia.
      * assert (q < 2 ^ (a - ex + sh - (b - ey))); [|lia].
        apply (Z.mul_lt_mono_pos_l (2 ^ (b - ey))); [lia|]. nia.
Qed.

Lemma shl_align_fst m e ez :
  ez <= e -> Zpos (fst (shl_align m e ez)) = Zpos m * 2 ^ (e - ez).
Proof.
  intros Hez. pose proof (shl_align_spec m e ez) as H.
  destruct (shl_align m e ez) as [mz ez']. destruct H as [-> H].
  cbn [fst]. rewrite H. do 2 f_equal. lia.
Qed.

Lemma cond_Zopp_abs s n : Z.abs (cond_Zopp s n) = Z.abs n.
Proof. destruct s; simpl; lia. Qed.

Lemma aligned_le m e ez a c :
  ez <= e -> e <= a -> a < c -> Zpos m <= 2 ^ (a - e) ->
  2 * (Zpos m * 2 ^ (e - ez)) <= 2 ^ (c - ez).
Proof.
  intros Hez Hea Hac Hm.
  replace (c - ez) with (1 + ((c - 1 - e) + (e - ez))) by lia.
  rewrite Z.pow_add_r, Z.pow_1_r, Z.pow_add_r by lia.
  pose proof (pow2_pos (e - ez)).
  assert (2 ^ (a - e) <= 2 ^ (c - 1 - e)) by (apply pow2_le_mono; lia).
  apply Z.mul_le_mono_nonneg_l; [lia|].
  apply Z.mul_le_mono_nonneg_r; lia.
Qed.

(** A sum or a difference of bounded floats is bounded by the next
    power of two. *)
Lemma add_sub_spec (sub : bool) x y a b c :
  Float.valid x = true -> Float.valid y = true ->
  le2 a x -> le2 b y -> a < c -> b < c -> emin <= c <= 1023 ->
  let r := if sub then Float.sub x y else Float.add x y in
  Float.valid r = true /\ le2 c r.
Proof.
  intros Vx Vy Lx Ly Ha Hb Hc. cbv zeta.
  pose proof (le2_mono a c x ltac:(lia) Lx) as Lx'.
  pose proof (le2_mono b c y ltac:(lia) Ly) as Ly'.
  destruct x as [sx| | |sx mx ex], y as [sy| | |sy my ey];
    simpl in Lx, Ly; try contradiction.
  - destruct sub, sx, sy; simpl; auto.
  - destruct sub; simpl; auto.
  - destruct sub; simpl; auto.
  - destruct Lx as [Ex Mx], Ly as [Ey My].
    set (ez := Z.min ex ey).
    pose proof (shl_align_fst mx ex ez ltac:(unfold ez; lia)) as Fx.
    pose proof (shl_align_fst my ey ez ltac:(unfold ez; lia)) as Fy.
    pose proof (aligned_le mx ex ez a c ltac:(unfold ez; lia) Ex Ha Mx).
    pose proof (aligned_le my ey ez b c ltac:(unfold ez; lia) Ey Hb My).
    assert (0 <= Z.pos mx * 2 ^ (ex - ez))
      by (pose proof (pow2_pos (ex - ez) ltac:(unfold ez; lia)); lia).
    assert (0 <= Z.pos my * 2 ^ (ey - ez))
      by (pose proof (pow2_pos (ey - ez) ltac:(unfold ez; lia)); lia).
    destruct sub; unfold Float.sub, Float.add, SFsub, SFadd; fold ez;
      match goal with
      | |- context [binary_normalize _ _ ?m _ _] =>
          destruct (binary_normalize_spec m ez) as (Hv & _ & Hbd)
      end;
      (split; [exact Hv|]); apply Hbd; trivial; rewrite Fx, Fy;
      generalize dependent (Z.pos mx * 2 ^ (ex - ez));
      generalize dependent (Z.pos my * 2 ^ (ey - ez));
      generalize (2 ^ (c - ez)); clear;
      intros; destruct sx, sy; unfold cond_Zopp; lia.
Qed.

Lemma add_spec x y a b c :
  Float.valid x = true -> Float.valid y = true ->
  le2 a x -> le2 b y -> a < c -> b < c -> emin <= c <= 1023 ->
  Float.valid (Float.add x y) = true /\ le2 c (Float.add x y).
Proof. exact (add_sub_spec false x y a b c). Qed.

Lemma sub_spec x y a b c :
  Float.valid x = true -> Float.valid y = true ->
  le2 a x -> le2 b y -> a < c -> b < c -> emin <= c <= 1023 ->
  Float.valid (Float.sub x y) = true /\ le2 c (Float.sub x y).
Proof. exact (add_sub_spec true x y a b c). Qed.

(** The conversion of a bounded integer. *)
Lemma of_Z_spec n c :
  0 <= c <= 1023 -> Z.abs n <= 2 ^ c ->
  Float.valid (Float.of_Z n) = true /\ le2 c (Float.of_Z n).
Proof.
  intros Hc Hn. unfold Float.of_Z.
  destruct (binary_normalize_spec n 0) as (Hv & _ & Hb).
  split; trivial. apply Hb; [unfold emin; lia|]. rewrite Z.sub_0_r. exact Hn.
Qed.

(** ** Comparisons with a power of two *)

Lemma valid_normal s m e :
  Float.valid (S754_finite s m e) = true -> emin < e -> 2 ^ 52 <= Zpos m.
Proof.
  intros V He. apply valid_finite in V. destruct V as [C _].
  unfold fexp, emin in *.
  assert (Zdigits2 (Z.pos m) = 53) by lia.
  pose proof (Zdigits2_bounds (Z.pos m) eq_refl) as (_ & L & _).
  rewrite H in L. exact L.
Qed.

Lemma valid_mantissa s m e :
  Float.valid (S754_finite s m e) = true -> Zpos m < 2 ^ 53.
Proof.
  intros V. apply valid_finite in V. destruct V as [C _].
  unfold fexp, emin in *.
  pose proof (Zdigits2_bounds (Z.pos m) eq_refl) as (D & _ & U).
  eapply Z.lt_le_trans; [exact U|]. apply pow2_le_mono. lia.
Qed.

Lemma SFcompare_pos m1 e1 m2 e2 :
  SFcompare (S754_finite false m1 e1) (S754_finite false m2 e2)
  = Some match e1 ?= e2 with
         | Lt => Lt
         | Gt => Gt
         | Eq => (m1 ?= m2)%positive
         end.
Proof. reflexivity. Qed.

Lemma leb_pos_cases m1 e1 m2 e2 :
  Float.leb (S754_finite false m1 e1) (S754_finite false m2 e2) = true ->
  e1 < e2 \/ (e1 = e2 /\ Z.pos m1 <= Z.pos m2).
Proof.
  unfold Float.leb, SFleb. rewrite SFcompare_pos.
  destruct (Z.compare_spec e1 e2) as [Heq|Hlt|Hgt]; intros H.
  - right. split; trivial.
    destruct (Pos.compare_spec m1 m2) as [E|L|G]; try discriminate; clear H; lia.
  - left. exact Hlt.
  - discriminate.
Qed.

Lemma leb_pow2f_ge k x :
  -1022 <= k -> Float.valid x = true -> Float.leb (pow2f k) x = true ->
  x = S754_infinity false \/ exists m e, x = S754_finite false m e /\ ge2 k x.
Proof.
  intros Hk V H.
  destruct x as [sx|sx| |sx m e]; try discriminate.
  - destruct sx; [discriminate|]. left. reflexivity.
  - destruct sx; [discriminate|]. right. exists m, e. split; trivial.
    apply leb_pos_cases in H. change (Z.pos 4503599627370496) with (2 ^ 52) in H.
    unfold ge2. destruct H as [Hlt|[Heq Hle]].
    + pose proof (valid_normal _ _ _ V ltac:(unfold emin; lia)). clear V.
      etransitivity; [|eassumption].
      destruct (Z.le_gt_cases 0 (k - e)).
      * apply pow2_le_mono. lia.
      * rewrite Z.pow_neg_r by lia. lia.
    + clear V. subst e. replace (k - (k - 52)) with 52 by lia. exact Hle.
Qed.

Lemma leb_pow2f_le k m e :
  Float.valid (S754_finite false m e) = true ->
  Float.leb (S754_finite false m e) (pow2f k) = true ->
  le2 k (S754_finite false m e).
Proof.
  intros V H.
  pose proof (valid_mantissa _ _ _ V) as Hm. clear V.
  apply leb_pos_cases in H. change (Z.pos 4503599627370496) with (2 ^ 52) in H.
  unfold le2. destruct H as [Hlt|[-> Hle]].
  - split; [lia|].
    etransitivity; [apply Z.lt_le_incl; exact Hm|]. apply pow2_le_mono. lia.
  - replace (k - (k - 52)) with 52 by lia. split; [lia|exact Hle].
Qed.

(** A well-formed float between two powers of two is positive and
    finite. *)
Lemma in_range_spec a b x :
  -1022 <= a -> Float.valid x = true ->
  Float.leb (pow2f a) x = true -> Float.leb x (pow2f b) = true ->
  exists m e, x = S754_finite false m e /\ ge2 a x /\ le2 b x.
Proof.
  intros Ha V Hlo Hhi.
  destruct (leb_pow2f_ge a x Ha V Hlo) as [->|(m & e & -> & Hge)];
    [discriminate|].
  exists m, e. split; trivial. split; trivial.
  apply leb_pow2f_le; trivial.
Qed.

(** Rounding keeps the sign. *)
Lemma binary_round_aux_sign s m e l :
  match binary_round_aux Float.prec Float.emax s m e l with
  | S754_zero s' | S754_infinity s' | S754_finite s' _ _ => s' = s
  | S754_nan => True
  end.
Proof.
  unfold binary_round_aux.
  destruct (shr_fexp Float.prec Float.emax m e l) as [mrs' e'].
  destruct (shr_fexp Float.prec Float.emax _ e' loc_Exact) as [mrs'' e''].
  destruct (shr_m mrs''); trivial.
  destruct (Z.leb e'' (Float.emax - Float.prec)); trivial.
Qed.

(** A quotient of two positive floats is not negative. *)
Lemma div_pos_sign mx ex my ey :
  match Float.div (S754_finite false mx ex) (S754_finite false my ey) with
  | S754_zero s' | S754_infinity s' | S754_finite s' _ _ => s' = false
  | S754_nan => True
  end.
Proof.
  unfold Float.div, SFdiv.
  destruct (SFdiv_core_binary Float.prec Float.emax (Z.pos mx) ex (Z.pos my) ey)
    as [[mz ez] lz].
  apply (binary_round_aux_sign (xorb false false)).
Qed.

Lemma ltb_pos_false m1 e1 m2 e2 :
  Float.ltb (S754_finite false m1 e1) (S754_finite false m2 e2) = false ->
  e2 < e1 \/ (e1 = e2 /\ Z.pos m2 <= Z.pos m1).
Proof.
  unfold Float.ltb, SFltb. rewrite SFcompare_pos.
  destruct (Z.compare_spec e1 e2) as [Heq|Hlt|Hgt]; intros H.
  - right. split; trivial.
    destruct (Pos.compare_spec m1 m2) as [E|L|G]; try discriminate; clear H; lia.
  - discriminate.
  - left. exact Hgt.
Qed.

(** [max(h, 1.0)] is at least one, and never zero. *)
Lemma max_float_one_spec h c :
  0 <= c -> Float.valid h = true -> le2 c h ->
  let m := Py.max_float h Float.one in
  Float.valid m = true /\ ge2 0 m /\ le2 c m.
Proof.
  intros Hc V L. cbv zeta. unfold Py.max_float.
  assert (Hone : Float.valid Float.one = true /\ ge2 0 Float.one /\ le2 c Float.one).
  { split; [reflexivity|]. split; [simpl; lia|].
    simpl. split; [lia|]. change (Z.pos 4503599627370496) with (2 ^ 52).
    apply pow2_le_mono. lia. }
  destruct (Float.ltb h Float.one) eqn:Hlt; trivial.
  destruct h as [sh| | |sh mh eh]; simpl in L; try contradiction.
  - destruct sh; discriminate.
  - destruct sh; [discriminate|].
    split; trivial. split; trivial.
    apply ltb_pos_false in Hlt. change (Z.pos 4503599627370496) with (2 ^ 52) in Hlt.
    unfold ge2. destruct Hlt as [Hlt|[-> Hle]].
    + pose proof (valid_normal _ _ _ V ltac:(unfold emin; lia)). clear V.
      etransitivity; [|eassumption].
      destruct (Z.le_gt_cases 0 (0 - eh)).
      * apply pow2_le_mono. lia.
      * rewrite Z.pow_neg_r by lia. lia.
    + exact Hle.
Qed.

Lemma max_float_one_nonzero h :
  Float.eqb (Py.max_float h Float.one) Float.zero = false.
Proof.
  unfold Py.max_float.
  destruct (Float.ltb h Float.one) eqn:Hlt; [reflexivity|].
  destruct h as [sh|sh| |sh mh eh]; try reflexivity.
  - destruct sh; discriminate.
  - destruct sh; reflexivity.
  - destruct sh; reflexivity.
Qed.

Lemma ge2_nonzero c x : ge2 c x -> Float.eqb x Float.zero = false.
Proof. destruct x as [| | |s m e]; simpl; try tauto. destruct s; reflexivity. Qed.

Lemma le2_not_inf c x : le2 c x -> Float.is_inf x = false.
Proof. destruct x; simpl; tauto. Qed.

(** ** The interpreter's primitives on bounded arguments *)

Lemma float_truediv_spec x y a b :
  le2 a x -> ge2 b y -> emin <= a - b <= 1023 ->
  Py.float_truediv x y = inr (Float.div x y)
  /\ Float.valid (Float.div x y) = true /\ le2 (a - b) (Float.div x y).
Proof.
  intros Lx Gy Hc. unfold Py.float_truediv.
  rewrite (ge2_nonzero b y Gy). split; [reflexivity|].
  apply div_spec; trivial.
Qed.

Lemma int_to_float_spec n c :
  0 <= c <= 1023 -> Z.abs n <= 2 ^ c ->
  Py.int_to_float n = inr (Float.of_Z n)
  /\ Float.valid (Float.of_Z n) = true /\ le2 c (Float.of_Z n).
Proof.
  intros Hc Hn. destruct (of_Z_spec n c Hc Hn) as [V L].
  unfold Py.int_to_float. rewrite (le2_not_inf c _ L). auto.
Qed.

(** Half a positive integer is a non-negative bounded float. *)
Lemma int_truediv_2_spec n c :
  0 < n <= 2 ^ c -> 1 <= c <= 1000 ->
  exists half,
    Py.int_truediv n 2 = inr half
    /\ Float.valid half = true /\ le2 (c - 1) half
    /\ (half = S754_zero false \/ exists m e, half = S754_finite false m e).
Proof.
  intros Hn Hc. destruct n as [|p|p]; try lia.
  unfold Py.int_truediv.
  change (Z.pos p <? 0) with false. change (2 <? 0) with false.
  change (Z.to_pos (Z.abs (Z.pos p))) with p. change (Z.to_pos (Z.abs 2)) with 2%positive.
  pose proof (div_spec (S754_finite false p 0) (S754_finite false 2 0) c 1) as H.
  destruct H as [V L].
  - simpl. split; [lia|]. rewrite Z.sub_0_r. lia.
  - simpl. lia.
  - unfold emin. lia.
  - pose proof (div_pos_sign p 0 2 0) as Hs.
    destruct (Float.div (S754_finite false p 0) (S754_finite false 2 0))
      as [s| | |s m e] eqn:E; simpl in L; try contradiction; subst s.
    + exists (S754_zero false). simpl. auto.
    + exists (S754_finite false m e). simpl. split; trivial. split; trivial.
      split; trivial. right. eauto.
Qed.

(** [int(x)] of a bounded float is a bounded integer. *)
Lemma int_of_float_spec x c :
  0 <= c -> le2 c x ->
  exists n, Py.int_of_float x = inr n /\ Z.abs n <= 2 ^ c.
Proof.
  intros Hc L. destruct x as [s| | |s m e]; simpl in L; try contradiction.
  - exists 0. split; [reflexivity|]. pose proof (pow2_pos c Hc). simpl. lia.
  - destruct L as [He Hm]. eexists. split; [reflexivity|].
    rewrite cond_Zopp_abs.
    assert (0 <= Z.shiftl (Z.pos m) e <= 2 ^ c); [|lia].
    destruct (Z.le_gt_cases 0 e) as [Hp|Hn].
    + rewrite Z.shiftl_mul_pow2 by lia. pose proof (pow2_pos e Hp).
      split; [lia|].
      rewrite (pow2_split e c) by lia. rewrite Z.mul_comm.
      apply Z.mul_le_mono_nonneg_l; lia.
    + rewrite Z.shiftl_div_pow2 by lia. pose proof (pow2_pos (- e) ltac:(lia)).
      split; [apply Z.div_pos; lia|].
      replace c with ((c - e) - (- e)) at 1 by lia.
      apply div_pow2_le; lia.
Qed.

Lemma math_1_spec (f : float -> float) x :
  Float.is_finite (f x) = true -> Py.math_1 f x = inr (f x).
Proof.
  unfold Py.math_1. intros H. destruct (f x); try discriminate; reflexivity.
Qed.

(** * Facts about the generator *)

(** ** Valid configurations *)

Lemma in_range_bounds x :
  in_range x = true ->
  Float.valid x = true
  /\ (exists m e, x = S754_finite false m e) /\ ge2 (-200) x /\ le2 200 x.
Proof.
  unfold in_range, between. intros H.
  apply andb_prop in H. destruct H as [H Hhi].
  apply andb_prop in H. destruct H as [V Hlo].
  destruct (in_range_spec (-200) 200 x ltac:(lia) V Hlo Hhi) as (m & e & E & G & L).
  split; trivial. split; eauto.
Qed.

Lemma valid_config_fields config :
  valid_config config = true ->
  in_range (outer_radius config) = true
  /\ in_range (inner_radius config) = true
  /\ in_range (pen_offset config) = true
  /\ in_range (theta_step config) = true
  /\ in_range (cycles config) = true
  /\ 1 <= canvas_size config <= 2 ^ 200.
Proof.
  unfold valid_config. intros H.
  do 6 (apply andb_prop in H; let H' := fresh "H" in destruct H as [H H']).
  repeat split; trivial; apply Z.leb_le; assumption.
Qed.

Lemma between_in_range lo hi x ml el mh eh :
  lo = S754_finite false ml el -> hi = S754_finite false mh eh ->
  -252 < el -> eh < 148 ->
  between lo hi x = true -> in_range x = true.
Proof.
  intros -> -> Hel Heh H. unfold between in H.
  apply andb_prop in H. destruct H as [H Hhi].
  apply andb_prop in H. destruct H as [V Hlo].
  destruct x as [s|s| |s m e]; try discriminate.
  - destruct s; discriminate.
  - destruct s; [discriminate|].
    apply leb_pos_cases in Hlo, Hhi.
    unfold in_range, between. rewrite V. cbn [andb].
    unfold Float.leb, SFleb, pow2f, Float.lit. rewrite !SFcompare_pos.
    clear V.
    destruct (Z.compare_spec (-200 - 52) e); [exfalso; lia| |exfalso; lia].
    destruct (Z.compare_spec e (200 - 52)); [exfalso; lia| |exfalso; lia].
    reflexivity.
Qed.

(** Every configuration within the ranges of the command line is
    valid. *)
Lemma knob_ranges_valid config :
  knob_ranges config = true -> valid_config config = true.
Proof.
  unfold knob_ranges. intros H.
  do 6 (apply andb_prop in H; let H' := fresh "H" in destruct H as [H H']).
  apply Z.leb_le in H0, H1.
  assert (HR : in_range (outer_radius config) = true)
    by (eapply between_in_range; [| | | |exact H];
        [reflexivity|reflexivity|reflexivity|reflexivity]).
  assert (Hr : in_range (inner_radius config) = true)
    by (eapply between_in_range; [| | | |exact H5];
        [reflexivity|reflexivity|reflexivity|reflexivity]).
  assert (Hd : in_range (pen_offset config) = true)
    by (eapply between_in_range; [| | | |exact H4];
        [reflexivity|reflexivity|reflexivity|reflexivity]).
  assert (Ht : in_range (theta_step config) = true)
    by (eapply between_in_range; [| | | |exact H3];
        [reflexivity|reflexivity|reflexivity|reflexivity]).
  assert (Hc : in_range (cycles config) = true)
    by (eapply between_in_range; [| | | |exact H2];
        [reflexivity|reflexivity|reflexivity|reflexivity]).
  unfold valid_config. rewrite HR, Hr, Hd, Ht, Hc.
  cbn [andb]. apply andb_true_intro. split; apply Z.leb_le; [lia|].
  change (2 ^ 200) with 1606938044258990275541962092341162602522202993782792835301376.
  lia.
Qed.

Lemma max_int_max a b : Py.max_int a b = Z.max a b.
Proof. unfold Py.max_int. destruct (Z.ltb_spec a b); lia. Qed.

Lemma two_pi_bounds :
  Float.valid (Float.mul Float.two Py.pi) = true
  /\ le2 3 (Float.mul Float.two Py.pi)
  /\ exists m e, Float.mul Float.two Py.pi = S754_finite false m e.
Proof.
  split; [reflexivity|]. split; [|eexists; eexists; reflexivity].
  apply (mul_spec Float.two Py.pi 1 2); try reflexivity.
  - simpl. split; [lia|]. apply Z.leb_le. reflexivity.
  - simpl. split; [lia|]. apply Z.leb_le. reflexivity.
  - unfold emin. lia.
Qed.

Lemma mul_pos_sign mx ex my ey :
  match Float.mul (S754_finite false mx ex) (S754_finite false my ey) with
  | S754_zero s' | S754_infinity s' | S754_finite s' _ _ => s' = false
  | S754_nan => True
  end.
Proof. apply (binary_round_aux_sign (xorb false false)). Qed.

(** ** The sampler

    On a valid configuration every intermediate value of the sampler is
    finite: no division by zero, no conversion of an infinity or a NaN,
    no domain error. *)

Lemma total_angle_spec config :
  valid_config config = true ->
  Float.valid (total_angle config) = true
  /\ le2 203 (total_angle config)
  /\ (total_angle config = S754_zero false
      \/ exists m e, total_angle config = S754_finite false m e).
Proof.
  intros Hv. destruct (valid_config_fields config Hv) as (_ & _ & _ & _ & Hc & _).
  destruct (in_range_bounds _ Hc) as (Vc & (mc & ec & Ec) & _ & Lc).
  destruct two_pi_bounds as (V2 & L2 & (m2 & e2 & E2)).
  unfold total_angle.
  destruct (mul_spec _ _ 3 200 V2 Vc L2 Lc ltac:(unfold emin; lia)) as [V L].
  split; trivial. split; trivial.
  rewrite E2, Ec in *. pose proof (mul_pos_sign m2 e2 mc ec) as Hs.
  destruct (Float.mul (S754_finite false m2 e2) (S754_finite false mc ec))
    as [s| | |s m e]; simpl in L; try contradiction; subst s; eauto.
Qed.

(** On a float that is not negative, truncation is the floor. *)
Lemma floor_int_of_float x :
  (x = S754_zero false \/ exists m e, x = S754_finite false m e) ->
  exists n, floor x = Some n /\ Py.int_of_float x = inr n.
Proof.
  intros [->|(m & e & ->)]; simpl.
  - eauto.
  - eexists. split; [reflexivity|]. unfold ret. f_equal.
    destruct (Z.leb_spec 0 e).
    + apply Z.shiftl_mul_pow2. lia.
    + apply Z.shiftl_div_pow2. lia.
Qed.

(** The number of steps exists, and is the floor the specification
    names. *)
Lemma steps_spec config :
  valid_config config = true ->
  exists f,
    floor (Float.div (total_angle config) (theta_step config)) = Some f
    /\ steps config = inr (Z.max 1 f)
    /\ Z.max 1 f <= 2 ^ 403.
Proof.
  intros Hv. destruct (total_angle_spec config Hv) as (Vt & Lt & St).
  destruct (valid_config_fields config Hv) as (_ & _ & _ & Hth & _ & _).
  destruct (in_range_bounds _ Hth) as (Vh & (mh & eh & Eh) & Gh & _).
  destruct (float_truediv_spec _ _ 203 (-200) Lt Gh ltac:(unfold emin; lia))
    as (Ediv & Vq & Lq).
  assert (Sq : Float.div (total_angle config) (theta_step config) = S754_zero false
               \/ exists m e, Float.div (total_angle config) (theta_step config)
                              = S754_finite false m e).
  { rewrite Eh in *. destruct St as [Et|(mt & et & Et)]; rewrite Et in *.
    - left. reflexivity.
    - pose proof (div_pos_sign mt et mh eh) as Hs.
      destruct (Float.div (S754_finite false mt et) (S754_finite false mh eh))
        as [s| | |s m e]; simpl in Lq; try contradiction; subst s; eauto. }
  destruct (floor_int_of_float _ Sq) as (f & Hf & Hi).
  destruct (int_of_float_spec _ (203 - -200) ltac:(lia) Lq) as (n & Hn & Bn).
  rewrite Hi in Hn. injection Hn as <-.
  exists f. split; trivial. split.
  - unfold steps. rewrite Ediv. cbn [bind]. rewrite Hi. cbn [bind].
    rewrite max_int_max. reflexivity.
  - change (203 - -200) with 403 in Bn.
    pose proof (pow2_pos 403 ltac:(lia)). lia.
Qed.

Section GeneratorFacts.

Variables libm_cos libm_sin : float -> float.

Hypothesis libm_cos_finite :
  forall x, Float.is_finite x = true -> Float.is_finite (libm_cos x) = true.
Hypothesis libm_sin_finite :
  forall x, Float.is_finite x = true -> Float.is_finite (libm_sin x) = true.

Lemma math_cos_spec x c : le2 c x -> math_cos libm_cos x = inr (libm_cos x).
Proof. intros L. apply math_1_spec, libm_cos_finite, (le2_finite c), L. Qed.

Lemma math_sin_spec x c : le2 c x -> math_sin libm_sin x = inr (libm_sin x).
Proof. intros L. apply math_1_spec, libm_sin_finite, (le2_finite c), L. Qed.

(** At a bounded angle both point functions return the point of the
    parametric equations. *)
Lemma trochoid_point_spec config theta :
  valid_config config = true ->
  Float.valid theta = true -> le2 603 theta ->
  _hypotrochoid_point libm_cos libm_sin theta config
  = inr (spec_hypotrochoid libm_cos libm_sin config theta)
  /\ _epitrochoid_point libm_cos libm_sin theta config
     = inr (spec_epitrochoid libm_cos libm_sin config theta).
Proof.
  intros Hv Vth Lth.
  destruct (valid_config_fields config Hv) as (HR & Hr & _ & _ & _ & _).
  destruct (in_range_bounds _ HR) as (VR & _ & _ & LR).
  destruct (in_range_bounds _ Hr) as (Vr & _ & Gr & Lr).
  assert (Hk : forall k, Float.valid k = true -> le2 201 k ->
            Py.float_truediv k (inner_radius config)
            = inr (Float.div k (inner_radius config))
            /\ le2 1004 (Float.mul (Float.div k (inner_radius config)) theta)).
  { intros k Vk Lk.
    destruct (float_truediv_spec _ _ 201 (-200) Lk Gr ltac:(unfold emin; lia))
      as (E & Vq & Lq).
    split; trivial.
    apply (mul_spec _ _ (201 - -200) 603); trivial. unfold emin. lia. }
  split.
  - destruct (sub_spec _ _ 200 200 201 VR Vr LR Lr) as [Vk Lk];
      try (unfold emin; lia).
    destruct (Hk _ Vk Lk) as [E L].
    unfold _hypotrochoid_point, spec_hypotrochoid. cbv zeta.
    rewrite (math_cos_spec _ _ Lth), (math_sin_spec _ _ Lth). cbn [bind].
    rewrite E. cbn [bind].
    rewrite (math_cos_spec _ _ L), (math_sin_spec _ _ L). reflexivity.
  - destruct (add_spec _ _ 200 200 201 VR Vr LR Lr) as [Vk Lk];
      try (unfold emin; lia).
    destruct (Hk _ Vk Lk) as [E L].
    unfold _epitrochoid_point, spec_epitrochoid. cbv zeta.
    rewrite (math_cos_spec _ _ Lth), (math_sin_spec _ _ Lth). cbn [bind].
    rewrite E. cbn [bind].
    rewrite (math_cos_spec _ _ L), (math_sin_spec _ _ L). reflexivity.
Qed.

Lemma loop_body_spec config index :
  valid_config config = true -> 0 <= index <= 2 ^ 403 ->
  Py.int_to_float index = inr (Float.of_Z index)
  /\ match spiro_type config with
     | HYPOTROCHOID =>
         _hypotrochoid_point libm_cos libm_sin (sample_angle config index) config
     | EPITROCHOID =>
         _epitrochoid_point libm_cos libm_sin (sample_angle config index) config
     end = inr (sample_point libm_cos libm_sin config index).
Proof.
  intros Hv Hi.
  destruct (valid_config_fields config Hv) as (_ & _ & _ & Hth & _ & _).
  destruct (in_range_bounds _ Hth) as (Vh & _ & _ & Lh).
  destruct (int_to_float_spec index 403 ltac:(lia) ltac:(lia)) as (E & Vi & Li).
  split; trivial.
  destruct (mul_spec _ _ 403 200 Vi Vh Li Lh ltac:(unfold emin; lia)) as [Va La].
  destruct (trochoid_point_spec config (sample_angle config index) Hv Va La)
    as [Hh He].
  unfold sample_point. destruct (spiro_type config); assumption.
Qed.

(** The loop appends the sample of every index, in order. *)
Lemma generate_points_loop_spec config indices points :
  valid_config config = true ->
  Forall (fun index => 0 <= index <= 2 ^ 403) indices ->
  generate_points_loop libm_cos libm_sin config indices points
  = inr (points ++ map (sample_point libm_cos libm_sin config) indices).
Proof.
  intros Hv Hall. revert points.
  induction Hall as [|index rest Hi Hrest IH]; intros points.
  - simpl. rewrite app_nil_r. reflexivity.
  - destruct (loop_body_spec config index Hv Hi) as [E P].
    cbn [generate_points_loop]. rewrite E. cbn [bind].
    fold (sample_angle config index). rewrite P. cbn [bind].
    rewrite IH, <- app_assoc. reflexivity.
Qed.

Lemma range_Forall n k :
  n <= k -> Forall (fun index => 0 <= index <= k) (Py.range (n + 1)).
Proof.
  intros Hn. unfold Py.range. apply Forall_forall. intros i Hi.
  apply in_map_iff in Hi. destruct Hi as (j & <- & Hj).
  apply in_seq in Hj. lia.
Qed.

(** The sampler returns the samples of the indices [0 .. steps]. *)
Lemma generate_points_spec config :
  valid_config config = true ->
  exists f,
    floor (Float.div (total_angle config) (theta_step config)) = Some f
    /\ generate_points libm_cos libm_sin config
       = inr (map (sample_point libm_cos libm_sin config)
                  (Py.range (Z.max 1 f + 1))).
Proof.
  intros Hv. destruct (steps_spec config Hv) as (f & Hf & Hs & Hb).
  exists f. split; trivial.
  unfold generate_points. rewrite Hs. cbn [bind].
  rewrite generate_points_loop_spec; trivial.
  apply range_Forall, Hb.
Qed.

End GeneratorFacts.

(** ** The scaler *)

(** The loop appends the image of every point, in order. *)
Lemma scale_points_loop_spec half_canvas scale points scaled :
  scale_points_loop half_canvas scale points scaled
  = scaled ++ map (transform half_canvas scale) points.
Proof.
  revert scaled. induction points as [|[x y] rest IH]; intros scaled.
  - simpl. rewrite app_nil_r. reflexivity.
  - cbn [scale_points_loop map]. rewrite IH, <- app_assoc. reflexivity.
Qed.

(** [scale_points] fails only when [canvas_size / 2] does. *)
Lemma scale_points_spec points config half_canvas :
  Py.int_truediv (canvas_size config) 2 = inr half_canvas ->
  scale_points points config
  = inr (map (transform half_canvas (spec_scale config half_canvas)) points).
Proof.
  intros Hhalf. destruct points as [|p rest]; [reflexivity|].
  unfold scale_points, spec_scale, spec_span.
  destruct (extent config) as [min_extent max_extent]. cbn [fst snd].
  rewrite Hhalf. cbn [bind].
  unfold Py.float_truediv at 1. change (Float.eqb Float.two Float.zero) with false.
  cbn [bind ret].
  unfold Py.float_truediv. rewrite max_float_one_nonzero. cbn [bind ret].
  rewrite scale_points_loop_spec. reflexivity.
Qed.

Lemma extent_bounds config :
  valid_config config = true ->
  let span := Float.sub (snd (extent config)) (fst (extent config)) in
  Float.valid span = true /\ le2 203 span.
Proof.
  intros Hv. cbv zeta.
  destruct (valid_config_fields config Hv) as (HR & Hr & Hd & _ & _ & _).
  destruct (in_range_bounds _ HR) as (VR & _ & _ & LR).
  destruct (in_range_bounds _ Hr) as (Vr & _ & _ & Lr).
  destruct (in_range_bounds _ Hd) as (Vd & _ & _ & Ld).
  assert (He : emin <= 201 <= 1023 /\ emin <= 202 <= 1023 /\ emin <= 203 <= 1023)
    by (unfold emin; lia).
  destruct He as (H1 & H2 & H3).
  unfold extent. destruct (spiro_type config); cbn [fst snd].
  - destruct (sub_spec _ _ 200 200 201 VR Vr LR Lr) as [V1 L1]; try lia.
    destruct (sub_spec _ _ 201 200 202 V1 Vd L1 Ld) as [V2 L2]; try lia.
    destruct (add_spec _ _ 200 200 201 VR Vd LR Ld) as [V3 L3]; try lia.
    apply (sub_spec _ _ 201 202 203); trivial; lia.
  - destruct (add_spec _ _ 200 200 201 VR Vr LR Lr) as [V1 L1]; try lia.
    destruct (add_spec _ _ 201 200 202 V1 Vd L1 Ld) as [V2 L2]; try lia.
    apply (sub_spec _ _ 202 0 203); trivial; try lia. exact I.
Qed.

Lemma spec_span_bounds config :
  valid_config config = true ->
  Float.valid (spec_span config) = true /\ le2 203 (spec_span config).
Proof.
  intros Hv. unfold spec_span.
  destruct (Py.isclose _ Float.zero).
  - destruct (valid_config_fields config Hv) as (HR & _).
    destruct (in_range_bounds _ HR) as (VR & _ & _ & LR).
    destruct (max_float_one_spec _ 200 ltac:(lia) VR LR) as (V & _ & L).
    split; trivial. apply (le2_mono 200); [lia|exact L].
  - apply extent_bounds, Hv.
Qed.

(** On a valid configuration the scaler's two constants exist and are
    finite. *)
Lemma scale_bounds config :
  valid_config config = true ->
  exists half_canvas,
    Py.int_truediv (canvas_size config) 2 = inr half_canvas
    /\ Float.valid half_canvas = true /\ le2 199 half_canvas
    /\ (half_canvas = S754_zero false
        \/ exists m e, half_canvas = S754_finite false m e)
    /\ Float.valid (spec_scale config half_canvas) = true
    /\ le2 199 (spec_scale config half_canvas).
Proof.
  intros Hv.
  destruct (valid_config_fields config Hv) as (_ & _ & _ & _ & _ & Hc).
  destruct (int_truediv_2_spec (canvas_size config) 200 ltac:(lia) ltac:(lia))
    as (half & E & V & L & S).
  exists half. do 4 (split; [assumption|]).
  destruct (spec_span_bounds config Hv) as [Vs Ls].
  assert (G2 : ge2 1 Float.two) by (simpl; lia).
  destruct (div_spec _ _ 203 1 Ls G2 ltac:(unfold emin; lia)) as [Vh Lh].
  destruct (max_float_one_spec _ (203 - 1) ltac:(lia) Vh Lh) as (Vm & Gm & _).
  unfold spec_scale.
  apply (div_spec _ _ (200 - 1) 0 L Gm). unfold emin. lia.
Qed.

(** The transform sends the raw origin to the centre of the canvas. *)
Lemma transform_origin half_canvas scale s1 s2 c :
  (half_canvas = S754_zero false
   \/ exists m e, half_canvas = S754_finite false m e) ->
  le2 c scale ->
  transform half_canvas scale (S754_zero s1, S754_zero s2)
  = (half_canvas, half_canvas).
Proof.
  intros Hh Ls. unfold transform. cbn [fst snd].
  destruct scale as [ss| | |ss ms es]; simpl in Ls; try contradiction;
    destruct Hh as [->|(m & e & ->)]; destruct s1, s2, ss; reflexivity.
Qed.

(** The transform keeps bounded points bounded. *)
Lemma transform_bounds half_canvas scale p b :
  0 <= b <= 800 ->
  Float.valid half_canvas = true -> le2 199 half_canvas ->
  Float.valid scale = true -> le2 199 scale ->
  point_le2 b p -> point_le2 (b + 200) (transform half_canvas scale p).
Proof.
  intros Hb Vh Lh Vs Ls [[Vx Lx] [Vy Ly]].
  unfold transform, point_le2. cbn [fst snd].
  destruct (mul_spec _ _ b 199 Vx Vs Lx Ls ltac:(unfold emin; lia)) as [Vmx Lmx].
  destruct (mul_spec _ _ b 199 Vy Vs Ly Ls ltac:(unfold emin; lia)) as [Vmy Lmy].
  split; apply (add_spec _ _ 199 (b + 199)); trivial; unfold emin; lia.
Qed.

(** ** The tolerance test against zero *)

(** The default tolerance of [math.isclose] is relative: of a
    well-formed float, only a zero is close to [0.0]. *)
Lemma isclose_zero a :
  Float.valid a = true ->
  Py.isclose a Float.zero = true -> exists s, a = S754_zero s.
Proof.
  intros V H. destruct a as [s|s| |s m e].
  - eauto.
  - destruct s; discriminate.
  - discriminate.
  - exfalso.
    assert (Hmul : Float.leb (S754_finite false m e)
                     (Float.abs (Float.mul Py.rel_tol (S754_finite s m e)))
                   = true).
    { destruct s; unfold Py.isclose in H; cbn in H;
        rewrite orb_false_r in H; exact H. }
    clear H.
    assert (Hnot : ~ (m = 1%positive /\ e = emin)).
    { intros [-> ->]. destruct s; vm_compute in Hmul; discriminate. }
    pose proof (valid_finite _ _ _ V) as [Hcan He].
    pose proof (Zdigits2_bounds (Z.pos m) eq_refl) as (Dm & Lm & Um).
    set (d := Zdigits2 (Z.pos m)) in *.
    set (c := Z.max (d + e) (emin + 29)).
    assert (La : le2 c (S754_finite s m e)).
    { simpl. split; [unfold c; lia|].
      etransitivity; [apply Z.lt_le_incl; exact Um|].
      apply pow2_le_mono. unfold c. lia. }
    assert (Lt : le2 (-29) Py.rel_tol).
    { simpl. split; [lia|]. apply Z.leb_le. reflexivity. }
    destruct (mul_spec Py.rel_tol (S754_finite s m e) (-29) c eq_refl V Lt La)
      as [Vr Lr].
    { unfold c, fexp, emin in *. lia. }
    destruct (Float.mul Py.rel_tol (S754_finite s m e)) as [sr| | |sr mr er];
      unfold le2 in Lr; try contradiction; try discriminate.
    cbn [Float.abs SFabs] in Hmul. apply leb_pos_cases in Hmul.
    destruct Lr as [Her Hmr].
    pose proof (valid_finite _ _ _ Vr) as [Hcanr _].
    set (dr := Zdigits2 (Z.pos mr)) in *.
    assert (Hk : 0 <= -29 + c - er)
      by (apply (pow2_nonneg_exp (Z.pos mr)); [lia|exact Hmr]).
    assert (Hdr : dr <= -29 + c - er + 1)
      by (apply Zdigits2_le_pow; [lia|exact Hk|exact Hmr]).
    assert (0 < dr) by (apply (Zdigits2_bounds (Z.pos mr)); reflexivity).
    clear V Vr La Lt.
    destruct Hmul as [Hlt|[Heq Hle]].
    + unfold c, fexp, emin in *. lia.
    + assert (d <= dr) by (apply Zdigits2_mono; lia).
      destruct (Z.le_gt_cases (emin + 29) (d + e)) as [Hbig|Hsmall].
      * unfold c, fexp, emin in *. lia.
      * (* both are the least positive float *)
        apply Hnot.
        assert (er = emin) by (unfold c, fexp, emin in *; lia).
        assert (Z.pos mr <= 2 ^ 0).
        { etransitivity; [exact Hmr|]. apply Z.eq_le_incl. f_equal.
          unfold c, emin in *. lia. }
        change (2 ^ 0) with 1 in *. split; [lia|]. unfold emin in *. lia.
Qed.

(** * The encoder *)

Lemma digit_is_digit n : 0 <= n <= 9 -> is_digit (digit n) = true.
Proof.
  intros H. unfold is_digit, digit.
  rewrite nat_ascii_embedding by lia.
  apply andb_true_intro. split; apply Nat.leb_le; lia.
Qed.

Lemma string_of_uint_digits d :
  all_digits (NilEmpty.string_of_uint d) = true.
Proof. induction d; simpl; trivial. Qed.

Lemma decimal_digits n :
  decimal n <> EmptyString /\ all_digits (decimal n) = true.
Proof.
  unfold decimal, NilZero.string_of_uint.
  destruct (N.to_uint (Z.to_N n)) as [|d|d|d|d|d|d|d|d|d|d]; simpl;
    (split; [discriminate|]); trivial; apply string_of_uint_digits.
Qed.

Lemma format_3f_finite x :
  Float.is_finite x = true -> three_decimals (format_3f x).
Proof.
  intros Hx. destruct x as [s| | |s m e]; try discriminate.
  - exists (if s then "-" else "")%string, "0"%string, "000"%string.
    destruct s; simpl; repeat split; auto; discriminate.
  - unfold format_3f.
    set (n := if 0 <=? e then Z.pos m * 2 ^ e * 1000
              else round_half_even (Z.pos m * 1000) (2 ^ (- e))).
    destruct (decimal_digits (n / 1000)) as [Hne Hd].
    eexists (if s then "-" else "")%string, (decimal (n / 1000)), _.
    split; [reflexivity|]. split; [destruct s; auto|].
    split; [exact Hne|]. split; [exact Hd|]. split; [reflexivity|].
    cbn [all_digits].
    pose proof (Z.mod_pos_bound (n / 100) 10 eq_refl).
    pose proof (Z.mod_pos_bound (n / 10) 10 eq_refl).
    pose proof (Z.mod_pos_bound n 10 eq_refl).
    rewrite !digit_is_digit by lia. reflexivity.
Qed.

(** The integer chosen by [round_half_even] is a nearest one. *)
Lemma round_half_even_nearest num den :
  0 < den -> 2 * Z.abs (num - den * round_half_even num den) <= den.
Proof.
  intros Hden. unfold round_half_even.
  pose proof (Z.div_mod num den ltac:(lia)) as Hdm.
  pose proof (Z.mod_pos_bound num den Hden) as Hr.
  destruct (Z.compare_spec (2 * (num mod den)) den) as [Heq|Hlt|Hgt];
    [destruct (Z.even (num / den))| |]; nia.
Qed.

(** On a tie [round_half_even] takes the even neighbour; its result is
    not negative. *)
Lemma round_half_even_tie num den :
  0 < den -> 2 * Z.abs (num - den * round_half_even num den) = den ->
  Z.even (round_half_even num den) = true.
Proof.
  intros Hden. unfold round_half_even.
  pose proof (Z.div_mod num den ltac:(lia)) as Hdm.
  pose proof (Z.mod_pos_bound num den Hden) as Hr.
  destruct (Z.compare_spec (2 * (num mod den)) den) as [Heq|Hlt|Hgt].
  - intros _. destruct (Z.even (num / den)) eqn:E; [exact E|].
    rewrite Z.even_add, E. reflexivity.
  - intros H. exfalso. nia.
  - intros H. exfalso. nia.
Qed.

Lemma round_half_even_nonneg num den :
  0 <= num -> 0 < den -> 0 <= round_half_even num den.
Proof.
  intros Hnum Hden. unfold round_half_even.
  pose proof (Z.div_pos num den Hnum Hden) as Hq.
  destruct (2 * (num mod den) ?= den); [destruct (Z.even (num / den))| |]; lia.
Qed.

(** ** Reading the numerals back *)

Lemma is_digit_not_mark c :
  is_digit c = true -> Ascii.eqb c "-" = false /\ Ascii.eqb c "." = false.
Proof.
  destruct c as [[] [] [] [] [] [] [] []]; intros H;
    try discriminate H; split; reflexivity.
Qed.

Lemma split_at_point_digits before after :
  all_digits before = true ->
  split_at_point (before ++ String "." after) = Some (before, after).
Proof.
  induction before as [|c before IH]; [reflexivity|].
  cbn [all_digits append split_at_point]. intros H.
  apply andb_prop in H. destruct H as [Hc Hrest].
  rewrite (proj2 (is_digit_not_mark c Hc)), (IH Hrest). reflexivity.
Qed.

Lemma read_digits_decimal q : 0 <= q -> read_digits (decimal q) = Some q.
Proof.
  intros Hq. unfold read_digits, decimal.
  assert (H : forall d, match NilZero.uint_of_string (NilZero.string_of_uint d)
                        with
                        | Some d' => Some (Z.of_N (N.of_uint d'))
                        | None => None
                        end = Some (Z.of_N (N.of_uint d))).
  { intros d. destruct (NilZero.usu_gen d) as [E|E]; rewrite E.
    - reflexivity.
    - destruct d; try reflexivity;
        rewrite NilZero.usu in E by discriminate; injection E as E;
        rewrite E; reflexivity. }
  rewrite H, DecimalN.Unsigned.of_to, Z2N.id by exact Hq. reflexivity.
Qed.

Lemma read_three_digits a b c :
  0 <= a <= 9 -> 0 <= b <= 9 -> 0 <= c <= 9 ->
  read_digits (String (digit a) (String (digit b)
                 (String (digit c) EmptyString)))
  = Some (100 * a + 10 * b + c).
Proof.
  intros Ha Hb Hc.
  rewrite <- (Z2Nat.id a), <- (Z2Nat.id b), <- (Z2Nat.id c) by lia.
  assert (Ka : (Z.to_nat a < 10)%nat) by lia.
  assert (Kb : (Z.to_nat b < 10)%nat) by lia.
  assert (Kc : (Z.to_nat c < 10)%nat) by lia.
  revert Ka Kb Kc.
  generalize (Z.to_nat a) (Z.to_nat b) (Z.to_nat c). clear.
  intros ka kb kc Ka Kb Kc.
  do 10 (destruct ka as [|ka];
         [do 10 (destruct kb as [|kb];
                 [do 10 (destruct kc as [|kc]; [reflexivity|]); lia|]);
          lia|]).
  lia.
Qed.

Lemma read_thousandths_signed (negative : bool) body :
  all_digits body = true -> body <> EmptyString ->
  forall rest,
    read_thousandths ((if negative then "-" else "") ++ body ++ rest)
    = match split_at_point (body ++ rest) with
      | Some (int_part, frac_part) =>
          if (String.length frac_part =? 3)%nat
          then match read_digits int_part, read_digits frac_part with
               | Some i, Some f => Some (negative, i * 1000 + f)
               | _, _ => None
               end
          else None
      | None => None
      end.
Proof.
  intros Hd Hne rest. destruct body as [|c body]; [congruence|].
  cbn [all_digits] in Hd. apply andb_prop in Hd. destruct Hd as [Hc _].
  unfold read_thousandths. destruct negative; cbn [append].
  - reflexivity.
  - rewrite (proj1 (is_digit_not_mark c Hc)). reflexivity.
Qed.

Lemma thousandths_digits n :
  0 <= n ->
  n / 1000 * 1000 + (100 * (n / 100 mod 10) + 10 * (n / 10 mod 10) + n mod 10)
  = n.
Proof. intros Hn. Z.div_mod_to_equations. lia. Qed.

(** The numeral written for a finite non-zero float reads back as the
    float's sign and its magnitude rounded to three decimals. *)
Lemma format_3f_reads_back s m e :
  exists n,
    read_thousandths (format_3f (S754_finite s m e)) = Some (s, n)
    /\ rounds_to_thousandths m e n.
Proof.
  unfold format_3f.
  set (n := if 0 <=? e then Z.pos m * 2 ^ e * 1000
            else round_half_even (Z.pos m * 1000) (2 ^ (- e))).
  assert (Hr : rounds_to_thousandths m e n).
  { unfold rounds_to_thousandths, n. cbv zeta.
    destruct (Z.leb_spec 0 e) as [He|He].
    - rewrite (Z.max_r 0 e), (Z.max_l 0 (- e)) by lia.
      pose proof (pow2_pos e He) as Hp. change (2 ^ 0) with 1.
      replace (Z.pos m * 1000 * 2 ^ e - 1 * (Z.pos m * 2 ^ e * 1000))
        with 0 by ring.
      split; [nia|]. split; [simpl; lia|]. simpl. lia.
    - rewrite (Z.max_l 0 e), (Z.max_r 0 (- e)) by lia.
      pose proof (pow2_pos (- e) ltac:(lia)) as Hp. change (2 ^ 0) with 1.
      rewrite Z.mul_1_r.
      split; [apply round_half_even_nonneg; lia|].
      split; [apply round_half_even_nearest, Hp|].
      apply round_half_even_tie, Hp. }
  exists n. split; [|exact Hr].
  destruct Hr as (Hn & _).
  destruct (decimal_digits (n / 1000)) as [Hne Hd].
  rewrite (read_thousandths_signed s (decimal (n / 1000)) Hd Hne).
  rewrite (split_at_point_digits _ _ Hd). cbn [String.length Nat.eqb].
  rewrite read_digits_decimal by (apply Z.div_pos; lia).
  pose proof (Z.mod_pos_bound (n / 100) 10 eq_refl).
  pose proof (Z.mod_pos_bound (n / 10) 10 eq_refl).
  pose proof (Z.mod_pos_bound n 10 eq_refl).
  rewrite read_three_digits by lia.
  rewrite (thousandths_digits n Hn). reflexivity.
Qed.

Lemma append_nil_r (s : string) : (s ++ "")%string = s.
Proof. induction s as [|c s IH]; simpl; congruence. Qed.

Lemma append_assoc (s t u : string) :
  ((s ++ t) ++ u)%string = (s ++ (t ++ u))%string.
Proof. induction s as [|c s IH]; simpl; congruence. Qed.

Lemma concat_empty_cons (x : string) (xs : list string) :
  String.concat "" (x :: xs) = (x ++ String.concat "" xs)%string.
Proof.
  destruct xs as [|y ys]; cbn [String.concat].
  - symmetry. apply append_nil_r.
  - reflexivity.
Qed.

(** Joining with a separator puts the separator in front of every
    segment but the first. *)
Lemma concat_segments sep first rest :
  String.concat sep (first :: rest)
  = (first ++ String.concat "" (map (fun s => sep ++ s) rest))%string.
Proof.
  revert first. induction rest as [|s rest IH]; intros first.
  - simpl. symmetry. apply append_nil_r.
  - change (String.concat sep (first :: s :: rest))
      with (first ++ sep ++ String.concat sep (s :: rest))%string.
    rewrite IH. cbn [map]. rewrite concat_empty_cons, append_assoc.
    reflexivity.
Qed.

(** C1: the encoder raises on the empty sequence (the source's
    [ValueError], which the specification names [EmptyCurveError]) and
    returns no path string, empty or otherwise. *)
Theorem points_to_path_empty :
  points_to_path []
  = inl (ValueError "Cannot build a path from an empty sequence of points")
  /\ forall path, points_to_path [] <> inr path.
Proof. split; [reflexivity|]. intros path. discriminate. Qed.

(** C6: the encoder writes the first point as a move-to command and
    every later point as a line-to command, in input order; every finite
    coordinate is written with exactly three decimals, and what is
    written is the coordinate itself: read back, the numeral gives the
    sign of the float and its magnitude rounded to the nearest
    thousandth, ties to the even one.  The two points (10, 20) and
    (30, 40) give ["M 10.000 20.000 L 30.000 40.000"]; the points
    (-4, 0.0625) and (1277.4193548387098, 0.1875) give
    ["M -4.000 0.062 L 1277.419 0.188"]. *)
Theorem points_to_path_encoding :
  (forall first rest,
      points_to_path (first :: rest)
      = inr (move_to first
             ++ String.concat "" (map (fun p => " " ++ line_to p) rest))%string)
  /\ (forall x, Float.is_finite x = true -> three_decimals (format_3f x))
  /\ points_to_path [(Float.of_Z 10, Float.of_Z 20);
                     (Float.of_Z 30, Float.of_Z 40)]
     = inr "M 10.000 20.000 L 30.000 40.000"%string
  /\ (forall s m e,
        exists n,
          read_thousandths (format_3f (S754_finite s m e)) = Some (s, n)
          /\ rounds_to_thousandths m e n)
  /\ (forall s, read_thousandths (format_3f (S754_zero s)) = Some (s, 0))
  /\ points_to_path [(Float.of_Z (-4), pow2f (-4));
                     (Float.lit 5618149736765110 (-42),
                      Float.lit 6755399441055744 (-55))]
     = inr "M -4.000 0.062 L 1277.419 0.188"%string.
Proof.
  split; [|split; [exact format_3f_finite|]].
  { intros first rest. unfold points_to_path, ret. f_equal.
    cbn [app]. rewrite concat_segments, map_map. reflexivity. }
  split; [vm_compute; reflexivity|].
  split; [exact format_3f_reads_back|].
  split; [intros []; reflexivity|].
  vm_compute. reflexivity.
Qed.

Lemma points_to_path_encoding_witness :
  three_decimals (format_3f (Float.lit 5618149736765110 (-42))).
Proof.
  apply (proj1 (proj2 points_to_path_encoding)). reflexivity.
Defined.

(** * The scaler on the empty curve *)

(** C8: scaling the empty curve returns the empty curve and raises
    nothing, whatever the configuration (the test comes before any
    arithmetic, so even a canvas size too large for a float does not
    matter); and only the empty curve is scaled to the empty curve. *)
Theorem scale_points_empty (config : SpiroConfig) :
  scale_points [] config = inr []
  /\ forall points, scale_points points config = inr [] -> points = [].
Proof.
  split; [reflexivity|]. intros points H.
  destruct points as [|p rest]; [reflexivity|]. exfalso.
  destruct (Py.int_truediv (canvas_size config) 2) as [e|half] eqn:E.
  - unfold scale_points in H. destruct (extent config).
    rewrite E in H. discriminate.
  - rewrite (scale_points_spec _ _ _ E) in H. discriminate.
Qed.

(** * The pipeline *)

Lemma length_range n : List.length (Py.range n) = Z.to_nat n.
Proof. unfold Py.range. rewrite length_map, length_seq. reflexivity. Qed.

Lemma nth_error_range n i :
  (i < Z.to_nat n)%nat -> nth_error (Py.range n) i = Some (Z.of_nat i).
Proof.
  intros Hi. unfold Py.range.
  rewrite nth_error_map, nth_error_seq.
  destruct (Nat.ltb_spec i (Z.to_nat n)); [reflexivity|lia].
Qed.

Section PipelineProperties.

Variables libm_cos libm_sin : float -> float.

Lemma generate_points_loop_geometry c1 c2 indices points :
  same_geometry c1 c2 ->
  generate_points_loop libm_cos libm_sin c1 indices points
  = generate_points_loop libm_cos libm_sin c2 indices points.
Proof.
  intros (HR & Hr & Hd & Ht & _ & _ & Hs). revert points.
  induction indices as [|index rest IH]; intros points; [reflexivity|].
  cbn [generate_points_loop].
  unfold _hypotrochoid_point, _epitrochoid_point.
  rewrite HR, Hr, Hd, Ht, Hs.
  destruct (Py.int_to_float index); [reflexivity|]. cbn [bind].
  match goal with
  | |- bind ?c _ = bind ?c _ => destruct c; [reflexivity|]
  end.
  cbn [bind]. apply IH.
Qed.

(** X22: the path depends on the geometric fields only: on two
    configurations that differ at most in [stroke_width] and
    [stroke_color] the pipeline returns the same path string, or raises
    the same exception. *)
Theorem generate_path_ignores_style (c1 c2 : SpiroConfig) :
  same_geometry c1 c2 ->
  generate_path libm_cos libm_sin c1 = generate_path libm_cos libm_sin c2.
Proof.
  intros Hg. pose proof Hg as (HR & Hr & Hd & Ht & Hc & Hz & Hs).
  unfold generate_path.
  assert (Hgen : generate_points libm_cos libm_sin c1
                 = generate_points libm_cos libm_sin c2).
  { assert (Hst : steps c1 = steps c2)
      by (unfold steps, total_angle; rewrite Hc, Ht; reflexivity).
    unfold generate_points. rewrite Hst.
    destruct (steps c2) as [e|n]; [reflexivity|]. cbn [bind].
    apply generate_points_loop_geometry, Hg. }
  rewrite Hgen. destruct (generate_points libm_cos libm_sin c2) as [e|pts];
    [reflexivity|]. cbn [bind].
  assert (Hsc : scale_points pts c1 = scale_points pts c2).
  { unfold scale_points, extent. rewrite HR, Hr, Hd, Hz, Hs. reflexivity. }
  rewrite Hsc. reflexivity.
Qed.

Hypothesis libm_cos_finite :
  forall x, Float.is_finite x = true -> Float.is_finite (libm_cos x) = true.
Hypothesis libm_sin_finite :
  forall x, Float.is_finite x = true -> Float.is_finite (libm_sin x) = true.


(** C9: on a valid configuration the sampler returns at least two
    points, and the pipeline returns a path: it does not raise, and in
    particular not the encoder's empty-sequence error. *)
Theorem generate_path_never_empty (config : SpiroConfig) :
  valid_config config = true ->
  exists points path,
    generate_points libm_cos libm_sin config = inr points
    /\ (2 <= List.length points)%nat
    /\ generate_path libm_cos libm_sin config = inr path
    /\ generate_path libm_cos libm_sin config
       <> inl (ValueError
                 "Cannot build a path from an empty sequence of points").
Proof.
  intros Hv.
  destruct (generate_points_spec libm_cos libm_sin libm_cos_finite
              libm_sin_finite config Hv) as (f & Hf & Hgen).
  destruct (scale_bounds config Hv) as (half & Hhalf & _).
  pose proof (scale_points_spec
                (map (sample_point libm_cos libm_sin config)
                     (Py.range (Z.max 1 f + 1))) config half Hhalf) as Hsc.
  assert (Hlen : (2 <= List.length (Py.range (Z.max 1 f + 1)))%nat)
    by (rewrite length_range; lia).
  destruct (Py.range (Z.max 1 f + 1)) as [|i0 rest] eqn:Er;
    [simpl in Hlen; lia|].
  eexists. eexists. split; [exact Hgen|].
  split; [rewrite length_map; exact Hlen|].
  assert (Hpath : generate_path libm_cos libm_sin config
                  = inr (String.concat " "
                           (move_to (transform half (spec_scale config half)
                                       (sample_point libm_cos libm_sin config i0))
                            :: map line_to
                                 (map (transform half (spec_scale config half))
                                    (map (sample_point libm_cos libm_sin config)
                                       rest))))).
  { unfold generate_path. rewrite Hgen. cbn [bind]. rewrite Hsc. reflexivity. }
  split; [exact Hpath|]. rewrite Hpath. discriminate.
Qed.

(** C5: on a valid hypotrochoid configuration, sample [i] is the point
    of the parametric equations at the angle [i * theta_step]; with
    radii 180 and 75 and pen offset 40, the first point is
    (145.0, 0.0), the C library giving [cos 0 = 1] and [sin 0 = 0]. *)
Theorem hypotrochoid_samples (config : SpiroConfig) :
  valid_config config = true ->
  spiro_type config = HYPOTROCHOID ->
  exists points,
    generate_points libm_cos libm_sin config = inr points
    /\ (forall i, (i < List.length points)%nat ->
         nth_error points i
         = Some (spec_hypotrochoid libm_cos libm_sin config
                   (Float.mul (Float.of_Z (Z.of_nat i)) (theta_step config))))
    /\ (outer_radius config = Float.of_Z 180 ->
        inner_radius config = Float.of_Z 75 ->
        pen_offset config = Float.of_Z 40 ->
        libm_cos Float.zero = Float.one ->
        libm_sin Float.zero = Float.zero ->
        nth_error points 0 = Some (Float.of_Z 145, Float.zero)).
Proof.
  intros Hv Hty.
  destruct (generate_points_spec libm_cos libm_sin libm_cos_finite
              libm_sin_finite config Hv) as (f & Hf & Hgen).
  eexists. split; [exact Hgen|].
  assert (Hnth : forall i,
             (i < List.length (map (sample_point libm_cos libm_sin config)
                            (Py.range (Z.max 1 f + 1))))%nat ->
             nth_error (map (sample_point libm_cos libm_sin config)
                          (Py.range (Z.max 1 f + 1))) i
             = Some (spec_hypotrochoid libm_cos libm_sin config
                       (Float.mul (Float.of_Z (Z.of_nat i)) (theta_step config)))).
  { intros i Hi. rewrite length_map, length_range in Hi.
    rewrite nth_error_map, nth_error_range by exact Hi.
    unfold sample_point. rewrite Hty. reflexivity. }
  split; [exact Hnth|].
  intros HR Hr Hd Hcos Hsin.
  rewrite Hnth by (rewrite length_map, length_range; lia).
  destruct (valid_config_fields config Hv) as (_ & _ & _ & Hth & _ & _).
  destruct (in_range_bounds _ Hth) as (_ & (m & e & Eth) & _ & _).
  unfold spec_hypotrochoid. rewrite HR, Hr, Hd, Eth.
  change (Float.mul (Float.of_Z (Z.of_nat 0)) (S754_finite false m e))
    with Float.zero.
  change (Float.mul (Float.div (Float.sub (Float.of_Z 180) (Float.of_Z 75))
                       (Float.of_Z 75)) Float.zero) with Float.zero.
  rewrite Hcos, Hsin. vm_compute. reflexivity.
Qed.

End PipelineProperties.

(** * The scale transform *)

Lemma nth_error_transform half_canvas scale points i p :
  nth_error points i = Some p ->
  nth_error (map (transform half_canvas scale) points) i
  = Some (transform half_canvas scale p).
Proof. intros H. rewrite nth_error_map, H. reflexivity. Qed.

(** C10: on a valid configuration, a raw point at the origin (both
    coordinates zero) is mapped to exactly (canvas_size / 2,
    canvas_size / 2), wherever it stands in the sequence and whatever
    the curve kind and the extent. *)
Theorem origin_to_center (config : SpiroConfig) (points : list Point)
    (i : nat) (s1 s2 : bool) :
  valid_config config = true ->
  nth_error points i = Some (S754_zero s1, S754_zero s2) ->
  exists half_canvas scaled,
    Py.int_truediv (canvas_size config) 2 = inr half_canvas
    /\ scale_points points config = inr scaled
    /\ nth_error scaled i = Some (half_canvas, half_canvas).
Proof.
  intros Hv Hi.
  destruct (scale_bounds config Hv) as (half & Hhalf & _ & _ & Sh & _ & Ls).
  exists half. eexists. split; [exact Hhalf|].
  split; [apply scale_points_spec, Hhalf|].
  rewrite (nth_error_transform _ _ _ _ _ Hi).
  rewrite (transform_origin half _ s1 s2 199 Sh Ls). reflexivity.
Qed.

Lemma origin_to_center_witness :
  exists half_canvas scaled,
    Py.int_truediv (canvas_size default_config) 2 = inr half_canvas
    /\ scale_points [(Float.of_Z 145, Float.zero); (Float.zero, Float.zero)]
         default_config = inr scaled
    /\ nth_error scaled 1 = Some (half_canvas, half_canvas).
Proof.
  apply (origin_to_center default_config
           [(Float.of_Z 145, Float.zero); (Float.zero, Float.zero)]
           1 false false); reflexivity.
Defined.


(** X23: on a valid configuration, of zero span or not, the scaler
    raises nothing, no division error in particular, and sends points
    whose coordinates are well-formed and of magnitude at most [2 ^ b]
    to finite points of magnitude at most [2 ^ (b + 200)]. *)
Theorem scale_points_bounded (config : SpiroConfig) (points : list Point)
    (b : Z) :
  valid_config config = true ->
  0 <= b <= 800 ->
  Forall (point_le2 b) points ->
  exists half_canvas scaled,
    Py.int_truediv (canvas_size config) 2 = inr half_canvas
    /\ scale_points points config = inr scaled
    /\ List.length scaled = List.length points
    /\ Forall (point_le2 (b + 200)) scaled.
Proof.
  intros Hv Hb Hpts.
  destruct (scale_bounds config Hv) as (half & Hhalf & Vh & Lh & _ & Vs & Ls).
  exists half. eexists. split; [exact Hhalf|].
  split; [apply scale_points_spec, Hhalf|]. split; [apply length_map|].
  apply Forall_map. revert Hpts. apply Forall_impl. intros p Hp.
  apply transform_bounds; trivial.
Qed.

Lemma scale_points_bounded_witness :
  exists half_canvas scaled,
    Py.int_truediv (canvas_size degenerate_config) 2 = inr half_canvas
    /\ scale_points [(Float.of_Z 3, Float.of_Z (-4))] degenerate_config
       = inr scaled
    /\ List.length scaled = 1%nat
    /\ Forall (point_le2 (2 + 200)) scaled.
Proof.
  apply (scale_points_bounded degenerate_config
           [(Float.of_Z 3, Float.of_Z (-4))] 2).
  - reflexivity.
  - lia.
  - apply Forall_cons; [|apply Forall_nil].
    vm_compute. repeat split; easy.
Defined.

(** C2, as stated, fails: on the default configuration the point at the
    mean of the extent values (142.5) is sent to about 1277.42 in both
    coordinates, not to the centre 450 of the canvas, and not within
    [math.isclose] of it. *)
Lemma centering_counterexample :
  ~ (exists x y,
        scale_points [(mean_extent default_config, mean_extent default_config)]
          default_config = inr [(x, y)]
        /\ Py.isclose x (Float.of_Z 450) = true
        /\ Py.isclose y (Float.of_Z 450) = true).
Proof.
  intros (x & y & H & Hx & _). vm_compute in H.
  injection H as <- <-. vm_compute in Hx. discriminate.
Qed.

(** C2, amended: on a valid configuration the point at the mean [m] of
    the extent values is sent to [canvas_size / 2 + m * scale] in both
    coordinates, with [scale = (canvas_size / 2) / max(span / 2, 1.0)];
    the point sent to exactly (canvas_size / 2, canvas_size / 2) is the
    raw origin. *)
Theorem centering_amended (config : SpiroConfig) :
  valid_config config = true ->
  exists half_canvas,
    Py.int_truediv (canvas_size config) 2 = inr half_canvas
    /\ scale_points [(mean_extent config, mean_extent config)] config
       = inr [(Float.add half_canvas
                 (Float.mul (mean_extent config)
                    (spec_scale config half_canvas)),
               Float.add half_canvas
                 (Float.mul (mean_extent config)
                    (spec_scale config half_canvas)))]
    /\ scale_points [(Float.zero, Float.zero)] config
       = inr [(half_canvas, half_canvas)].
Proof.
  intros Hv.
  destruct (scale_bounds config Hv) as (half & Hhalf & _ & _ & Sh & _ & Ls).
  exists half. split; [exact Hhalf|].
  rewrite !(scale_points_spec _ config half Hhalf). split; [reflexivity|].
  cbn [map]. do 2 f_equal.
  exact (transform_origin half _ false false 199 Sh Ls).
Qed.

Lemma centering_amended_witness :
  exists half_canvas,
    Py.int_truediv (canvas_size default_config) 2 = inr half_canvas
    /\ scale_points [(mean_extent default_config, mean_extent default_config)]
         default_config
       = inr [(Float.add half_canvas
                 (Float.mul (mean_extent default_config)
                    (spec_scale default_config half_canvas)),
               Float.add half_canvas
                 (Float.mul (mean_extent default_config)
                    (spec_scale default_config half_canvas)))]
    /\ scale_points [(Float.zero, Float.zero)] default_config
       = inr [(half_canvas, half_canvas)].
Proof. apply (centering_amended default_config). reflexivity. Defined.

(** * The statements at the sample data *)

Lemma const_cos_finite x :
  Float.is_finite x = true -> Float.is_finite (const_cos x) = true.
Proof. intros _. reflexivity. Qed.

Lemma const_sin_finite x :
  Float.is_finite x = true -> Float.is_finite (const_sin x) = true.
Proof. intros _. reflexivity. Qed.

Lemma generate_path_ignores_style_witness :
  generate_path const_cos const_sin default_config
  = generate_path const_cos const_sin restyled_config.
Proof.
  apply generate_path_ignores_style. unfold same_geometry. repeat split.
Defined.


Lemma generate_path_never_empty_witness :
  exists points path,
    generate_points const_cos const_sin default_config = inr points
    /\ (2 <= List.length points)%nat
    /\ generate_path const_cos const_sin default_config = inr path
    /\ generate_path const_cos const_sin default_config
       <> inl (ValueError
                 "Cannot build a path from an empty sequence of points").
Proof.
  apply (generate_path_never_empty const_cos const_sin const_cos_finite
           const_sin_finite default_config).
  reflexivity.
Defined.

Lemma hypotrochoid_samples_witness :
  exists points,
    generate_points const_cos const_sin default_config = inr points
    /\ (forall i, (i < List.length points)%nat ->
         nth_error points i
         = Some (spec_hypotrochoid const_cos const_sin default_config
                   (Float.mul (Float.of_Z (Z.of_nat i))
                      (theta_step default_config))))
    /\ nth_error points 0 = Some (Float.of_Z 145, Float.zero).
Proof.
  destruct (hypotrochoid_samples const_cos const_sin const_cos_finite
              const_sin_finite default_config eq_refl eq_refl)
    as (points & Hgen & Hnth & Hfirst).
  exists points. split; [exact Hgen|]. split; [exact Hnth|].
  apply Hfirst; reflexivity.
Defined.

(** * Scenarios of the specification *)

(** The default configuration takes 6283 steps. *)
Example default_steps : steps default_config = inr 6283.
Proof. vm_compute. reflexivity. Qed.

(** The default configuration is within the ranges of the command
    line. *)
Example default_in_knob_ranges : knob_ranges default_config = true.
Proof. vm_compute. reflexivity. Qed.

(** * Further facts *)

(** ** The exceptions of the sampler *)

Lemma math_1_error f x e : Py.math_1 f x = inl e -> sampler_error e.
Proof.
  unfold Py.math_1, sampler_error.
  destruct (Float.is_nan (f x) && negb (Float.is_nan x));
    [intros [= <-]; auto|].
  destruct (Float.is_inf (f x) && Float.is_finite x);
    [intros [= <-]; auto|discriminate].
Qed.

Lemma float_truediv_error a b e :
  Py.float_truediv a b = inl e -> e = ZeroDivisionError.
Proof.
  unfold Py.float_truediv. destruct (Float.eqb b Float.zero);
    [intros [= <-]; reflexivity|discriminate].
Qed.

Lemma int_to_float_error n e : Py.int_to_float n = inl e -> e = OverflowError.
Proof.
  unfold Py.int_to_float. destruct (Float.is_inf (Float.of_Z n));
    [intros [= <-]; reflexivity|discriminate].
Qed.

Lemma int_of_float_error x e : Py.int_of_float x = inl e -> sampler_error e.
Proof.
  unfold sampler_error. destruct x; simpl; intros [= <-]; auto.
Qed.

Lemma bind_inl {A B} (c : result A) (k : A -> result B) e :
  bind c k = inl e -> c = inl e \/ exists a, c = inr a /\ k a = inl e.
Proof. destruct c as [e'|a]; simpl; intros H; [left; congruence|right; eauto]. Qed.

Lemma bind_inr {A B} (c : result A) (k : A -> result B) b :
  bind c k = inr b -> exists a, c = inr a /\ k a = inr b.
Proof. destruct c as [e'|a]; simpl; intros H; [discriminate|eauto]. Qed.

Section SamplerErrors.
Variables libm_cos libm_sin : float -> float.

Lemma point_error theta config e :
  (_hypotrochoid_point libm_cos libm_sin theta config = inl e -> sampler_error e)
  /\ (_epitrochoid_point libm_cos libm_sin theta config = inl e -> sampler_error e).
Proof.
  assert (Hz : sampler_error ZeroDivisionError) by (left; reflexivity).
  split; unfold _hypotrochoid_point, _epitrochoid_point, math_cos, math_sin;
    cbv zeta; intros H;
    repeat (apply bind_inl in H;
            destruct H as [H|(? & _ & H)];
            [first [ apply math_1_error in H; exact H
                   | apply float_truediv_error in H; subst e; exact Hz ]|]);
    discriminate.
Qed.

Lemma generate_points_loop_result config indices points :
  (forall e, generate_points_loop libm_cos libm_sin config indices points = inl e ->
             sampler_error e)
  /\ (forall out, generate_points_loop libm_cos libm_sin config indices points = inr out ->
                  List.length out = (List.length points + List.length indices)%nat).
Proof.
  revert points. induction indices as [|index rest IH]; intros points.
  - split; [discriminate|]. intros out [= <-]. simpl. lia.
  - cbn [generate_points_loop]. split.
    + intros e H.
      apply bind_inl in H. destruct H as [H|(i & _ & H)].
      { apply int_to_float_error in H. subst e. right. left. reflexivity. }
      apply bind_inl in H. destruct H as [H|(p & _ & H)].
      { destruct (spiro_type config); apply point_error in H; exact H. }
      apply (proj1 (IH _)) in H. exact H.
    + intros out H.
      apply bind_inr in H. destruct H as (i & _ & H).
      apply bind_inr in H. destruct H as (p & _ & H).
      apply (proj2 (IH _)) in H. rewrite H, length_app. simpl. lia.
Qed.
End SamplerErrors.

(** ** Half the canvas size *)

Lemma int_truediv_2_error n e :
  Py.int_truediv n 2 = inl e -> e = OverflowError.
Proof.
  unfold Py.int_truediv. destruct n as [|p|p]; [discriminate| |];
    match goal with
    | |- (if ?c then _ else _) = _ -> _ =>
        destruct c; [intros [= <-]; reflexivity|discriminate]
    end.
Qed.

(** [n / 2] exists for every integer up to [2 ^ 1024] in magnitude. *)
Lemma int_truediv_2_total n :
  Z.abs n <= 2 ^ 1024 ->
  exists half,
    Py.int_truediv n 2 = inr half
    /\ Float.valid half = true /\ le2 1023 half.
Proof.
  intros Hn.
  assert (Hdiv : forall s p, Z.pos p <= 2 ^ 1024 ->
            let x := Float.div (S754_finite s p 0) (S754_finite false 2 0) in
            Float.is_inf x = false /\ Float.valid x = true /\ le2 1023 x).
  { intros s p Hp. cbv zeta.
    destruct (div_spec (S754_finite s p 0) (S754_finite false 2 0) 1024 1)
      as [V L].
    - unfold le2. split; [lia|]. rewrite Z.sub_0_r. exact Hp.
    - unfold ge2. apply Z.leb_le. reflexivity.
    - unfold emin. lia.
    - split; [exact (le2_not_inf _ _ L)|]. split; assumption. }
  destruct n as [|p|p].
  - exists (S754_zero false). repeat split.
  - destruct (Hdiv false p Hn) as (I & V & L).
    exists (Float.div (S754_finite false p 0) (S754_finite false 2 0)).
    split; [|split; assumption].
    change (Py.int_truediv (Z.pos p) 2)
      with (let x := Float.div (S754_finite false p 0) (S754_finite false 2 0) in
            if Float.is_inf x then raise OverflowError else ret x).
    cbv zeta. rewrite I. reflexivity.
  - destruct (Hdiv true p Hn) as (I & V & L).
    exists (Float.div (S754_finite true p 0) (S754_finite false 2 0)).
    split; [|split; assumption].
    change (Py.int_truediv (Z.neg p) 2)
      with (let x := Float.div (S754_finite true p 0) (S754_finite false 2 0) in
            if Float.is_inf x then raise OverflowError else ret x).
    cbv zeta. rewrite I. reflexivity.
Qed.

Lemma scale_points_error points config e :
  scale_points points config = inl e ->
  points <> [] /\ Py.int_truediv (canvas_size config) 2 = inl e.
Proof.
  intros H. destruct points as [|p rest]; [discriminate|].
  split; [discriminate|].
  destruct (Py.int_truediv (canvas_size config) 2) as [e'|half] eqn:E.
  - unfold scale_points in H. destruct (extent config).
    rewrite E in H. cbn [bind] in H. injection H as <-. reflexivity.
  - rewrite (scale_points_spec _ _ _ E) in H. discriminate.
Qed.

(** ** Well-formedness without bounds *)

Lemma add_sub_valid x y :
  Float.valid x = true -> Float.valid y = true ->
  Float.valid (Float.add x y) = true /\ Float.valid (Float.sub x y) = true.
Proof.
  intros Vx Vy.
  destruct x as [sx|sx| |sx mx ex], y as [sy|sy| |sy my ey];
    try (split; try destruct sx; try destruct sy; simpl; trivial; fail).
  split; unfold Float.add, Float.sub, SFadd, SFsub;
    apply binary_normalize_spec.
Qed.

(** ** The first index *)

Lemma range_first n : 0 <= n -> exists rest, Py.range (n + 1) = 0 :: rest.
Proof.
  intros Hn. unfold Py.range.
  replace (Z.to_nat (n + 1)) with (S (Z.to_nat n)) by lia.
  simpl. eauto.
Qed.

(** ** What the sampler and the scaler return *)

Lemma steps_result config :
  (forall e, steps config = inl e -> sampler_error e)
  /\ (forall n, steps config = inr n -> 1 <= n).
Proof.
  unfold steps. split.
  - intros e H.
    apply bind_inl in H. destruct H as [H|(q & _ & H)].
    { apply float_truediv_error in H. left. exact H. }
    apply bind_inl in H. destruct H as [H|(n & _ & H)].
    { apply int_of_float_error in H. exact H. }
    discriminate.
  - intros n H.
    apply bind_inr in H. destruct H as (q & _ & H).
    apply bind_inr in H. destruct H as (k & _ & H).
    injection H as <-. rewrite max_int_max. lia.
Qed.

Lemma scale_points_result points config scaled :
  scale_points points config = inr scaled ->
  exists half_canvas scale, scaled = map (transform half_canvas scale) points.
Proof.
  intros H. destruct points as [|p rest].
  - injection H as <-. exists Float.zero, Float.zero. reflexivity.
  - destruct (Py.int_truediv (canvas_size config) 2) as [e|half] eqn:E.
    + unfold scale_points in H. destruct (extent config).
      rewrite E in H. discriminate.
    + rewrite (scale_points_spec _ _ _ E) in H. injection H as <-.
      exists half, (spec_scale config half). reflexivity.
Qed.

Section SamplerResult.

Variables libm_cos libm_sin : float -> float.

Lemma generate_points_result config :
  (forall e, generate_points libm_cos libm_sin config = inl e ->
             sampler_error e)
  /\ (forall points,
         generate_points libm_cos libm_sin config = inr points ->
         exists n, steps config = inr n /\ 1 <= n
                   /\ List.length points = Z.to_nat (n + 1)).
Proof.
  unfold generate_points. split.
  - intros e H. apply bind_inl in H. destruct H as [H|(n & _ & H)].
    + apply (proj1 (steps_result config)) in H. exact H.
    + apply (proj1 (generate_points_loop_result _ _ _ _ _)) in H. exact H.
  - intros points H. apply bind_inr in H. destruct H as (n & Hn & H).
    apply (proj2 (generate_points_loop_result _ _ _ _ _)) in H.
    exists n. split; [exact Hn|].
    split; [exact (proj2 (steps_result config) n Hn)|].
    rewrite H, length_range. reflexivity.
Qed.

End SamplerResult.

(** ** Magnitudes from comparisons with a literal *)

Lemma leb_le2 m e mh eh c :
  Float.valid (S754_finite false m e) = true ->
  Float.leb (S754_finite false m e) (S754_finite false mh eh) = true ->
  eh + 53 <= c -> le2 c (S754_finite false m e).
Proof.
  intros V H Hc. apply leb_pos_cases in H.
  pose proof (valid_mantissa _ _ _ V) as Hm. clear V.
  unfold le2. split; [lia|].
  assert (2 ^ 53 <= 2 ^ (c - e)) by (apply pow2_le_mono; lia). lia.
Qed.

Lemma leb_ge2 ml el m e c :
  Float.valid (S754_finite false m e) = true ->
  Float.leb (S754_finite false ml el) (S754_finite false m e) = true ->
  emin < el -> c <= el + 52 -> ge2 c (S754_finite false m e).
Proof.
  intros V H Hel Hc. apply leb_pos_cases in H.
  assert (He : emin < e) by lia.
  pose proof (valid_normal _ _ _ V He) as Hm. clear V.
  unfold ge2. destruct (Z.le_gt_cases 0 (c - e)).
  - assert (2 ^ (c - e) <= 2 ^ 52) by (apply pow2_le_mono; lia). lia.
  - rewrite Z.pow_neg_r by lia. lia.
Qed.

(** ** The step count under sharper bounds *)

Lemma steps_bound config a b :
  Float.valid (cycles config) = true -> le2 a (cycles config) ->
  ge2 b (theta_step config) -> 0 <= 3 + a - b <= 1023 ->
  emin <= 3 + a <= 1023 ->
  forall n, steps config = inr n -> n <= 2 ^ (3 + a - b).
Proof.
  intros Vc Lc Gt Hab Ha n Hn.
  destruct two_pi_bounds as (V2 & L2 & _).
  destruct (mul_spec _ _ 3 a V2 Vc L2 Lc Ha) as [Vt Lt].
  fold (total_angle config) in Vt, Lt.
  destruct (float_truediv_spec _ _ (3 + a) b Lt Gt ltac:(unfold emin; lia))
    as (Ediv & Vq & Lq).
  destruct (int_of_float_spec _ (3 + a - b) ltac:(lia) Lq) as (k & Hk & Bk).
  unfold steps in Hn. rewrite Ediv in Hn. cbn [bind] in Hn.
  rewrite Hk in Hn. cbn [bind] in Hn. injection Hn as <-.
  rewrite max_int_max.
  pose proof (pow2_pos (3 + a - b) ltac:(lia)). lia.
Qed.

Lemma knob_ranges_fields config :
  knob_ranges config = true ->
  between (Float.lit 4611686018427388 (-62))
          (Float.lit 7205759403792794 (-55)) (theta_step config) = true
  /\ between (Float.of_Z 1) (Float.of_Z 60) (cycles config) = true.
Proof.
  unfold knob_ranges. intros H.
  do 6 (apply andb_prop in H; let H' := fresh "H" in destruct H as [H H']).
  split; assumption.
Qed.

Lemma between_fields lo hi x :
  between lo hi x = true ->
  Float.valid x = true /\ Float.leb lo x = true /\ Float.leb x hi = true.
Proof.
  unfold between. intros H.
  apply andb_prop in H. destruct H as [H Hhi].
  apply andb_prop in H. destruct H as [V Hlo]. auto.
Qed.

(** ** The sampler with a negative step *)

(** A quotient of a positive float by a negative one is not positive. *)
Lemma div_neg_sign mx ex my ey :
  match Float.div (S754_finite false mx ex) (S754_finite true my ey) with
  | S754_zero s' | S754_infinity s' | S754_finite s' _ _ => s' = true
  | S754_nan => True
  end.
Proof.
  unfold Float.div, SFdiv.
  destruct (SFdiv_core_binary Float.prec Float.emax (Z.pos mx) ex (Z.pos my) ey)
    as [[mz ez] lz].
  apply (binary_round_aux_sign (xorb false true)).
Qed.

Lemma steps_negative_step config :
  valid_config (with_step config (Float.abs (theta_step config))) = true ->
  Float.ltb (theta_step config) Float.zero = true ->
  steps config = inr 1.
Proof.
  intros Hv Hneg.
  destruct (total_angle_spec _ Hv) as (Vt & Lt & St).
  change (total_angle (with_step config (Float.abs (theta_step config))))
    with (total_angle config) in Vt, Lt, St.
  destruct (valid_config_fields _ Hv) as (_ & _ & _ & Hth & _ & _).
  cbn [with_step theta_step] in Hth.
  destruct (in_range_bounds _ Hth) as (_ & _ & Gh & _).
  destruct (theta_step config) as [s|s| |s mh eh] eqn:Eh;
    try (exfalso; exact Gh).
  destruct s; [|discriminate].
  assert (Gh' : ge2 (-200) (S754_finite true mh eh)) by exact Gh.
  destruct (float_truediv_spec _ _ 203 (-200) Lt Gh' ltac:(unfold emin; lia))
    as (Ediv & Vq & Lq).
  unfold steps. rewrite Eh, Ediv. cbn [bind].
  destruct St as [Et|(mt & et & Et)]; rewrite Et in *.
  - reflexivity.
  - pose proof (div_neg_sign mt et mh eh) as Hs.
    destruct (Float.div (S754_finite false mt et) (S754_finite true mh eh))
      as [s| | |s m e]; unfold le2 in Lq; try contradiction; subst s.
    + reflexivity.
    + cbn [Py.int_of_float bind ret cond_Zopp]. rewrite max_int_max.
      pose proof (Z.shiftl_nonneg (Z.pos m) e) as Hn.
      assert (H : 0 <= Z.shiftl (Z.pos m) e) by (apply Hn; lia).
      unfold ret. f_equal. clear - H. lia.
Qed.

(** ** A NaN in the step count *)

Section NanStep.
Variables libm_cos libm_sin : float -> float.

Lemma nan_step_error config :
  Float.is_nan (theta_step config) = true
  \/ (Float.is_nan (cycles config) = true
      /\ Float.eqb (theta_step config) Float.zero = false) ->
  generate_path libm_cos libm_sin config
  = inl (ValueError "cannot convert float NaN to integer").
Proof.
  intros H.
  assert (Hq : Py.float_truediv (total_angle config) (theta_step config)
               = inr S754_nan).
  { unfold Py.float_truediv, total_angle.
    destruct H as [Ht|[Hc Hz]].
    - destruct (theta_step config); try discriminate.
      destruct (Float.mul _ _); reflexivity.
    - rewrite Hz. destruct (cycles config); try discriminate.
      destruct (theta_step config); reflexivity. }
  unfold generate_path, generate_points, steps. rewrite Hq. reflexivity.
Qed.

End NanStep.

(** ** Within the ranges of the knobs *)

Section KnobRanges.
Variables libm_cos libm_sin : float -> float.

Hypothesis libm_cos_finite :
  forall x, Float.is_finite x = true -> Float.is_finite (libm_cos x) = true.
Hypothesis libm_sin_finite :
  forall x, Float.is_finite x = true -> Float.is_finite (libm_sin x) = true.

Lemma knob_ranges_path config :
  knob_ranges config = true ->
  exists points path,
    generate_points libm_cos libm_sin config = inr points
    /\ 2 <= Z.of_nat (List.length points) <= 524289
    /\ generate_path libm_cos libm_sin config = inr path.
Proof.
  intros Hk. pose proof (knob_ranges_valid config Hk) as Hv.
  destruct (knob_ranges_fields config Hk) as [Hth Hcy].
  destruct (valid_config_fields config Hv) as (_ & _ & _ & Hth' & Hcy' & _).
  destruct (in_range_bounds _ Hth') as (Vt & (mt & et & Et) & _).
  destruct (in_range_bounds _ Hcy') as (Vc & (mc & ec & Ec) & _).
  apply between_fields in Hth, Hcy.
  destruct Hth as (_ & Hlo & _). destruct Hcy as (_ & _ & Hhi).
  assert (Lc : le2 6 (cycles config)).
  { rewrite Ec in *. apply (leb_le2 _ _ 8444249301319680 (-47)); trivial. lia. }
  assert (Gt : ge2 (-10) (theta_step config)).
  { rewrite Et in *. apply (leb_ge2 4611686018427388 (-62)); trivial.
    - unfold emin. lia.
    - lia. }
  destruct (generate_points_spec libm_cos libm_sin libm_cos_finite
              libm_sin_finite config Hv) as (f & Hf & Hgen).
  destruct (steps_spec config Hv) as (f' & Hf' & Hs & _).
  rewrite Hf in Hf'. injection Hf' as <-.
  pose proof (steps_bound config 6 (-10) Vc Lc Gt ltac:(lia)
                ltac:(unfold emin; lia) _ Hs) as Hb.
  assert (Hp : 2 ^ (3 + 6 - -10) = 524288) by reflexivity.
  rewrite Hp in Hb. clear Hp.
  destruct (scale_bounds config Hv) as (half & Hhalf & _).
  assert (Hpath : exists path,
             generate_path libm_cos libm_sin config = inr path).
  { unfold generate_path. rewrite Hgen. cbn [bind].
    rewrite (scale_points_spec _ _ _ Hhalf). cbn [bind].
    destruct (range_first (Z.max 1 f) ltac:(lia)) as (rest & Er).
    rewrite Er. eexists. reflexivity. }
  destruct Hpath as (path & Hpath).
  eexists. exists path. split; [exact Hgen|]. split; [|exact Hpath].
  rewrite length_map, length_range, Z2Nat.id by lia. clear - Hb. lia.
Qed.

End KnobRanges.

(** ** The encoder on a non-empty curve *)

Lemma points_to_path_cons first rest :
  points_to_path (first :: rest)
  = inr (move_to first
         ++ String.concat "" (map (fun p => " " ++ line_to p) rest))%string.
Proof.
  unfold points_to_path, ret. f_equal.
  cbn [app]. rewrite concat_segments, map_map. reflexivity.
Qed.

(** ** Bounded samples *)

Section BoundedSamples.
Variables libm_cos libm_sin : float -> float.

Hypothesis libm_cos_bounded :
  forall x, Float.is_finite x = true ->
            Float.valid (libm_cos x) = true /\ le2 0 (libm_cos x).
Hypothesis libm_sin_bounded :
  forall x, Float.is_finite x = true ->
            Float.valid (libm_sin x) = true /\ le2 0 (libm_sin x).

Lemma bounded_finite (f : float -> float) :
  (forall x, Float.is_finite x = true ->
             Float.valid (f x) = true /\ le2 0 (f x)) ->
  forall x, Float.is_finite x = true -> Float.is_finite (f x) = true.
Proof. intros H x Hx. apply (le2_finite 0), H, Hx. Qed.

Lemma sample_point_bound config i :
  valid_config config = true -> 0 <= i <= 2 ^ 403 ->
  point_le2 202 (sample_point libm_cos libm_sin config i).
Proof.
  intros Hv Hi.
  destruct (valid_config_fields config Hv) as (HR & Hr & Hd & Hth & _).
  destruct (in_range_bounds _ HR) as (VR & _ & _ & LR).
  destruct (in_range_bounds _ Hr) as (Vr & _ & Gr & Lr).
  destruct (in_range_bounds _ Hd) as (Vd & _ & _ & Ld).
  destruct (in_range_bounds _ Hth) as (Vh & _ & _ & Lh).
  destruct (of_Z_spec i 403 ltac:(lia) ltac:(lia)) as [Vi Li].
  destruct (mul_spec _ _ 403 200 Vi Vh Li Lh ltac:(unfold emin; lia))
    as [Va La].
  fold (sample_angle config i) in Va, La.
  pose proof (le2_finite _ _ La) as Fa.
  assert (Hk : forall k,
             Float.valid k = true -> le2 201 k ->
             let inner :=
               Float.mul (Float.div k (inner_radius config))
                         (sample_angle config i) in
             (Float.valid (Float.mul k (libm_cos (sample_angle config i)))
              = true
              /\ le2 201 (Float.mul k (libm_cos (sample_angle config i))))
             /\ (Float.valid (Float.mul k (libm_sin (sample_angle config i)))
                 = true
                 /\ le2 201 (Float.mul k (libm_sin (sample_angle config i))))
             /\ (Float.valid (Float.mul (pen_offset config) (libm_cos inner))
                 = true
                 /\ le2 200 (Float.mul (pen_offset config) (libm_cos inner)))
             /\ (Float.valid (Float.mul (pen_offset config) (libm_sin inner))
                 = true
                 /\ le2 200 (Float.mul (pen_offset config) (libm_sin inner)))).
  { intros k Vk Lk. cbv zeta.
    destruct (div_spec _ _ 201 (-200) Lk Gr ltac:(unfold emin; lia))
      as [Vq Lq].
    destruct (mul_spec _ _ (201 - -200) 603 Vq Va Lq La
                ltac:(unfold emin; lia)) as [_ Lin].
    pose proof (le2_finite _ _ Lin) as Fin.
    destruct (libm_cos_bounded _ Fa) as [Vc1 Lc1].
    destruct (libm_sin_bounded _ Fa) as [Vs1 Ls1].
    destruct (libm_cos_bounded _ Fin) as [Vc2 Lc2].
    destruct (libm_sin_bounded _ Fin) as [Vs2 Ls2].
    split; [exact (mul_spec _ _ 201 0 Vk Vc1 Lk Lc1 ltac:(unfold emin; lia))|].
    split; [exact (mul_spec _ _ 201 0 Vk Vs1 Lk Ls1 ltac:(unfold emin; lia))|].
    split; [exact (mul_spec _ _ 200 0 Vd Vc2 Ld Lc2 ltac:(unfold emin; lia))|].
    exact (mul_spec _ _ 200 0 Vd Vs2 Ld Ls2 ltac:(unfold emin; lia)). }
  unfold sample_point, point_le2.
  destruct (spiro_type config);
    unfold spec_hypotrochoid, spec_epitrochoid; cbv zeta; cbn [fst snd].
  - destruct (sub_spec _ _ 200 200 201 VR Vr LR Lr) as [Vk Lk];
      try (unfold emin; lia).
    destruct (Hk _ Vk Lk) as ((V1 & L1) & (V2 & L2) & (V3 & L3) & (V4 & L4)).
    split.
    + apply (add_spec _ _ 201 200 202); trivial; unfold emin; lia.
    + apply (sub_spec _ _ 201 200 202); trivial; unfold emin; lia.
  - destruct (add_spec _ _ 200 200 201 VR Vr LR Lr) as [Vk Lk];
      try (unfold emin; lia).
    destruct (Hk _ Vk Lk) as ((V1 & L1) & (V2 & L2) & (V3 & L3) & (V4 & L4)).
    split.
    + apply (sub_spec _ _ 201 200 202); trivial; unfold emin; lia.
    + apply (sub_spec _ _ 201 200 202); trivial; unfold emin; lia.
Qed.

End BoundedSamples.

Lemma const_cos_bounded x :
  Float.is_finite x = true ->
  Float.valid (const_cos x) = true /\ le2 0 (const_cos x).
Proof.
  intros _. split; [reflexivity|].
  unfold const_cos, Float.one, Float.lit, le2. split; [lia|].
  apply Z.leb_le. reflexivity.
Qed.

Lemma const_sin_bounded x :
  Float.is_finite x = true ->
  Float.valid (const_sin x) = true /\ le2 0 (const_sin x).
Proof. intros _. split; [reflexivity|exact I]. Qed.

(** * Facts about the command line *)

(** ** The order on floats *)

Lemma SFcompare_antisym x y :
  SFcompare y x = option_map CompOpp (SFcompare x y).
Proof.
  destruct x as [sx|sx| |sx mx ex], y as [sy|sy| |sy my ey];
    try destruct sx; try destruct sy; try reflexivity;
    cbn [SFcompare option_map]; rewrite (Z.compare_antisym ex ey);
    destruct (ex ?= ey); cbn [CompOpp]; try reflexivity;
    change (Pos.compare_cont Eq my mx) with (Pos.compare my mx);
    change (Pos.compare_cont Eq mx my) with (Pos.compare mx my);
    rewrite (Pos.compare_antisym mx my); try reflexivity;
    rewrite CompOpp_involutive; reflexivity.
Qed.

(** Of two floats neither of which is a NaN, one is below the other or
    the other is at most the one. *)
Lemma not_ltb_leb x y :
  Float.is_nan x = false -> Float.is_nan y = false ->
  Float.ltb x y = false -> Float.leb y x = true.
Proof.
  intros Nx Ny. unfold Float.ltb, Float.leb, SFltb, SFleb.
  rewrite (SFcompare_antisym x y).
  destruct (SFcompare x y) as [[ | | ]|] eqn:E; cbn [option_map CompOpp];
    try reflexivity; try discriminate.
  intros _. destruct x, y; try discriminate.
  all: try (destruct s; discriminate).
  all: try (destruct s, s0; discriminate).
Qed.

Lemma nan_or_between_intro lo hi x :
  Float.is_nan lo = false -> Float.is_nan hi = false ->
  Float.ltb x lo = false -> Float.ltb hi x = false ->
  nan_or_between lo hi x = true.
Proof.
  intros Nlo Nhi Hlo Hhi. unfold nan_or_between.
  destruct (Float.is_nan x) eqn:Nx; [reflexivity|].
  rewrite (not_ltb_leb x lo Nx Nlo Hlo), (not_ltb_leb hi x Nhi Nx Hhi).
  reflexivity.
Qed.

(** ** String methods *)

Lemma isspace_lower_char c : Cli.isspace (Cli.lower_char c) = Cli.isspace c.
Proof. destruct c as [[] [] [] [] [] [] [] []]; reflexivity. Qed.

Lemma lower_char_idem c : Cli.lower_char (Cli.lower_char c) = Cli.lower_char c.
Proof. destruct c as [[] [] [] [] [] [] [] []]; reflexivity. Qed.

Lemma lower_idem s : Cli.ascii_lower (Cli.ascii_lower s) = Cli.ascii_lower s.
Proof.
  induction s as [|c s IH]; [reflexivity|].
  cbn [Cli.ascii_lower]. rewrite lower_char_idem, IH. reflexivity.
Qed.

Lemma length_lower s : String.length (Cli.ascii_lower s) = String.length s.
Proof.
  induction s as [|c s IH]; [reflexivity|].
  cbn [Cli.ascii_lower String.length]. rewrite IH. reflexivity.
Qed.

Lemma lstrip_lower s : ascii_lstrip (Cli.ascii_lower s) = Cli.ascii_lower (ascii_lstrip s).
Proof.
  induction s as [|c s IH]; [reflexivity|].
  cbn [Cli.ascii_lower ascii_lstrip]. rewrite isspace_lower_char.
  destruct (Cli.isspace c); [exact IH|reflexivity].
Qed.

Lemma rstrip_lower s : ascii_rstrip (Cli.ascii_lower s) = Cli.ascii_lower (ascii_rstrip s).
Proof.
  induction s as [|c s IH]; [reflexivity|].
  cbn [Cli.ascii_lower ascii_rstrip]. rewrite IH, isspace_lower_char.
  destruct (ascii_rstrip s); cbn [Cli.ascii_lower];
    [destruct (Cli.isspace c)|]; reflexivity.
Qed.

Lemma strip_lower s : ascii_strip (Cli.ascii_lower s) = Cli.ascii_lower (ascii_strip s).
Proof. unfold ascii_strip. rewrite lstrip_lower, rstrip_lower. reflexivity. Qed.

Lemma rstrip_idem s : ascii_rstrip (ascii_rstrip s) = ascii_rstrip s.
Proof.
  induction s as [|c s IH]; [reflexivity|].
  cbn [ascii_rstrip]. destruct (ascii_rstrip s) as [|c' kept] eqn:E.
  - destruct (Cli.isspace c) eqn:Ec; [reflexivity|].
    cbn [ascii_rstrip]. rewrite Ec. reflexivity.
  - change (ascii_rstrip (String c (String c' kept)))
      with (match ascii_rstrip (String c' kept) with
            | EmptyString =>
                if Cli.isspace c then EmptyString else String c EmptyString
            | kept' => String c kept'
            end).
    rewrite IH. reflexivity.
Qed.

Lemma lstrip_no_leading_space s : no_leading_space (ascii_lstrip s).
Proof.
  induction s as [|c s IH]; [exact I|].
  cbn [ascii_lstrip]. destruct (Cli.isspace c) eqn:Ec; [exact IH|exact Ec].
Qed.

Lemma lstrip_fixed s : no_leading_space s -> ascii_lstrip s = s.
Proof. destruct s as [|c s]; [reflexivity|]. simpl. intros ->. reflexivity. Qed.

Lemma rstrip_no_leading_space s :
  no_leading_space s -> no_leading_space (ascii_rstrip s).
Proof.
  destruct s as [|c s]; [intros _; exact I|].
  cbn [no_leading_space ascii_rstrip]. intros Ec. rewrite Ec.
  destruct (ascii_rstrip s); exact Ec.
Qed.

Lemma strip_idem s : ascii_strip (ascii_strip s) = ascii_strip s.
Proof.
  unfold ascii_strip.
  rewrite (lstrip_fixed (ascii_rstrip (ascii_lstrip s))).
  - apply rstrip_idem.
  - apply rstrip_no_leading_space, lstrip_no_leading_space.
Qed.

Lemma startswith_lower s :
  Cli.startswith s "#" = true -> Cli.startswith (Cli.ascii_lower s) "#" = true.
Proof.
  destruct s as [|c s]; [discriminate|].
  unfold Cli.startswith. cbn [Cli.ascii_lower String.prefix].
  destruct (ascii_dec "#" c) as [<-|]; [|discriminate].
  intros _. change (Cli.lower_char "#") with "#"%char.
  destruct (ascii_dec "#" "#"); [|congruence].
  destruct (Cli.ascii_lower s); reflexivity.
Qed.

(** On ASCII text the methods are the ASCII ones. *)

Lemma isspace_ascii_head c c2 c3 :
  Cli.is_ascii_char c = true ->
  Cli.isspace_2 c c2 = false /\ Cli.isspace_3 c c2 c3 = false.
Proof.
  destruct c as [[] [] [] [] [] [] [] []]; intros H;
    try discriminate H; split; reflexivity.
Qed.

Lemma lower_char_ascii c :
  Cli.is_ascii_char c = true -> Cli.is_ascii_char (Cli.lower_char c) = true.
Proof.
  destruct c as [[] [] [] [] [] [] [] []]; intros H;
    try discriminate H; reflexivity.
Qed.

Lemma begins_ascii c :
  Cli.is_ascii_char c = true -> Cli.begins_code_point c = true.
Proof.
  unfold Cli.is_ascii_char, Cli.begins_code_point. intros ->. reflexivity.
Qed.

Lemma lstrip_ascii s :
  Cli.is_ascii s = true -> Cli.lstrip s = ascii_lstrip s.
Proof.
  induction s as [|c s IH]; [reflexivity|].
  cbn [Cli.is_ascii]. intros H. apply andb_prop in H. destruct H as [Hc Hs].
  cbn [Cli.lstrip ascii_lstrip]. rewrite (IH Hs).
  destruct (Cli.isspace c); [reflexivity|].
  destruct s as [|c2 [|c3 s]]; try reflexivity.
  - rewrite (proj1 (isspace_ascii_head c c2 c2 Hc)). reflexivity.
  - rewrite (proj1 (isspace_ascii_head c c2 c3 Hc)),
      (proj2 (isspace_ascii_head c c2 c3 Hc)). reflexivity.
Qed.

Lemma rstrip_ascii s :
  Cli.is_ascii s = true -> Cli.rstrip s = ascii_rstrip s.
Proof.
  induction s as [|c s IH]; [reflexivity|].
  cbn [Cli.is_ascii]. intros H. apply andb_prop in H. destruct H as [Hc Hs].
  cbn [Cli.rstrip ascii_rstrip]. rewrite (IH Hs). cbv zeta.
  destruct (ascii_rstrip s) as [|c2 [|c3 [|c4 kept]]]; cbn [Cli.is_space].
  - reflexivity.
  - rewrite (proj1 (isspace_ascii_head c c2 c2 Hc)). reflexivity.
  - rewrite (proj2 (isspace_ascii_head c c2 c3 Hc)). reflexivity.
  - reflexivity.
Qed.

Lemma ascii_lstrip_ascii s :
  Cli.is_ascii s = true -> Cli.is_ascii (ascii_lstrip s) = true.
Proof.
  induction s as [|c s IH]; [reflexivity|].
  intros H. cbn [ascii_lstrip]. destruct (Cli.isspace c); [|exact H].
  cbn [Cli.is_ascii] in H. apply andb_prop in H. apply IH, H.
Qed.

Lemma ascii_rstrip_ascii s :
  Cli.is_ascii s = true -> Cli.is_ascii (ascii_rstrip s) = true.
Proof.
  induction s as [|c s IH]; [reflexivity|].
  cbn [Cli.is_ascii]. intros H. apply andb_prop in H. destruct H as [Hc Hs].
  cbn [ascii_rstrip]. pose proof (IH Hs) as Hr.
  destruct (ascii_rstrip s) as [|c2 kept].
  - destruct (Cli.isspace c); [reflexivity|].
    cbn [Cli.is_ascii]. rewrite Hc. reflexivity.
  - cbn [Cli.is_ascii] in Hr |- *. rewrite Hc, Hr. reflexivity.
Qed.

Lemma ascii_lower_ascii s :
  Cli.is_ascii s = true -> Cli.is_ascii (Cli.ascii_lower s) = true.
Proof.
  induction s as [|c s IH]; [reflexivity|].
  cbn [Cli.is_ascii Cli.ascii_lower]. intros H.
  apply andb_prop in H. destruct H as [Hc Hs].
  rewrite (lower_char_ascii c Hc), (IH Hs). reflexivity.
Qed.

Lemma strip_ascii s :
  Cli.is_ascii s = true ->
  Cli.strip s = ascii_strip s /\ Cli.is_ascii (ascii_strip s) = true.
Proof.
  intros H. unfold Cli.strip, ascii_strip. rewrite (lstrip_ascii s H).
  pose proof (ascii_lstrip_ascii s H) as Hl.
  rewrite (rstrip_ascii _ Hl). split; [reflexivity|].
  apply ascii_rstrip_ascii, Hl.
Qed.

Lemma len_ascii s : Cli.is_ascii s = true -> Cli.len s = String.length s.
Proof.
  induction s as [|c s IH]; [reflexivity|].
  cbn [Cli.is_ascii Cli.len String.length]. intros H.
  apply andb_prop in H. destruct H as [Hc Hs].
  rewrite (begins_ascii c Hc), (IH Hs). reflexivity.
Qed.

Lemma lower_ascii (unicode_lower : string -> string) s :
  Cli.is_ascii s = true -> Cli.lower unicode_lower s = Cli.ascii_lower s.
Proof. unfold Cli.lower. intros ->. reflexivity. Qed.

(** A colour taken from ASCII text is in normal form. *)
Lemma normal_color_intro (unicode_lower : string -> string) s :
  Cli.is_ascii s = true ->
  Cli.startswith (Cli.strip s) "#" = true ->
  (Cli.len (Cli.strip s) = 4%nat \/ Cli.len (Cli.strip s) = 7%nat) ->
  normal_color (Cli.lower unicode_lower)
    (Cli.lower unicode_lower (Cli.strip s)).
Proof.
  intros Ha. destruct (strip_ascii s Ha) as [-> Hu].
  rewrite (lower_ascii unicode_lower _ Hu).
  pose proof (ascii_lower_ascii _ Hu) as Ht.
  intros Hp Hl. unfold normal_color.
  split; [apply startswith_lower, Hp|].
  split; [rewrite (len_ascii _ Ht), length_lower, <- (len_ascii _ Hu);
          exact Hl|].
  split; [rewrite (lower_ascii unicode_lower _ Ht); apply lower_idem|].
  rewrite (proj1 (strip_ascii _ Ht)), strip_lower, strip_idem. reflexivity.
Qed.

(** ** Validation of one value *)

Section Validation.

Variable float_repr : float -> string.
Variable str_repr : string -> string.
Variable float_of_str : string -> result float.
Variable int_of_str : string -> result Z.
Variable unicode_lower : string -> string.

Lemma validate_range_inv name value knob checked :
  Cli._validate_range float_repr name value knob = inr checked ->
  checked = value
  /\ (forall least, Cli.minimum knob = Some least -> Cli.lt value least = false)
  /\ (forall most, Cli.maximum knob = Some most -> Cli.gt value most = false).
Proof.
  unfold Cli._validate_range. intros H.
  apply bind_inr in H. destruct H as ([] & Hmin & H).
  apply bind_inr in H. destruct H as ([] & Hmax & H).
  injection H as <-. split; [reflexivity|]. split.
  - intros least E. rewrite E in Hmin.
    destruct (Cli.lt value least); [discriminate|reflexivity].
  - intros most E. rewrite E in Hmax.
    destruct (Cli.gt value most); [discriminate|reflexivity].
Qed.

Lemma validate_range_error name value knob e :
  Cli._validate_range float_repr name value knob = inl e ->
  (exists least, Cli.minimum knob = Some least /\ Cli.lt value least = true
     /\ e = ValueError (name ++ " must be >= "
                        ++ Cli.str_number float_repr least))
  \/ (exists most, Cli.maximum knob = Some most /\ Cli.gt value most = true
        /\ e = ValueError (name ++ " must be <= "
                           ++ Cli.str_number float_repr most)).
Proof.
  unfold Cli._validate_range. intros H.
  apply bind_inl in H. destruct H as [H|([] & _ & H)].
  - left. destruct (Cli.minimum knob) as [least|]; [|discriminate].
    exists least. destruct (Cli.lt value least); [|discriminate].
    injection H as <-. auto.
  - right. apply bind_inl in H. destruct H as [H|([] & _ & H)]; [|discriminate].
    destruct (Cli.maximum knob) as [most|]; [|discriminate].
    exists most. destruct (Cli.gt value most); [|discriminate].
    injection H as <-. auto.
Qed.

Lemma normalize_float_inv name value knob v :
  Cli.value_type knob = Cli.float_class ->
  Cli._normalize_value float_repr float_of_str int_of_str unicode_lower
    name value knob
  = inr v ->
  exists x,
    v = Cli.Number (Cli.NFloat x)
    /\ Cli.float_ float_of_str value = inr x
    /\ Cli._validate_range float_repr name (Cli.NFloat x) knob
       = inr (Cli.NFloat x).
Proof.
  unfold Cli._normalize_value. intros -> H.
  apply bind_inr in H. destruct H as (x & Hx & H).
  apply bind_inr in H. destruct H as (checked & Hc & H).
  injection H as <-.
  destruct (validate_range_inv _ _ _ _ Hc) as (-> & _).
  exists x. auto.
Qed.

Lemma normalize_int_inv name value knob v :
  Cli.value_type knob = Cli.int_class ->
  Cli._normalize_value float_repr float_of_str int_of_str unicode_lower
    name value knob
  = inr v ->
  exists n,
    v = Cli.Number (Cli.NInt n)
    /\ Cli.int_ int_of_str value = inr n
    /\ Cli._validate_range float_repr name (Cli.NInt n) knob
       = inr (Cli.NInt n).
Proof.
  unfold Cli._normalize_value. intros -> H.
  apply bind_inr in H. destruct H as (n & Hn & H).
  apply bind_inr in H. destruct H as (checked & Hc & H).
  injection H as <-.
  destruct (validate_range_inv _ _ _ _ Hc) as (-> & _).
  exists n. auto.
Qed.

(** A float let through by a knob with float bounds. *)
Lemma normalize_float_between name value knob v lo hi :
  Cli.value_type knob = Cli.float_class ->
  Cli.minimum knob = Some (Cli.NFloat lo) ->
  Cli.maximum knob = Some (Cli.NFloat hi) ->
  Float.is_nan lo = false -> Float.is_nan hi = false ->
  Cli._normalize_value float_repr float_of_str int_of_str unicode_lower
    name value knob
  = inr v ->
  exists x,
    v = Cli.Number (Cli.NFloat x)
    /\ Cli.float_ float_of_str value = inr x
    /\ nan_or_between lo hi x = true.
Proof.
  intros Hty Hmin Hmax Nlo Nhi H.
  destruct (normalize_float_inv _ _ _ _ Hty H) as (x & -> & Hx & Hc).
  destruct (validate_range_inv _ _ _ _ Hc) as (_ & Hlo & Hhi).
  exists x. split; [reflexivity|]. split; [exact Hx|].
  apply nan_or_between_intro; trivial.
  - exact (Hlo _ Hmin).
  - exact (Hhi _ Hmax).
Qed.

Lemma normalize_color_inv value knob v :
  Cli.value_type knob = Cli.str_class ->
  Cli.choices knob = None ->
  Cli._normalize_value float_repr float_of_str int_of_str unicode_lower
    "stroke_color" value knob = inr v ->
  let text := Cli.strip (Cli.str float_repr value) in
  v = Cli.Str (Cli.lower unicode_lower text)
  /\ Cli.startswith text "#" = true
  /\ (Cli.len text = 4%nat \/ Cli.len text = 7%nat).
Proof.
  unfold Cli._normalize_value. intros -> -> H. cbv zeta.
  change (String.eqb "stroke_color" "stroke_color") with true in H.
  cbv iota in H.
  destruct (Cli.startswith _ "#"); [|discriminate].
  cbn [negb orb] in H.
  destruct (Nat.eqb_spec (Cli.len (Cli.strip (Cli.str float_repr value))) 4)
    as [E4|N4].
  - injection H as <-. auto.
  - destruct (Nat.eqb_spec
                (Cli.len (Cli.strip (Cli.str float_repr value))) 7)
      as [E7|N7]; [|discriminate].
    injection H as <-. auto.
Qed.

Lemma normalize_color_intro text knob :
  Cli.value_type knob = Cli.str_class ->
  Cli.choices knob = None ->
  normal_color (Cli.lower unicode_lower) text ->
  Cli._normalize_value float_repr float_of_str int_of_str unicode_lower
    "stroke_color" (Cli.Str text) knob = inr (Cli.Str text).
Proof.
  unfold Cli._normalize_value, normal_color.
  intros -> -> (Hp & Hl & Hlow & Hs).
  change (String.eqb "stroke_color" "stroke_color") with true. cbv iota.
  cbn [Cli.str]. rewrite Hs, Hp, Hlow. cbn [negb orb].
  destruct Hl as [-> | ->]; reflexivity.
Qed.

Lemma normalize_choice_inv name value knob v choice others :
  Cli.value_type knob = Cli.str_class ->
  Cli.choices knob = Some (choice :: others) ->
  Cli._normalize_value float_repr float_of_str int_of_str unicode_lower
    name value knob
  = inr v ->
  v = value /\ exists s, value = Cli.Str s /\ In s (choice :: others).
Proof.
  unfold Cli._normalize_value. intros -> -> H.
  destruct (Cli.contains (choice :: others) value) eqn:E; [|discriminate].
  injection H as <-. split; [reflexivity|].
  destruct value as [v|s]; [discriminate|].
  exists s. split; [reflexivity|].
  unfold Cli.contains in E. apply existsb_exists in E.
  destruct E as (c & Hin & Hc). apply String.eqb_eq in Hc. subst c. exact Hin.
Qed.

(** ** The collected dictionary and the configuration built from it *)

Lemma collect_build raw_value values :
  Cli._collect_knob_values float_repr float_of_str int_of_str unicode_lower
    raw_value = inr values ->
  exists xR xr xd xt xc xw n kind,
    (Cli.float_ float_of_str (raw_value Cli.outer_radius_knob) = inr xR
     /\ Cli.float_ float_of_str (raw_value Cli.inner_radius_knob) = inr xr
     /\ Cli.float_ float_of_str (raw_value Cli.pen_offset_knob) = inr xd
     /\ Cli.float_ float_of_str (raw_value Cli.theta_step_knob) = inr xt
     /\ Cli.float_ float_of_str (raw_value Cli.cycles_knob) = inr xc
     /\ Cli.float_ float_of_str (raw_value Cli.stroke_width_knob) = inr xw
     /\ Cli.int_ int_of_str (raw_value Cli.canvas_size_knob) = inr n
     /\ raw_value Cli.spiro_type_knob = Cli.Str (Cli.SpiroType_value kind))
    /\ let text :=
         Cli.strip (Cli.str float_repr (raw_value Cli.stroke_color_knob)) in
       let config := {|
         outer_radius := xR;
         inner_radius := xr;
         pen_offset := xd;
         theta_step := xt;
         cycles := xc;
         stroke_width := xw;
         stroke_color := Cli.lower unicode_lower text;
         canvas_size := n;
         spiro_type := kind
       |} in
       Cli._build_config float_repr str_repr float_of_str int_of_str values
       = inr config
       /\ cli_ranges config = true.
Proof.
  unfold Cli._collect_knob_values, Cli.KNOBS. cbn [Cli.collect_loop].
  intros H.
  apply bind_inr in H. destruct H as (vR & HR & H).
  apply bind_inr in H. destruct H as (vr & Hr & H).
  apply bind_inr in H. destruct H as (vd & Hd & H).
  apply bind_inr in H. destruct H as (vt & Ht & H).
  apply bind_inr in H. destruct H as (vc & Hc & H).
  apply bind_inr in H. destruct H as (vw & Hw & H).
  apply bind_inr in H. destruct H as (vn & Hn & H).
  apply bind_inr in H. destruct H as (vcol & Hcol & H).
  apply bind_inr in H. destruct H as (vk & Hk & H).
  injection H as <-.
  destruct (normalize_float_between _ _ Cli.outer_radius_knob _ _ _ eq_refl eq_refl
              eq_refl eq_refl eq_refl HR) as (xR & -> & ER & BR).
  destruct (normalize_float_between _ _ Cli.inner_radius_knob _ _ _ eq_refl eq_refl
              eq_refl eq_refl eq_refl Hr) as (xr & -> & Er & Br).
  destruct (normalize_float_between _ _ Cli.pen_offset_knob _ _ _ eq_refl eq_refl
              eq_refl eq_refl eq_refl Hd) as (xd & -> & Ed & Bd).
  destruct (normalize_float_between _ _ Cli.theta_step_knob _ _ _ eq_refl eq_refl
              eq_refl eq_refl eq_refl Ht) as (xt & -> & Et & Bt).
  destruct (normalize_float_between _ _ Cli.cycles_knob _ _ _ eq_refl eq_refl
              eq_refl eq_refl eq_refl Hc) as (xc & -> & Ec & Bc).
  destruct (normalize_float_between _ _ Cli.stroke_width_knob _ _ _ eq_refl eq_refl
              eq_refl eq_refl eq_refl Hw) as (xw & -> & Ew & Bw).
  destruct (normalize_int_inv _ _ Cli.canvas_size_knob _ eq_refl Hn) as (n & -> & En & Vn).
  destruct (validate_range_inv _ _ Cli.canvas_size_knob _ Vn) as (_ & Hlo & Hhi).
  pose proof (Hlo _ eq_refl) as Hlo'. pose proof (Hhi _ eq_refl) as Hhi'.
  cbn [Cli.lt Cli.gt] in Hlo', Hhi'. clear Hlo Hhi.
  destruct (normalize_color_inv _ Cli.stroke_color_knob _ eq_refl eq_refl Hcol)
    as (-> & _ & _).
  destruct (normalize_choice_inv _ _ Cli.spiro_type_knob _ _ _ eq_refl eq_refl Hk)
    as (-> & s & Es & Hin).
  assert (Hkind : exists kind, s = Cli.SpiroType_value kind).
  { destruct Hin as [<-|[<-|[]]];
      [exists HYPOTROCHOID|exists EPITROCHOID]; reflexivity. }
  destruct Hkind as (kind & ->).
  exists xR, xr, xd, xt, xc, xw, n, kind.
  split; [repeat (split; [assumption|]); exact Es|].
  cbv zeta. split.
  - rewrite Es. destruct kind; reflexivity.
  - unfold cli_ranges.
    cbn [outer_radius inner_radius pen_offset theta_step cycles stroke_width
         canvas_size].
    rewrite BR, Br, Bd, Bt, Bc, Bw. cbn [andb].
    apply andb_true_intro. split; apply Z.leb_le; lia.
Qed.

End Validation.

Lemma nan_or_between_between lo hi x :
  nan_or_between lo hi x = true -> is_number x = true ->
  between lo hi x = true.
Proof.
  unfold nan_or_between, is_number, between. intros H Hn.
  apply andb_prop in Hn. destruct Hn as [-> Hn].
  destruct (Float.is_nan x); [discriminate|]. exact H.
Qed.

Lemma cli_ranges_knob_ranges config :
  cli_ranges config = true -> geometry_is_number config = true ->
  knob_ranges config = true.
Proof.
  unfold cli_ranges, geometry_is_number, knob_ranges. intros H Hn.
  do 7 (apply andb_prop in H; let H' := fresh "H" in destruct H as [H H']).
  do 4 (apply andb_prop in Hn; let H' := fresh "N" in destruct Hn as [Hn H']).
  rewrite (nan_or_between_between _ _ _ H Hn),
    (nan_or_between_between _ _ _ H6 N2),
    (nan_or_between_between _ _ _ H5 N1),
    (nan_or_between_between _ _ _ H4 N0),
    (nan_or_between_between _ _ _ H3 N), H1, H0.
  reflexivity.
Qed.

(** ** The random draws *)

Lemma hex_digit_is_hex d : 0 <= d < 16 -> is_hex (Cli.hex_digit d) = true.
Proof.
  intros Hd. rewrite <- (Z2Nat.id d) by lia.
  assert (Hk : (Z.to_nat d < 16)%nat) by lia.
  generalize dependent (Z.to_nat d). clear Hd. intros k Hk.
  do 16 (destruct k as [|k]; [reflexivity|]). lia.
Qed.

Lemma is_hex_plain c :
  is_hex c = true -> Cli.isspace c = false /\ Cli.lower_char c = c.
Proof.
  destruct c as [[] [] [] [] [] [] [] []]; intros H;
    try discriminate H; split; reflexivity.
Qed.

Lemma all_hex_app s t : all_hex (s ++ t) = all_hex s && all_hex t.
Proof.
  induction s as [|c s IH]; [reflexivity|].
  cbn [append all_hex]. rewrite IH, andb_assoc. reflexivity.
Qed.

Lemma string_length_app s t :
  String.length (s ++ t) = (String.length s + String.length t)%nat.
Proof.
  induction s as [|c s IH]; [reflexivity|].
  cbn [append String.length]. rewrite IH. reflexivity.
Qed.

Lemma zeros_spec width :
  all_hex (Cli.zeros width) = true /\ String.length (Cli.zeros width) = width.
Proof.
  induction width as [|width [IH1 IH2]]; [split; reflexivity|].
  cbn [Cli.zeros all_hex String.length]. rewrite IH1, IH2. split; reflexivity.
Qed.

Lemma hex_loop_spec fuel : forall n digits k,
  0 <= n < 16 ^ Z.of_nat (S k) -> all_hex digits = true ->
  all_hex (Cli.hex_loop fuel n digits) = true
  /\ (String.length (Cli.hex_loop fuel n digits)
      <= String.length digits + S k)%nat.
Proof.
  induction fuel as [|fuel IH]; intros n digits k Hn Hd.
  - cbn [Cli.hex_loop]. split; [exact Hd|lia].
  - cbn [Cli.hex_loop].
    assert (Hm : 0 <= n mod 16 < 16) by (apply Z.mod_pos_bound; lia).
    assert (Hd' : all_hex (String (Cli.hex_digit (n mod 16)) digits) = true).
    { cbn [all_hex]. rewrite (hex_digit_is_hex _ Hm), Hd. reflexivity. }
    destruct (Z.eqb_spec (n / 16) 0) as [Hq|Hq].
    + split; [exact Hd'|]. cbn [String.length]. lia.
    + destruct k as [|k].
      * exfalso. apply Hq. apply Z.div_small.
        change (16 ^ Z.of_nat 1) with 16 in Hn. exact Hn.
      * assert (Hn' : 0 <= n / 16 < 16 ^ Z.of_nat (S k)).
        { split; [apply Z.div_pos; lia|].
          apply Z.div_lt_upper_bound; [lia|].
          replace (16 * 16 ^ Z.of_nat (S k)) with (16 ^ Z.of_nat (S (S k)));
            [exact (proj2 Hn)|].
          rewrite (Nat2Z.inj_succ (S k)), Z.pow_succ_r by lia. reflexivity. }
        destruct (IH (n / 16) _ k Hn' Hd') as [H1 H2].
        split; [exact H1|]. cbn [String.length] in H2. lia.
Qed.

Lemma format_06x_spec n :
  0 <= n <= 16777215 ->
  all_hex (Cli.format_06x n) = true
  /\ String.length (Cli.format_06x n) = 6%nat.
Proof.
  intros Hn. unfold Cli.format_06x.
  destruct (Z.ltb_spec n 0) as [Hneg|_]; [lia|].
  destruct (hex_loop_spec (S (Z.to_nat (Z.log2 n))) n EmptyString 5)
    as [H1 H2]; [|reflexivity|].
  { change (16 ^ Z.of_nat 6) with 16777216. lia. }
  fold (Cli.hex n) in H1, H2. cbn [String.length] in H2.
  destruct (zeros_spec (6 - String.length (Cli.hex n))) as [Z1 Z2].
  rewrite all_hex_app, string_length_app, Z1, H1, Z2. split; [reflexivity|lia].
Qed.

Lemma all_hex_lower s : all_hex s = true -> Cli.ascii_lower s = s.
Proof.
  induction s as [|c s IH]; [reflexivity|].
  cbn [all_hex Cli.ascii_lower]. intros H. apply andb_prop in H. destruct H as [Hc Hs].
  rewrite (proj2 (is_hex_plain c Hc)), (IH Hs). reflexivity.
Qed.

Lemma all_hex_rstrip c s :
  Cli.isspace c = false -> all_hex s = true ->
  ascii_rstrip (String c s) = String c s.
Proof.
  revert c. induction s as [|c' s IH]; intros c Hc Hs.
  - cbn [ascii_rstrip]. rewrite Hc. reflexivity.
  - cbn [all_hex] in Hs. apply andb_prop in Hs. destruct Hs as [Hc' Hs].
    change (ascii_rstrip (String c (String c' s)))
      with (match ascii_rstrip (String c' s) with
            | EmptyString =>
                if Cli.isspace c then EmptyString else String c EmptyString
            | kept => String c kept
            end).
    rewrite (IH c' (proj1 (is_hex_plain c' Hc')) Hs). reflexivity.
Qed.

Lemma is_hex_ascii c : is_hex c = true -> Cli.is_ascii_char c = true.
Proof.
  destruct c as [[] [] [] [] [] [] [] []]; intros H;
    try discriminate H; reflexivity.
Qed.

Lemma all_hex_ascii s : all_hex s = true -> Cli.is_ascii s = true.
Proof.
  induction s as [|c s IH]; [reflexivity|].
  cbn [all_hex Cli.is_ascii]. intros H.
  apply andb_prop in H. destruct H as [Hc Hs].
  rewrite (is_hex_ascii c Hc), (IH Hs). reflexivity.
Qed.

(** A [#] and six hexadecimal digits make a colour in normal form. *)
Lemma hex_color_normal (unicode_lower : string -> string) digits :
  all_hex digits = true -> String.length digits = 6%nat ->
  normal_color (Cli.lower unicode_lower) (String "#" digits).
Proof.
  intros Hh Hl.
  assert (Ha : Cli.is_ascii (String "#" digits) = true).
  { cbn [Cli.is_ascii]. rewrite (all_hex_ascii _ Hh). reflexivity. }
  unfold normal_color. split; [|split; [|split]].
  - unfold Cli.startswith. cbn [String.prefix].
    destruct (ascii_dec "#" "#"); [|congruence].
    destruct digits; reflexivity.
  - right. rewrite (len_ascii _ Ha). cbn [String.length]. rewrite Hl.
    reflexivity.
  - rewrite (lower_ascii unicode_lower _ Ha). cbn [Cli.ascii_lower].
    rewrite (all_hex_lower _ Hh). reflexivity.
  - rewrite (proj1 (strip_ascii _ Ha)). unfold ascii_strip.
    cbn [ascii_lstrip]. change (Cli.isspace "#") with false. cbv iota.
    apply all_hex_rstrip; [reflexivity|exact Hh].
Qed.

(** * Further properties of the generator *)

Section SamplerProperties.

Variables libm_cos libm_sin : float -> float.

(** X1: whatever the configuration, when the sampler returns it returns
    [steps + 1] points with [steps >= 1]: never fewer than two. *)
Theorem generate_points_at_least_two (config : SpiroConfig)
    (points : list Point) :
  generate_points libm_cos libm_sin config = inr points ->
  exists n,
    steps config = inr n /\ 1 <= n
    /\ List.length points = Z.to_nat (n + 1)
    /\ (2 <= List.length points)%nat.
Proof.
  intros H.
  destruct (proj2 (generate_points_result libm_cos libm_sin config) points H)
    as (n & Hn & H1 & Hlen).
  exists n. repeat (split; [assumption|]). lia.
Qed.

(** X2: whatever the configuration, the pipeline raises nothing but the
    exceptions of the float division, of the [int]/[float] conversions
    and of [math.cos] and [math.sin]; the encoder's error on the empty
    sequence is never raised. *)
Theorem generate_path_errors (config : SpiroConfig) (e : exn) :
  generate_path libm_cos libm_sin config = inl e ->
  sampler_error e
  /\ e <> ValueError "Cannot build a path from an empty sequence of points".
Proof.
  intros H.
  assert (He : sampler_error e).
  { unfold generate_path in H.
    apply bind_inl in H. destruct H as [H|(points & Hp & H)].
    { apply (proj1 (generate_points_result _ _ config)) in H. exact H. }
    apply bind_inl in H. destruct H as [H|(scaled & Hs & H)].
    { apply scale_points_error in H. destruct H as [_ H].
      apply int_truediv_2_error in H. right. left. exact H. }
    exfalso.
    destruct (proj2 (generate_points_result _ _ config) points Hp)
      as (n & _ & Hn & Hlen).
    destruct (scale_points_result _ _ _ Hs) as (half & scale & ->).
    destruct points as [|p rest]; [simpl in Hlen; lia|]. discriminate. }
  split; [exact He|].
  destruct He as [ -> | [ -> | [ -> | -> ] ] ]; discriminate.
Qed.

End SamplerProperties.

(** X3: whenever the scaler returns, on a valid configuration or not,
    it has kept the length of the curve, and a non-empty curve has gone
    through the one affine map [p -> canvas_size / 2 + p * scale], the
    same on both axes, in the order of the points. *)
Theorem scale_points_affine (points scaled : list Point)
    (config : SpiroConfig) :
  scale_points points config = inr scaled ->
  List.length scaled = List.length points
  /\ (points <> [] ->
      exists half_canvas,
        Py.int_truediv (canvas_size config) 2 = inr half_canvas
        /\ scaled
           = map (transform half_canvas (spec_scale config half_canvas))
                 points).
Proof.
  intros H. split.
  - destruct (scale_points_result _ _ _ H) as (half & scale & ->).
    apply length_map.
  - intros Hne.
    destruct (Py.int_truediv (canvas_size config) 2) as [e|half] eqn:E.
    + exfalso. destruct points as [|p rest]; [congruence|].
      unfold scale_points in H. destruct (extent config) as [lo hi].
      rewrite E in H. discriminate.
    + exists half. split; [reflexivity|].
      rewrite (scale_points_spec _ _ _ E) in H. injection H as <-.
      reflexivity.
Qed.

(** X4: the scaler never raises a division error: its only exception is
    the [OverflowError] of [canvas_size / 2], on a non-empty curve and a
    canvas size beyond [2 ^ 1024] in magnitude. *)
Theorem scale_points_failure (points : list Point) (config : SpiroConfig)
    (e : exn) :
  scale_points points config = inl e ->
  e = OverflowError /\ points <> [] /\ 2 ^ 1024 < Z.abs (canvas_size config).
Proof.
  intros H. destruct (scale_points_error _ _ _ H) as [Hne Hhalf].
  split; [exact (int_truediv_2_error _ _ Hhalf)|]. split; [exact Hne|].
  destruct (Z.le_gt_cases (Z.abs (canvas_size config)) (2 ^ 1024)) as [Hle|Hgt];
    [|lia].
  destruct (int_truediv_2_total _ Hle) as (half & Hok & _).
  rewrite Hok in Hhalf. discriminate.
Qed.

Section ValidSampler.

Variables libm_cos libm_sin : float -> float.

(** X5: a zero [theta_step], of either sign, makes the pipeline raise
    [ZeroDivisionError], whatever the other fields. *)
Theorem theta_step_zero (config : SpiroConfig) :
  Float.eqb (theta_step config) Float.zero = true ->
  generate_points libm_cos libm_sin config = inl ZeroDivisionError
  /\ generate_path libm_cos libm_sin config = inl ZeroDivisionError.
Proof.
  intros Hz.
  assert (H : generate_points libm_cos libm_sin config = inl ZeroDivisionError).
  { unfold generate_points, steps, Py.float_truediv. rewrite Hz. reflexivity. }
  split; [exact H|]. unfold generate_path. rewrite H. reflexivity.
Qed.

(** X6: a NaN [theta_step] or a NaN [cycles] makes the pipeline raise the
    [ValueError] of [int(nan)], whatever the other fields. *)
Theorem theta_step_nan (config : SpiroConfig) :
  Float.is_nan (theta_step config) = true
  \/ (Float.is_nan (cycles config) = true
      /\ Float.eqb (theta_step config) Float.zero = false) ->
  generate_path libm_cos libm_sin config
  = inl (ValueError "cannot convert float NaN to integer").
Proof. apply nan_step_error. Qed.

Hypothesis libm_cos_finite :
  forall x, Float.is_finite x = true -> Float.is_finite (libm_cos x) = true.
Hypothesis libm_sin_finite :
  forall x, Float.is_finite x = true -> Float.is_finite (libm_sin x) = true.

(** X7: on a valid epitrochoid configuration, sample [i] is the point
    of the epitrochoid's equations (with [k = outer_radius +
    inner_radius]) at the angle [i * theta_step]. *)
Theorem epitrochoid_samples (config : SpiroConfig) :
  valid_config config = true ->
  spiro_type config = EPITROCHOID ->
  exists points,
    generate_points libm_cos libm_sin config = inr points
    /\ forall i, (i < List.length points)%nat ->
         nth_error points i
         = Some (spec_epitrochoid libm_cos libm_sin config
                   (Float.mul (Float.of_Z (Z.of_nat i)) (theta_step config))).
Proof.
  intros Hv Hty.
  destruct (generate_points_spec libm_cos libm_sin libm_cos_finite
              libm_sin_finite config Hv) as (f & Hf & Hgen).
  eexists. split; [exact Hgen|].
  intros i Hi. rewrite length_map, length_range in Hi.
  rewrite nth_error_map, nth_error_range by exact Hi.
  unfold sample_point. rewrite Hty. reflexivity.
Qed.

(** X8: on a valid configuration the scaled curve keeps the sampling
    order: its point [i] is the image, under the one scale transform, of
    the sample at the angle [i * theta_step]; and the path is the
    encoding of that curve. *)
Theorem scaled_samples_in_order (config : SpiroConfig) :
  valid_config config = true ->
  exists half_canvas points scaled,
    Py.int_truediv (canvas_size config) 2 = inr half_canvas
    /\ generate_points libm_cos libm_sin config = inr points
    /\ scale_points points config = inr scaled
    /\ (forall i, (i < List.length points)%nat ->
          nth_error scaled i
          = Some (transform half_canvas (spec_scale config half_canvas)
                    (sample_point libm_cos libm_sin config (Z.of_nat i))))
    /\ generate_path libm_cos libm_sin config = points_to_path scaled.
Proof.
  intros Hv.
  destruct (generate_points_spec libm_cos libm_sin libm_cos_finite
              libm_sin_finite config Hv) as (f & Hf & Hgen).
  destruct (scale_bounds config Hv) as (half & Hhalf & _).
  exists half. eexists. eexists. split; [exact Hhalf|].
  split; [exact Hgen|]. split; [apply scale_points_spec, Hhalf|]. split.
  - intros i Hi. rewrite length_map, length_range in Hi.
    rewrite !nth_error_map, nth_error_range by exact Hi. reflexivity.
  - unfold generate_path. rewrite Hgen. cbn [bind].
    rewrite (scale_points_spec _ _ _ Hhalf). reflexivity.
Qed.

End ValidSampler.

(** X9: the span guard of the scaler fires on an exactly zero span
    only: with well-formed radii and pen offset, a span that
    [math.isclose] accepts is [0.0] or [-0.0]. *)
Theorem span_guard_exact_zero (config : SpiroConfig) :
  Float.valid (outer_radius config) = true ->
  Float.valid (inner_radius config) = true ->
  Float.valid (pen_offset config) = true ->
  Py.isclose (Float.sub (snd (extent config)) (fst (extent config)))
             Float.zero = true ->
  exists s,
    Float.sub (snd (extent config)) (fst (extent config)) = S754_zero s.
Proof.
  intros VR Vr Vd. apply isclose_zero.
  unfold extent. destruct (spiro_type config); cbn [fst snd].
  - apply add_sub_valid; apply add_sub_valid; trivial.
    apply add_sub_valid; trivial.
  - apply add_sub_valid; [|reflexivity].
    apply add_sub_valid; trivial. apply add_sub_valid; trivial.
Qed.

Section SamplerEdges.

Variables libm_cos libm_sin : float -> float.

Hypothesis libm_cos_finite :
  forall x, Float.is_finite x = true -> Float.is_finite (libm_cos x) = true.
Hypothesis libm_sin_finite :
  forall x, Float.is_finite x = true -> Float.is_finite (libm_sin x) = true.

(** X10: a zero [inner_radius] makes the pipeline raise
    [ZeroDivisionError] at the first sample, whenever the step is
    finite and the step count can be computed. *)
Theorem inner_radius_zero (config : SpiroConfig) (n : Z) :
  Float.eqb (inner_radius config) Float.zero = true ->
  Float.is_finite (theta_step config) = true ->
  steps config = inr n ->
  generate_points libm_cos libm_sin config = inl ZeroDivisionError
  /\ generate_path libm_cos libm_sin config = inl ZeroDivisionError.
Proof.
  intros Hz Hfin Hn.
  assert (H : generate_points libm_cos libm_sin config = inl ZeroDivisionError).
  { unfold generate_points. rewrite Hn. cbn [bind].
    pose proof (proj2 (steps_result config) n Hn) as H1.
    destruct (range_first n ltac:(lia)) as (rest & ->).
    cbn [generate_points_loop]. change (Py.int_to_float 0) with (@inr exn _ Float.zero).
    cbn [bind].
    assert (Hth : Float.is_finite (Float.mul Float.zero (theta_step config)) = true).
    { destruct (theta_step config); try discriminate; reflexivity. }
    assert (Hc : math_cos libm_cos (Float.mul Float.zero (theta_step config))
                 = inr (libm_cos (Float.mul Float.zero (theta_step config))))
      by (apply math_1_spec, libm_cos_finite, Hth).
    assert (Hs : math_sin libm_sin (Float.mul Float.zero (theta_step config))
                 = inr (libm_sin (Float.mul Float.zero (theta_step config))))
      by (apply math_1_spec, libm_sin_finite, Hth).
    unfold _hypotrochoid_point, _epitrochoid_point. cbv zeta.
    rewrite Hc, Hs. cbn [bind]. unfold Py.float_truediv. rewrite Hz.
    destruct (spiro_type config); reflexivity. }
  split; [exact H|]. unfold generate_path. rewrite H. reflexivity.
Qed.

(** X11: within the ranges of the command line's knobs the pipeline
    returns a path, drawn through at least 2 and at most 524289
    points. *)
Theorem knob_ranges_point_count (config : SpiroConfig) :
  knob_ranges config = true ->
  exists points path,
    generate_points libm_cos libm_sin config = inr points
    /\ 2 <= Z.of_nat (List.length points) <= 524289
    /\ generate_path libm_cos libm_sin config = inr path.
Proof.
  apply knob_ranges_path; assumption.
Qed.

(** X12: a negative [theta_step] is not refused: with the other fields
    valid, the sampler returns exactly two points, the samples at the
    angles [0 * theta_step] and [1 * theta_step]. *)
Theorem negative_theta_step (config : SpiroConfig) :
  valid_config (with_step config (Float.abs (theta_step config))) = true ->
  Float.ltb (theta_step config) Float.zero = true ->
  generate_points libm_cos libm_sin config
  = inr [sample_point libm_cos libm_sin config 0;
         sample_point libm_cos libm_sin config 1].
Proof.
  intros Hv Hneg.
  unfold generate_points. rewrite (steps_negative_step config Hv Hneg).
  cbn [bind]. change (Py.range (1 + 1)) with [0; 1].
  destruct (valid_config_fields _ Hv) as (_ & _ & _ & Hth & _ & _).
  cbn [with_step theta_step] in Hth.
  destruct (in_range_bounds _ Hth) as (Vh & _ & _ & Lh).
  assert (Vh' : Float.valid (theta_step config) = true)
    by (destruct (theta_step config); exact Vh).
  assert (Lh' : le2 200 (theta_step config))
    by (destruct (theta_step config); exact Lh).
  assert (Hi : forall index, 0 <= index <= 1 ->
            Py.int_to_float index = inr (Float.of_Z index)
            /\ match spiro_type config with
               | HYPOTROCHOID =>
                   _hypotrochoid_point libm_cos libm_sin
                     (Float.mul (Float.of_Z index) (theta_step config)) config
               | EPITROCHOID =>
                   _epitrochoid_point libm_cos libm_sin
                     (Float.mul (Float.of_Z index) (theta_step config)) config
               end = inr (sample_point libm_cos libm_sin config index)).
  { intros index Hindex.
    destruct (int_to_float_spec index 403 ltac:(lia)) as (E & Vi & Li).
    { pose proof (pow2_pos 403 ltac:(lia)). lia. }
    split; trivial.
    destruct (mul_spec _ _ 403 200 Vi Vh' Li Lh' ltac:(unfold emin; lia))
      as [Va La].
    destruct (trochoid_point_spec libm_cos libm_sin libm_cos_finite
                libm_sin_finite _ _ Hv Va La) as [Hh He].
    unfold sample_point, sample_angle.
    destruct (spiro_type config); [exact Hh|exact He]. }
  destruct (Hi 0 ltac:(lia)) as [E0 P0]. destruct (Hi 1 ltac:(lia)) as [E1 P1].
  cbn [generate_points_loop]. rewrite E0. cbn [bind]. rewrite P0. cbn [bind].
  rewrite E1. cbn [bind]. rewrite P1. reflexivity.
Qed.

End SamplerEdges.

(** * Properties of the command line's validation *)

Section CommandLine.

Variable float_repr : float -> string.
Variable str_repr : string -> string.
Variable float_of_str : string -> result float.
Variable int_of_str : string -> result Z.
Variable unicode_lower : string -> string.

(** X13: a NaN passes the range checks of every float knob, whatever
    its bounds: [_normalize_value] returns it. *)
Theorem nan_passes_validation (name : string) (knob : Cli.Knob) :
  Cli.value_type knob = Cli.float_class ->
  Cli._normalize_value float_repr float_of_str int_of_str unicode_lower name
    (Cli.Number (Cli.NFloat S754_nan)) knob
  = inr (Cli.Number (Cli.NFloat S754_nan)).
Proof.
  intros Hty. unfold Cli._normalize_value. rewrite Hty.
  cbn [Cli.float_ bind ret]. unfold Cli._validate_range.
  assert (Hlt : forall b, Cli.lt (Cli.NFloat S754_nan) b = false)
    by (intros [y|n]; reflexivity).
  assert (Hgt : forall b, Cli.gt (Cli.NFloat S754_nan) b = false)
    by (intros [[ | | | ]|n]; reflexivity).
  destruct (Cli.minimum knob) as [least|];
    destruct (Cli.maximum knob) as [most|];
    rewrite ?Hlt, ?Hgt; reflexivity.
Qed.

(** X14: a float knob with float bounds lets through the floats between
    its bounds, and NaN; what it refuses is below the minimum or above
    the maximum, and the message names the bound. *)
Theorem validated_float_in_range (name : string) (value : Cli.object)
    (knob : Cli.Knob) (lo hi : float) :
  Cli.value_type knob = Cli.float_class ->
  Cli.minimum knob = Some (Cli.NFloat lo) ->
  Cli.maximum knob = Some (Cli.NFloat hi) ->
  Float.is_nan lo = false -> Float.is_nan hi = false ->
  (forall v,
     Cli._normalize_value float_repr float_of_str int_of_str unicode_lower
       name value knob
     = inr v ->
     exists x,
       v = Cli.Number (Cli.NFloat x)
       /\ Cli.float_ float_of_str value = inr x
       /\ nan_or_between lo hi x = true)
  /\ (forall e,
        Cli._normalize_value float_repr float_of_str int_of_str unicode_lower
          name value
          knob = inl e ->
        Cli.float_ float_of_str value = inl e
        \/ exists x,
             Cli.float_ float_of_str value = inr x
             /\ ((Float.ltb x lo = true
                  /\ e = ValueError (name ++ " must be >= " ++ float_repr lo))
                 \/ (Float.ltb hi x = true
                     /\ e = ValueError (name ++ " must be <= "
                                        ++ float_repr hi)))).
Proof.
  intros Hty Hmin Hmax Nlo Nhi. split.
  - intros v H.
    exact (normalize_float_between float_repr float_of_str int_of_str unicode_lower
             _ _ _ _ _ _ Hty Hmin Hmax Nlo Nhi H).
  - intros e H. unfold Cli._normalize_value in H. rewrite Hty in H.
    apply bind_inl in H. destruct H as [H|(x & Hx & H)]; [left; exact H|].
    right. exists x. split; [exact Hx|].
    apply bind_inl in H. destruct H as [H|(? & _ & H)]; [|discriminate].
    apply validate_range_error in H.
    destruct H as [(least & E & Hlt & ->)|(most & E & Hgt & ->)].
    + left. rewrite Hmin in E. injection E as <-. auto.
    + right. rewrite Hmax in E. injection E as <-. auto.
Qed.

(** X15: a stroke colour that [_normalize_value] returns is the text
    entered, stripped and then lower-cased, and the stripped text starts
    with [#] and has four or seven code points; the tests come before
    [lower()].  When the text entered is plain ASCII, the colour
    returned is in normal form -- a [#] and three or six more
    characters, unchanged by [lower()] and by [strip()] -- and
    normalising it again leaves it unchanged.  (Outside ASCII [lower()]
    may lengthen a text, and neither conclusion is claimed.) *)
Theorem stroke_color_normal_form (value v : Cli.object) (knob : Cli.Knob) :
  Cli.value_type knob = Cli.str_class ->
  Cli.choices knob = None ->
  Cli._normalize_value float_repr float_of_str int_of_str unicode_lower
    "stroke_color" value knob = inr v ->
  exists text,
    v = Cli.Str text
    /\ text
       = Cli.lower unicode_lower (Cli.strip (Cli.str float_repr value))
    /\ Cli.startswith (Cli.strip (Cli.str float_repr value)) "#" = true
    /\ (Cli.len (Cli.strip (Cli.str float_repr value)) = 4%nat
        \/ Cli.len (Cli.strip (Cli.str float_repr value)) = 7%nat)
    /\ (Cli.is_ascii (Cli.str float_repr value) = true ->
        normal_color (Cli.lower unicode_lower) text
        /\ Cli._normalize_value float_repr float_of_str int_of_str
             unicode_lower "stroke_color" (Cli.Str text) knob
           = inr (Cli.Str text)).
Proof.
  intros Hty Hch H.
  destruct (normalize_color_inv _ _ _ _ _ _ _ Hty Hch H) as (-> & Hp & Hl).
  eexists. split; [reflexivity|]. split; [reflexivity|].
  split; [exact Hp|]. split; [exact Hl|]. intros Ha.
  pose proof (normal_color_intro unicode_lower _ Ha Hp Hl) as Hn.
  split; [exact Hn|].
  apply normalize_color_intro; assumption.
Qed.

(** X16: the configuration built from the collected dictionary holds
    what was entered: [_build_config] finds every key, and each field
    is the entered value converted -- the floats by [float()], the
    canvas size by [int()], the curve kind as the member whose value was
    entered, the stroke colour stripped and lower-cased. *)
Theorem collected_values_round_trip (raw_value : Cli.Knob -> Cli.object)
    (values : Cli.dict) :
  Cli._collect_knob_values float_repr float_of_str int_of_str unicode_lower
    raw_value
  = inr values ->
  exists config,
    Cli._build_config float_repr str_repr float_of_str int_of_str values
    = inr config
    /\ Cli.float_ float_of_str (raw_value Cli.outer_radius_knob)
       = inr (outer_radius config)
    /\ Cli.float_ float_of_str (raw_value Cli.inner_radius_knob)
       = inr (inner_radius config)
    /\ Cli.float_ float_of_str (raw_value Cli.pen_offset_knob)
       = inr (pen_offset config)
    /\ Cli.float_ float_of_str (raw_value Cli.theta_step_knob)
       = inr (theta_step config)
    /\ Cli.float_ float_of_str (raw_value Cli.cycles_knob)
       = inr (cycles config)
    /\ Cli.float_ float_of_str (raw_value Cli.stroke_width_knob)
       = inr (stroke_width config)
    /\ Cli.int_ int_of_str (raw_value Cli.canvas_size_knob)
       = inr (canvas_size config)
    /\ raw_value Cli.spiro_type_knob
       = Cli.Str (Cli.SpiroType_value (spiro_type config))
    /\ stroke_color config
       = Cli.lower unicode_lower
           (Cli.strip (Cli.str float_repr (raw_value Cli.stroke_color_knob))).
Proof.
  intros H.
  destruct (collect_build float_repr str_repr float_of_str int_of_str unicode_lower _ _ H)
    as (xR & xr & xd & xt & xc & xw & n & kind & Hraw & Hbuild & _).
  destruct Hraw as (ER & Er & Ed & Et & Ec & Ew & En & Ek).
  eexists. split; [exact Hbuild|].
  cbn [outer_radius inner_radius pen_offset theta_step cycles stroke_width
       canvas_size spiro_type stroke_color].
  repeat (split; [assumption|]). reflexivity.
Qed.

Variables libm_cos libm_sin : float -> float.

(** X17: a NaN entered for [theta_step] goes through the validation and
    into the configuration, and the generator then raises the
    [ValueError] of [int(nan)]. *)
Theorem nan_step_reaches_generator (raw_value : Cli.Knob -> Cli.object)
    (values : Cli.dict) :
  Cli._collect_knob_values float_repr float_of_str int_of_str unicode_lower
    raw_value
  = inr values ->
  Cli.float_ float_of_str (raw_value Cli.theta_step_knob) = inr S754_nan ->
  exists config,
    Cli._build_config float_repr str_repr float_of_str int_of_str values
    = inr config
    /\ generate_path libm_cos libm_sin config
       = inl (ValueError "cannot convert float NaN to integer").
Proof.
  intros H Hnan.
  destruct (collect_build float_repr str_repr float_of_str int_of_str unicode_lower _ _ H)
    as (xR & xr & xd & xt & xc & xw & n & kind & Hraw & Hbuild & _).
  destruct Hraw as (_ & _ & _ & Et & _).
  rewrite Hnan in Et. injection Et as <-.
  eexists. split; [exact Hbuild|].
  apply nan_step_error. left. reflexivity.
Qed.

Hypothesis libm_cos_finite :
  forall x, Float.is_finite x = true -> Float.is_finite (libm_cos x) = true.
Hypothesis libm_sin_finite :
  forall x, Float.is_finite x = true -> Float.is_finite (libm_sin x) = true.

(** X18: every collected dictionary builds a configuration -- no key is
    missing, no conversion fails -- whose numeric fields are within the
    ranges of the knobs, or NaN; when none of the five geometric fields
    is a NaN, the generator returns a path for it. *)
Theorem collected_config_in_ranges (raw_value : Cli.Knob -> Cli.object)
    (values : Cli.dict) :
  Cli._collect_knob_values float_repr float_of_str int_of_str unicode_lower
    raw_value
  = inr values ->
  exists config,
    Cli._build_config float_repr str_repr float_of_str int_of_str values
    = inr config
    /\ cli_ranges config = true
    /\ (geometry_is_number config = true ->
        knob_ranges config = true
        /\ exists path, generate_path libm_cos libm_sin config = inr path).
Proof.
  intros H.
  destruct (collect_build float_repr str_repr float_of_str int_of_str unicode_lower _ _ H)
    as (xR & xr & xd & xt & xc & xw & n & kind & _ & Hbuild & Hr).
  eexists. split; [exact Hbuild|]. split; [exact Hr|].
  intros Hn. pose proof (cli_ranges_knob_ranges _ Hr Hn) as Hk.
  split; [exact Hk|].
  destruct (knob_ranges_path libm_cos libm_sin libm_cos_finite
              libm_sin_finite _ Hk) as (points & path & _ & _ & Hpath).
  exists path. exact Hpath.
Qed.

End CommandLine.

(** * The path written *)

Section PathWritten.

Variables libm_cos libm_sin : float -> float.

(** X19: whatever the configuration, a path that the pipeline returns
    is one move-to command followed by [steps] line-to commands, with
    [steps >= 1]: it is never empty and never a lone point. *)
Theorem path_shape (config : SpiroConfig) (path : string) :
  generate_path libm_cos libm_sin config = inr path ->
  exists n first second rest,
    steps config = inr n
    /\ List.length (second :: rest) = Z.to_nat n
    /\ path
       = (move_to first ++ " " ++ line_to second
          ++ String.concat "" (map (fun p => " " ++ line_to p) rest))%string.
Proof.
  unfold generate_path. intros H.
  apply bind_inr in H. destruct H as (points & Hp & H).
  apply bind_inr in H. destruct H as (scaled & Hs & H).
  destruct (proj2 (generate_points_result _ _ config) points Hp)
    as (n & Hn & H1 & Hlen).
  destruct (scale_points_result _ _ _ Hs) as (half & scale & ->).
  assert (Hlen' : List.length (map (transform half scale) points)
                  = S (Z.to_nat n)).
  { rewrite length_map, Hlen. lia. }
  destruct (map (transform half scale) points) as [|first [|second rest]].
  - discriminate.
  - simpl in Hlen'. lia.
  - rewrite points_to_path_cons in H.
    pose proof (f_equal (fun r : result string =>
                           match r with inr p => p | inl _ => path end) H)
      as E.
    cbv beta iota in E. rewrite <- E.
    exists n, first, second, rest. split; [exact Hn|].
    split; [simpl in Hlen' |- *; lia|].
    cbn [map]. rewrite concat_empty_cons, !append_assoc. reflexivity.
Qed.

Hypothesis libm_cos_bounded :
  forall x, Float.is_finite x = true ->
            Float.valid (libm_cos x) = true /\ le2 0 (libm_cos x).
Hypothesis libm_sin_bounded :
  forall x, Float.is_finite x = true ->
            Float.valid (libm_sin x) = true /\ le2 0 (libm_sin x).

(** X20: on a valid configuration, with a cosine and a sine that, at
    every finite argument, return a well-formed number of magnitude at
    most 1 (nothing is asked of them at a NaN or an infinity), every
    coordinate of the scaled curve is a finite number, of magnitude at
    most [2 ^ 402], and is written with exactly three decimals: no
    [nan] and no [inf] gets into the path. *)
Theorem path_coordinates_finite (config : SpiroConfig) :
  valid_config config = true ->
  exists points scaled,
    generate_points libm_cos libm_sin config = inr points
    /\ scale_points points config = inr scaled
    /\ generate_path libm_cos libm_sin config = points_to_path scaled
    /\ Forall (point_le2 402) scaled
    /\ Forall (fun p => three_decimals (format_3f (fst p))
                        /\ three_decimals (format_3f (snd p))) scaled.
Proof.
  intros Hv.
  destruct (generate_points_spec libm_cos libm_sin
              (bounded_finite libm_cos libm_cos_bounded)
              (bounded_finite libm_sin libm_sin_bounded) config Hv)
    as (f & Hf & Hgen).
  destruct (scale_bounds config Hv) as (half & Hhalf & Vh & Lh & _ & Vs & Ls).
  destruct (steps_spec config Hv) as (f' & Hf' & _ & Hmax).
  rewrite Hf in Hf'. injection Hf' as <-.
  assert (Hb : Forall (point_le2 402)
                 (map (transform half (spec_scale config half))
                    (map (sample_point libm_cos libm_sin config)
                       (Py.range (Z.max 1 f + 1))))).
  { apply Forall_map, Forall_map.
    pose proof (range_Forall (Z.max 1 f) (2 ^ 403) Hmax) as Hidx.
    revert Hidx. apply Forall_impl. intros i Hi.
    apply (transform_bounds half _ _ 202); trivial; [lia|].
    apply sample_point_bound; assumption. }
  eexists. eexists. split; [exact Hgen|].
  split; [apply scale_points_spec, Hhalf|].
  split; [|split; [exact Hb|]].
  - unfold generate_path. rewrite Hgen. cbn [bind].
    rewrite (scale_points_spec _ _ _ Hhalf). reflexivity.
  - revert Hb. apply Forall_impl. intros p [[_ Lx] [_ Ly]].
    split; apply format_3f_finite; eapply le2_finite; eassumption.
Qed.

End PathWritten.

(** * The random mode *)

Section RandomMode.

Variable float_repr : float -> string.
Variable float_of_str : string -> result float.
Variable int_of_str : string -> result Z.
Variable unicode_lower : string -> string.
Variable uniform : Cli.number -> Cli.number -> result float.
Variable randint : Z -> Z -> result Z.
Variable choice : list string -> string.
Variable round_4 : float -> float.

(** X21: in random mode, what [_random_value] draws for a knob of
    [KNOBS] that is not a float -- the canvas size, the stroke colour,
    the curve kind -- always passes [_normalize_value], which returns
    it unchanged; [randint(a, b)] is taken to return an integer between
    [a] and [b], and [choice] an element of its argument. *)
Theorem random_values_pass_validation (name : string) (knob : Cli.Knob) :
  (forall a b, a <= b -> exists n, randint a b = inr n /\ a <= n <= b) ->
  (forall choice1 others, In (choice (choice1 :: others)) (choice1 :: others)) ->
  In (name, knob) Cli.KNOBS ->
  Cli.value_type knob <> Cli.float_class ->
  exists value,
    Cli._random_value uniform randint choice round_4 knob = inr value
    /\ Cli._normalize_value float_repr float_of_str int_of_str unicode_lower
      name value knob
       = inr value.
Proof.
  intros Hrandint Hchoice Hin Hty.
  unfold Cli.KNOBS in Hin. cbn [In] in Hin.
  destruct Hin as [E|[E|[E|[E|[E|[E|[E|[E|[E|[]]]]]]]]]];
    injection E as <- <-; try (exfalso; apply Hty; reflexivity).
  - destruct (Hrandint 200 3000 ltac:(lia)) as (n & En & Hn).
    exists (Cli.Number (Cli.NInt n)). split.
    + unfold Cli._random_value.
      cbn [Cli.value_type Cli.minimum Cli.maximum Cli.canvas_size_knob
           Cli.int_number Cli.lift Cli.bind_error ret].
      rewrite En. reflexivity.
    + unfold Cli._normalize_value, Cli._validate_range.
      cbn [Cli.value_type Cli.minimum Cli.maximum Cli.canvas_size_knob
           Cli.int_ Cli.int_number bind ret Cli.lt Cli.gt].
      destruct (Z.ltb_spec n 200); [lia|].
      destruct (Z.ltb_spec 3000 n); [lia|]. reflexivity.
  - destruct (Hrandint 0 16777215 ltac:(lia)) as (n & En & Hn).
    destruct (format_06x_spec n Hn) as [Hh Hl].
    exists (Cli.Str (String "#" (Cli.format_06x n))). split.
    + unfold Cli._random_value.
      cbn [Cli.value_type Cli.choices Cli.name Cli.stroke_color_knob].
      change (String.eqb "stroke_color" "stroke_color") with true. cbv iota.
      rewrite En. reflexivity.
    + apply normalize_color_intro; [reflexivity|reflexivity|].
      apply hex_color_normal; assumption.
  - pose proof (Hchoice (Cli.SpiroType_value HYPOTROCHOID)
                  [Cli.SpiroType_value EPITROCHOID]) as Hc.
    exists (Cli.Str (choice [Cli.SpiroType_value HYPOTROCHOID;
                             Cli.SpiroType_value EPITROCHOID])).
    split; [reflexivity|].
    unfold Cli._normalize_value.
    cbn [Cli.value_type Cli.choices Cli.spiro_type_knob map].
    destruct Hc as [<-|[<-|[]]]; reflexivity.
Qed.

End RandomMode.

(** * The further properties at concrete configurations *)

Lemma generate_points_at_least_two_witness :
  exists points,
    generate_points const_cos const_sin half_turn_config = inr points
    /\ exists n,
         steps half_turn_config = inr n /\ 1 <= n
         /\ List.length points = Z.to_nat (n + 1)
         /\ (2 <= List.length points)%nat.
Proof.
  eexists. split; [vm_compute; reflexivity|].
  apply (generate_points_at_least_two const_cos const_sin half_turn_config).
  vm_compute. reflexivity.
Defined.

Lemma generate_path_errors_witness :
  generate_path const_cos const_sin (with_theta_step Float.zero)
  = inl ZeroDivisionError
  /\ sampler_error ZeroDivisionError
  /\ ZeroDivisionError
     <> ValueError "Cannot build a path from an empty sequence of points".
Proof.
  split; [reflexivity|].
  apply (generate_path_errors const_cos const_sin
           (with_theta_step Float.zero)).
  reflexivity.
Defined.

Lemma scale_points_affine_witness :
  exists scaled,
    scale_points [(Float.of_Z 145, Float.zero); (Float.zero, Float.one)]
      default_config = inr scaled
    /\ List.length scaled = 2%nat
    /\ exists half_canvas,
         Py.int_truediv (canvas_size default_config) 2 = inr half_canvas
         /\ scaled
            = map (transform half_canvas
                     (spec_scale default_config half_canvas))
                  [(Float.of_Z 145, Float.zero); (Float.zero, Float.one)].
Proof.
  eexists. split; [vm_compute; reflexivity|].
  destruct (scale_points_affine
              [(Float.of_Z 145, Float.zero); (Float.zero, Float.one)]
              _ default_config ltac:(vm_compute; reflexivity)) as [Hlen Hmap].
  split; [exact Hlen|]. apply Hmap. discriminate.
Defined.

Lemma scale_points_failure_witness :
  scale_points [(Float.zero, Float.zero)] (with_canvas_size (2 ^ 1030))
  = inl OverflowError
  /\ OverflowError = OverflowError
  /\ [(Float.zero, Float.zero)] <> []
  /\ 2 ^ 1024 < Z.abs (canvas_size (with_canvas_size (2 ^ 1030))).
Proof.
  split; [vm_compute; reflexivity|].
  apply (scale_points_failure [(Float.zero, Float.zero)]
           (with_canvas_size (2 ^ 1030)) OverflowError).
  vm_compute. reflexivity.
Defined.

Lemma theta_step_zero_witness :
  generate_points const_cos const_sin (with_theta_step Float.zero)
  = inl ZeroDivisionError
  /\ generate_path const_cos const_sin (with_theta_step Float.zero)
     = inl ZeroDivisionError.
Proof.
  apply (theta_step_zero const_cos const_sin (with_theta_step Float.zero)).
  reflexivity.
Defined.

Lemma theta_step_nan_witness :
  generate_path const_cos const_sin (with_theta_step S754_nan)
  = inl (ValueError "cannot convert float NaN to integer").
Proof.
  apply (theta_step_nan const_cos const_sin (with_theta_step S754_nan)).
  left. reflexivity.
Defined.

Lemma epitrochoid_samples_witness :
  exists points,
    generate_points const_cos const_sin (with_spiro_type EPITROCHOID)
    = inr points
    /\ forall i, (i < List.length points)%nat ->
         nth_error points i
         = Some (spec_epitrochoid const_cos const_sin
                   (with_spiro_type EPITROCHOID)
                   (Float.mul (Float.of_Z (Z.of_nat i))
                      (theta_step (with_spiro_type EPITROCHOID)))).
Proof.
  apply (epitrochoid_samples const_cos const_sin const_cos_finite
           const_sin_finite (with_spiro_type EPITROCHOID));
    reflexivity.
Defined.

Lemma scaled_samples_in_order_witness :
  exists half_canvas points scaled,
    Py.int_truediv (canvas_size default_config) 2 = inr half_canvas
    /\ generate_points const_cos const_sin default_config = inr points
    /\ scale_points points default_config = inr scaled
    /\ (forall i, (i < List.length points)%nat ->
          nth_error scaled i
          = Some (transform half_canvas
                    (spec_scale default_config half_canvas)
                    (sample_point const_cos const_sin default_config
                       (Z.of_nat i))))
    /\ generate_path const_cos const_sin default_config
       = points_to_path scaled.
Proof.
  apply (scaled_samples_in_order const_cos const_sin const_cos_finite
           const_sin_finite default_config).
  reflexivity.
Defined.

Lemma span_guard_exact_zero_witness :
  exists s,
    Float.sub (snd (extent degenerate_config)) (fst (extent degenerate_config))
    = S754_zero s.
Proof.
  apply (span_guard_exact_zero degenerate_config); reflexivity.
Defined.

Lemma inner_radius_zero_witness :
  generate_points const_cos const_sin (with_inner_radius Float.zero)
  = inl ZeroDivisionError
  /\ generate_path const_cos const_sin (with_inner_radius Float.zero)
     = inl ZeroDivisionError.
Proof.
  apply (inner_radius_zero const_cos const_sin const_cos_finite
           const_sin_finite (with_inner_radius Float.zero) 6283);
    reflexivity.
Defined.

Lemma knob_ranges_point_count_witness :
  exists points path,
    generate_points const_cos const_sin default_config = inr points
    /\ 2 <= Z.of_nat (List.length points) <= 524289
    /\ generate_path const_cos const_sin default_config = inr path.
Proof.
  apply (knob_ranges_point_count const_cos const_sin const_cos_finite
           const_sin_finite default_config).
  reflexivity.
Defined.

Lemma negative_theta_step_witness :
  generate_points const_cos const_sin
    (with_theta_step (S754_finite true 5764607523034235 (-58)))
  = inr [sample_point const_cos const_sin
           (with_theta_step (S754_finite true 5764607523034235 (-58))) 0;
         sample_point const_cos const_sin
           (with_theta_step (S754_finite true 5764607523034235 (-58))) 1].
Proof.
  apply (negative_theta_step const_cos const_sin const_cos_finite
           const_sin_finite
           (with_theta_step (S754_finite true 5764607523034235 (-58))));
    reflexivity.
Defined.

Lemma nan_passes_validation_witness :
  Cli._normalize_value no_repr no_float no_int same_text "theta_step"
    (Cli.Number (Cli.NFloat S754_nan)) Cli.theta_step_knob
  = inr (Cli.Number (Cli.NFloat S754_nan)).
Proof.
  apply (nan_passes_validation no_repr no_float no_int same_text "theta_step"
           Cli.theta_step_knob).
  reflexivity.
Defined.

Lemma nan_step_reaches_generator_witness :
  exists values,
    Cli._collect_knob_values no_repr no_float no_int same_text
      nan_step = inr values
    /\ exists config,
         Cli._build_config no_repr no_repr no_float no_int values = inr config
         /\ generate_path const_cos const_sin config
            = inl (ValueError "cannot convert float NaN to integer").
Proof.
  eexists. split; [vm_compute; reflexivity|].
  apply (nan_step_reaches_generator no_repr no_repr no_float no_int same_text
           const_cos const_sin nan_step);
    vm_compute; reflexivity.
Defined.

Lemma validated_float_in_range_witness :
  (forall v,
     Cli._normalize_value no_repr no_float no_int same_text "outer_radius"
       (Cli.Number (Cli.NInt 180)) Cli.outer_radius_knob = inr v ->
     exists x,
       v = Cli.Number (Cli.NFloat x)
       /\ Cli.float_ no_float (Cli.Number (Cli.NInt 180)) = inr x
       /\ nan_or_between (Float.of_Z 10) (Float.of_Z 400) x = true)
  /\ (forall e,
        Cli._normalize_value no_repr no_float no_int same_text "outer_radius"
          (Cli.Number (Cli.NInt 180)) Cli.outer_radius_knob = inl e ->
        Cli.float_ no_float (Cli.Number (Cli.NInt 180)) = inl e
        \/ exists x,
             Cli.float_ no_float (Cli.Number (Cli.NInt 180)) = inr x
             /\ ((Float.ltb x (Float.of_Z 10) = true
                  /\ e = ValueError ("outer_radius" ++ " must be >= "
                                     ++ no_repr (Float.of_Z 10)))
                 \/ (Float.ltb (Float.of_Z 400) x = true
                     /\ e = ValueError ("outer_radius" ++ " must be <= "
                                        ++ no_repr (Float.of_Z 400))))).
Proof.
  apply (validated_float_in_range no_repr no_float no_int same_text
    "outer_radius"
           (Cli.Number (Cli.NInt 180)) Cli.outer_radius_knob
           (Float.of_Z 10) (Float.of_Z 400));
    reflexivity.
Defined.

Lemma collected_config_in_ranges_witness :
  exists values,
    Cli._collect_knob_values no_repr no_float no_int same_text
      Cli.default = inr values
    /\ exists config,
         Cli._build_config no_repr no_repr no_float no_int values = inr config
         /\ cli_ranges config = true
         /\ (geometry_is_number config = true ->
             knob_ranges config = true
             /\ exists path,
                  generate_path const_cos const_sin config = inr path).
Proof.
  eexists. split; [vm_compute; reflexivity|].
  apply (collected_config_in_ranges no_repr no_repr no_float no_int same_text
           const_cos const_sin const_cos_finite const_sin_finite
           Cli.default).
  vm_compute. reflexivity.
Defined.

Lemma stroke_color_normal_form_witness :
  exists text,
    Cli.Str "#ff00aa" = Cli.Str text
    /\ text
       = Cli.lower same_text
           (Cli.strip (Cli.str no_repr (Cli.Str " #FF00aa  ")))
    /\ Cli.startswith (Cli.strip (Cli.str no_repr (Cli.Str " #FF00aa  ")))
         "#" = true
    /\ (Cli.len (Cli.strip (Cli.str no_repr (Cli.Str " #FF00aa  "))) = 4%nat
        \/ Cli.len (Cli.strip (Cli.str no_repr (Cli.Str " #FF00aa  ")))
           = 7%nat)
    /\ normal_color (Cli.lower same_text) text
    /\ Cli._normalize_value no_repr no_float no_int same_text
         "stroke_color" (Cli.Str text) Cli.stroke_color_knob
       = inr (Cli.Str text).
Proof.
  destruct (stroke_color_normal_form no_repr no_float no_int same_text
              (Cli.Str " #FF00aa  ") (Cli.Str "#ff00aa")
              Cli.stroke_color_knob eq_refl eq_refl eq_refl)
    as (text & Hv & Ht & Hp & Hl & Hascii).
  exists text. repeat (split; [assumption|]).
  apply Hascii. reflexivity.
Defined.

Lemma collected_values_round_trip_witness :
  exists values,
    Cli._collect_knob_values no_repr no_float no_int same_text
      Cli.default = inr values
    /\ exists config,
         Cli._build_config no_repr no_repr no_float no_int values = inr config
         /\ Cli.float_ no_float (Cli.default Cli.outer_radius_knob)
            = inr (outer_radius config)
         /\ Cli.float_ no_float (Cli.default Cli.inner_radius_knob)
            = inr (inner_radius config)
         /\ Cli.float_ no_float (Cli.default Cli.pen_offset_knob)
            = inr (pen_offset config)
         /\ Cli.float_ no_float (Cli.default Cli.theta_step_knob)
            = inr (theta_step config)
         /\ Cli.float_ no_float (Cli.default Cli.cycles_knob)
            = inr (cycles config)
         /\ Cli.float_ no_float (Cli.default Cli.stroke_width_knob)
            = inr (stroke_width config)
         /\ Cli.int_ no_int (Cli.default Cli.canvas_size_knob)
            = inr (canvas_size config)
         /\ Cli.default Cli.spiro_type_knob
            = Cli.Str (Cli.SpiroType_value (spiro_type config))
         /\ stroke_color config
            = Cli.lower same_text
                (Cli.strip
                   (Cli.str no_repr (Cli.default Cli.stroke_color_knob))).
Proof.
  eexists. split; [vm_compute; reflexivity|].
  apply (collected_values_round_trip no_repr no_repr no_float no_int same_text
           Cli.default).
  vm_compute. reflexivity.
Defined.

Lemma path_shape_witness :
  exists path,
    generate_path const_cos const_sin half_turn_config = inr path
    /\ exists n first second rest,
         steps half_turn_config = inr n
         /\ List.length (second :: rest) = Z.to_nat n
         /\ path
            = (move_to first ++ " " ++ line_to second
               ++ String.concat ""
                    (map (fun p => " " ++ line_to p) rest))%string.
Proof.
  eexists. split; [vm_compute; reflexivity|].
  apply (path_shape const_cos const_sin half_turn_config).
  vm_compute. reflexivity.
Defined.

Lemma path_coordinates_finite_witness :
  exists points scaled,
    generate_points const_cos const_sin default_config = inr points
    /\ scale_points points default_config = inr scaled
    /\ generate_path const_cos const_sin default_config
       = points_to_path scaled
    /\ Forall (point_le2 402) scaled
    /\ Forall (fun p => three_decimals (format_3f (fst p))
                        /\ three_decimals (format_3f (snd p))) scaled.
Proof.
  apply (path_coordinates_finite const_cos const_sin const_cos_bounded
           const_sin_bounded default_config).
  reflexivity.
Defined.

Lemma random_values_pass_validation_witness :
  exists value,
    Cli._random_value lowest_float lowest_int first_choice unrounded
      Cli.stroke_color_knob = inr value
    /\ Cli._normalize_value no_repr no_float no_int same_text
      "stroke_color" value
         Cli.stroke_color_knob = inr value.
Proof.
  apply (random_values_pass_validation no_repr no_float no_int same_text
           lowest_float
           lowest_int first_choice unrounded "stroke_color"
           Cli.stroke_color_knob).
  - intros a b Hab. exists a. split; [reflexivity|lia].
  - intros choice1 others. left. reflexivity.
  - do 7 right. left. reflexivity.
  - discriminate.
Defined.
